(** * gitty: a shallow embedding of the command runner, the status and diff
      parsers, the commit classifier and composer, the suggestion aggregator
      and the key-driven state machine.

    Two implementations live in the repository: [main.go] (the earlier
    single-[state] interface) and [main_new.go] (the four-tab interface).
    Functions that are textually the same in both are embedded once; where
    they differ, the embedding says which file it follows. *)

From Stdlib Require Import ZArith Ascii String List Lia Permutation.
From stdpp Require Import base option list gmap strings.

Local Open Scope Z_scope.
Set Warnings "-register-all".


(** ** Go's [strings] and [path/filepath], on byte strings.

    A Go [string] is a sequence of bytes; it is embedded as a Rocq [string],
    one [ascii] per byte.  Lengths, indices and counters are Go [int]s,
    embedded as [Z].  A length, or a counter that goes up by one per line
    or per byte of an input text, stays below the 64-bit limit as long as
    the text fits in memory; so does such a number, or one that a test has
    just bounded, with a small constant added: these are written as they
    stand.  Where the program multiplies a counter, or adds or subtracts two
    counters (the commit classifier and the message composer do), the result
    is reduced to 64 bits with [wrap]. *)

(** The Go [int] of a 64-bit platform: the value an arithmetic operation
    leaves, in two's complement. *)
Definition wrap (z : Z) : Z := (z + 2 ^ 63) mod 2 ^ 64 - 2 ^ 63.

Module GoStrings.

Definition byte (c : ascii) : N := N_of_ascii c.

Definition len (s : string) : Z := Z.of_nat (String.length s).

(** [s[i:]] and [s[:i]] for [0 <= i <= len s]; every call site guards the
    range, so the out-of-range panic is not modelled. *)
Fixpoint drop (n : nat) (s : string) : string :=
  match n, s with
  | O, _ => s
  | S k, String _ r => drop k r
  | S _, EmptyString => EmptyString
  end.

Fixpoint take (n : nat) (s : string) : string :=
  match n, s with
  | O, _ => EmptyString
  | S k, String c r => String c (take k r)
  | S _, EmptyString => EmptyString
  end.

Definition sliceFrom (s : string) (i : Z) : string := drop (Z.to_nat i) s.
Definition sliceTo (s : string) (i : Z) : string := take (Z.to_nat i) s.
Definition slice (s : string) (i j : Z) : string :=
  take (Z.to_nat (j - i)) (drop (Z.to_nat i) s).

Fixpoint HasPrefix (s p : string) : bool :=
  match p, s with
  | EmptyString, _ => true
  | String a p', String b s' => if decide (a = b) then HasPrefix s' p' else false
  | String _ _, EmptyString => false
  end.

Definition HasSuffix (s p : string) : bool :=
  HasPrefix (String.rev s) (String.rev p).

Fixpoint Contains (s sub : string) : bool :=
  HasPrefix s sub ||
  match s with
  | EmptyString => false
  | String _ r => Contains r sub
  end.

(** [strings.Index]: byte offset of the first occurrence, or -1. *)
Fixpoint Index_from (i : Z) (s sub : string) : Z :=
  if HasPrefix s sub then i
  else match s with
       | EmptyString => -1
       | String _ r => Index_from (i + 1) r sub
       end.
Definition Index (s sub : string) : Z := Index_from 0 s sub.

(** [strings.Split] for a non-empty separator: [skip] counts the bytes of
    a separator still to be passed over, [acc] is the current piece,
    reversed. *)
Fixpoint Split_go (sep : string) (skip : nat) (acc : string) (s : string)
  : list string :=
  match s with
  | EmptyString => [String.rev acc]
  | String c r =>
      match skip with
      | S k => Split_go sep k acc r
      | O =>
          if HasPrefix s sep
          then String.rev acc :: Split_go sep (String.length sep - 1) EmptyString r
          else Split_go sep O (String c acc) r
      end
  end.
Definition Split (s sep : string) : list string := Split_go sep O EmptyString s.

Definition TrimPrefix (s p : string) : string :=
  if HasPrefix s p then drop (String.length p) s else s.

Definition TrimSuffix (s p : string) : string :=
  if HasSuffix s p then take (String.length s - String.length p) s else s.

(** White space as [unicode.IsSpace] sees it through the UTF-8 decoder:
    the six ASCII blanks, U+0085, U+00A0, U+1680, U+2000..U+200A, U+2028,
    U+2029, U+202F, U+205F and U+3000.  [spaceWidth s] is the number of
    bytes of the white-space rune that [s] starts with, or 0. *)
Definition asciiSpace (c : ascii) : bool :=
  match byte c with
  | 9 | 10 | 11 | 12 | 13 | 32 => true
  | _ => false
  end%N.

Definition spaceWidth (s : string) : nat :=
  match s with
  | EmptyString => 0
  | String c r =>
      if asciiSpace c then 1
      else match byte c, r with
           | 194%N, String d _ =>
               if ((byte d =? 133) || (byte d =? 160))%N then 2 else 0
           | 225%N, String d (String e _) =>
               if ((byte d =? 154) && (byte e =? 128))%N then 3 else 0
           | 226%N, String d (String e _) =>
               if ((byte d =? 128) &&
                   (((128 <=? byte e) && (byte e <=? 138)) ||
                    (byte e =? 168) || (byte e =? 169) || (byte e =? 175)))%N
               then 3
               else if ((byte d =? 129) && (byte e =? 159))%N then 3 else 0
           | 227%N, String d (String e _) =>
               if ((byte d =? 128) && (byte e =? 128))%N then 3 else 0
           | _, _ => 0
           end
  end%nat.

(** The same test on a reversed string: the rune is read from its last
    byte backwards, as [utf8.DecodeLastRuneInString] does. *)
Definition spaceWidthRev (s : string) : nat :=
  match s with
  | EmptyString => 0
  | String c r =>
      if asciiSpace c then 1
      else match r with
           | String d r' =>
               if ((byte d =? 194) && ((byte c =? 133) || (byte c =? 160)))%N
               then 2
               else match r' with
                    | String e _ =>
                        if (spaceWidth (String e (String d (String c EmptyString))) =? 3)%nat
                        then 3 else 0
                    | EmptyString => 0
                    end
           | EmptyString => 0
           end
  end%nat.

Fixpoint trim_go (width : string -> nat) (skip : nat) (s : string) : string :=
  match s with
  | EmptyString => EmptyString
  | String _ r =>
      match skip with
      | S k => trim_go width k r
      | O => match width s with
             | O => s
             | S k => trim_go width k r
             end
      end
  end.

Definition TrimLeftSpace (s : string) : string := trim_go spaceWidth O s.
Definition TrimRightSpace (s : string) : string :=
  String.rev (trim_go spaceWidthRev O (String.rev s)).
Definition TrimSpace (s : string) : string := TrimRightSpace (TrimLeftSpace s).

(** [strings.Fields]: the maximal runs of bytes between white-space runes. *)
Definition flush (cur : option string) : list string :=
  match cur with
  | Some w => [String.rev w]
  | None => []
  end.

Fixpoint Fields_go (skip : nat) (cur : option string) (s : string)
  : list string :=
  match s with
  | EmptyString => flush cur
  | String c r =>
      match skip with
      | S k => Fields_go k cur r
      | O => match spaceWidth s with
             | O => Fields_go O (Some (String c (default EmptyString cur))) r
             | S k => flush cur ++ Fields_go k None r
             end
      end
  end.
Definition Fields (s : string) : list string := Fields_go O None s.

(** [strings.Trim s cutset] for a cutset of ASCII bytes. *)
Fixpoint inCutset (cutset : string) (c : ascii) : bool :=
  match cutset with
  | EmptyString => false
  | String d r => if decide (c = d) then true else inCutset r c
  end.
Fixpoint trimLeftSet (cutset s : string) : string :=
  match s with
  | EmptyString => EmptyString
  | String c r => if inCutset cutset c then trimLeftSet cutset r else s
  end.
Definition Trim (s cutset : string) : string :=
  String.rev (trimLeftSet cutset (String.rev (trimLeftSet cutset s))).

(** [strings.ToLower].  A text of ASCII bytes is lower-cased byte by byte.
    A text that holds a byte from 128 up goes through
    [strings.Map(unicode.ToLower, s)] instead: it is decoded as UTF-8 and
    every rune is mapped through the case tables of the [unicode] package
    (the Kelvin sign U+212A becomes [k], and a byte that is not UTF-8 becomes
    U+FFFD).  Those tables are not part of the program: what [strings.Map]
    returns for such a text is a parameter, [MapToLower], and whatever is
    proved of the program holds for every such mapping. *)
Class Unicode := { MapToLower : string -> string }.

Definition lowerByte (c : ascii) : ascii :=
  if ((65 <=? byte c) && (byte c <=? 90))%N then ascii_of_N (byte c + 32) else c.

Fixpoint lowerASCII (s : string) : string :=
  match s with
  | EmptyString => EmptyString
  | String c r => String (lowerByte c) (lowerASCII r)
  end.

Fixpoint isASCII (s : string) : bool :=
  match s with
  | EmptyString => true
  | String c r => (byte c <? 128)%N && isASCII r
  end.

Definition ToLower {U : Unicode} (s : string) : string :=
  if isASCII s then lowerASCII s else MapToLower s.

(** [strconv.Itoa] / the [%d] verb. *)
Definition digit (n : nat) : ascii := ascii_of_nat (48 + n).
Fixpoint itoa_go (fuel n : nat) (acc : string) : string :=
  match fuel with
  | O => acc
  | S f =>
      let acc' := String (digit (n mod 10)) acc in
      if (n / 10 =? 0)%nat then acc' else itoa_go f (n / 10)%nat acc'
  end.
Definition Itoa (z : Z) : string :=
  if z <? 0
  then String "-" (itoa_go (S (Z.to_nat (- z))) (Z.to_nat (- z)) EmptyString)
  else itoa_go (S (Z.to_nat z)) (Z.to_nat z) EmptyString.

Definition newline : string := String "010" EmptyString.

End GoStrings.

Import GoStrings.

(** [strings.Join], used to speak about a text through its lines. *)
Fixpoint Join (elems : list string) (sep : string) : string :=
  match elems with
  | [] => EmptyString
  | [e] => e
  | e :: rest => e +:+ sep +:+ Join rest sep
  end.

(** ** Repository snapshot loader: counting staged and unstaged entries

    [parseGitStatusOutput] is the same in both files ([main.go] also appends
    trace lines to a log file, which returns nothing to the caller). *)

Definition space : ascii := " "%char.
Definition question : ascii := "?"%char.

(** One iteration of the [for _, line := range lines] loop. *)
Definition countStatusLine (acc : Z * Z) (line : string) : Z * Z :=
  let '(stagedFiles, unstagedFiles) := acc in
  if decide (TrimSpace line = "") then acc
  else if 2 <=? len line then
    match line with
    | String stagedStatus (String unstagedStatus _) =>
        let stagedFiles :=
          if bool_decide (stagedStatus <> space) && bool_decide (stagedStatus <> question)
          then stagedFiles + 1 else stagedFiles in
        let unstagedFiles :=
          if bool_decide (unstagedStatus <> space)
          then unstagedFiles + 1 else unstagedFiles in
        (stagedFiles, unstagedFiles)
    | _ => acc
    end
  else acc.

Definition parseGitStatusOutput (statusText : string) : Z * Z * bool :=
  if decide (statusText = "") then (0, 0, true)
  else
    let lines := Split statusText newline in
    let '(stagedFiles, unstagedFiles) := fold_left countStatusLine lines (0, 0) in
    (stagedFiles, unstagedFiles, false).

Definition stagedOf (r : Z * Z * bool) : Z := r.1.1.
Definition unstagedOf (r : Z * Z * bool) : Z := r.1.2.

Definition statusExample : string :=
  "M  a.go" +:+ newline +:+ "?? b.go" +:+ newline +:+ " D c.go" +:+ newline.


(** ** [path/filepath] on slash-separated paths *)

Module Filepath.

Definition slash : ascii := "/"%char.
Definition dot : ascii := "."%char.

Fixpoint dropSlashes (s : string) : string :=
  match s with
  | String c r => if decide (c = slash) then dropSlashes r else s
  | EmptyString => EmptyString
  end.

Fixpoint untilSlash (s : string) : string :=
  match s with
  | String c r => if decide (c = slash) then EmptyString else String c (untilSlash r)
  | EmptyString => EmptyString
  end.

(** [filepath.Base]: the last element, trailing slashes removed; ["."] for
    the empty path and ["/"] for a path of slashes only. *)
Definition Base (path : string) : string :=
  if decide (path = "") then "."
  else
    let last := String.rev (untilSlash (dropSlashes (String.rev path))) in
    if decide (last = "") then "/" else last.

(** [filepath.Ext]: from the last dot of the last element on. *)
Fixpoint ext_go (acc : string) (s : string) : string :=
  match s with
  | EmptyString => EmptyString
  | String c r =>
      if decide (c = slash) then EmptyString
      else if decide (c = dot) then String c acc
      else ext_go (String c acc) r
  end.
Definition Ext (path : string) : string := ext_go EmptyString (String.rev path).

(** [filepath.Join]: the non-empty elements, slash-separated.  Go also cleans
    the result (doubled slashes, dots); that step is left out. *)
Definition Join (elems : list string) : string :=
  let parts := filter (fun e => e <> EmptyString) elems in
  match parts with
  | [] => EmptyString
  | e :: rest => fold_left (fun acc x => acc +:+ "/" +:+ x) rest e
  end.

End Filepath.

(** ** Diff analyzer ([main_new.go]) *)

Record DiffInfo := mkDiffInfo {
  LinesAdded : Z;
  LinesRemoved : Z;
  Functions : list string;
  Imports : list string;
  HasTests : bool;
  HasDocs : bool;
  Variables : list string;
  Keywords : list string;
  Comments : list string;
  Context : string
}.

Definition emptyDiffInfo : DiffInfo :=
  mkDiffInfo 0 0 [] [] false false [] [] [] "".

Definition contains (slice : list string) (item : string) : bool :=
  existsb (fun s => bool_decide (s = item)) slice.

(** [abs] of the program; [-x] is a Go [int]. *)
Definition abs (x : Z) : Z := if x <? 0 then wrap (- x) else x.

(** A Go [map[string]int].  [for k, v := range m] visits the entries in an
    order the language leaves open and that may change from one loop to the
    next; a [MapOrder] is the order one such loop takes, and it is [fair] when
    it visits every entry exactly once. *)
Definition MapOrder : Type := list (string * Z) -> list (string * Z).

Definition fair (ord : MapOrder) : Prop := forall l, ord l ≡ₚ l.

Definition rangeMap (ord : MapOrder) (m : gmap string Z) : list (string * Z) :=
  ord (map_to_list m).

(** [m[k]++] *)
Definition incr (k : string) (m : gmap string Z) : gmap string Z :=
  <[k := default 0 (m !! k) + 1]> m.

(** The loop that both the diff analyzer and the aggregator run over a
    counter map: keep the first entry seen whose count beats the running
    maximum. *)
Definition pickMax (acc : string * Z) (entry : string * Z) : string * Z :=
  if acc.2 <? entry.2 then entry else acc.

Definition maxEntry (ord : MapOrder) (m : gmap string Z) : string * Z :=
  fold_left pickMax (rangeMap ord m) ("", 0).

(** The first line of every extractor: drop the blanks and the leading [+]. *)
Definition stripAdded (line : string) : string :=
  let trimmed := TrimSpace line in
  if HasPrefix trimmed "+" then TrimSpace (sliceFrom trimmed 1) else trimmed.

Definition cutAt (name sep : string) : string :=
  let idx := Index name sep in
  if decide (idx <> -1) then sliceTo name idx else name.

Definition orElse {A : Type} (first : option A) (next : A) : A :=
  match first with
  | Some a => a
  | None => next
  end.

Definition extractFunctionName (line : string) : string :=
  let trimmed := stripAdded line in
  (* Go *)
  orElse
    (if Contains trimmed "func " then
       let idx := Index trimmed "func " in
       let remaining := sliceFrom trimmed (idx + 5) in
       let remaining :=
         if HasPrefix remaining "(" then
           let parenEnd := Index remaining ")" in
           if 0 <? parenEnd then TrimSpace (sliceFrom remaining (parenEnd + 1))
           else remaining
         else remaining in
       match Fields remaining with
       | name :: _ => Some (cutAt name "(")
       | [] => None
       end
     else None)
  (* JavaScript / TypeScript *)
  (orElse
    (if Contains trimmed "function " then
       let idx := Index trimmed "function " in
       match Fields (sliceFrom trimmed idx) with
       | _ :: name :: _ => Some (cutAt name "(")
       | _ => None
       end
     else None)
  (* arrow functions *)
  (orElse
    (if Contains trimmed " => " || Contains trimmed "=>" then
       if Contains trimmed "const " then
         let idx := Index trimmed "const " in
         let remaining := sliceFrom trimmed (idx + 6) in
         match Fields remaining with
         | name :: _ =>
             let name :=
               if Contains name "=" then hd EmptyString (Split name "=") else name in
             Some (TrimSpace name)
         | [] => None
         end
       else None
     else None)
  (* Python *)
  (orElse
    (if Contains trimmed "def " then
       let idx := Index trimmed "def " in
       match Fields (sliceFrom trimmed idx) with
       | _ :: name :: _ => Some (cutAt name "(")
       | _ => None
       end
     else None)
  (* classes *)
  (orElse
    (if Contains trimmed "class " then
       let idx := Index trimmed "class " in
       match Fields (sliceFrom trimmed idx) with
       | _ :: name :: _ => Some (cutAt (cutAt (cutAt name ":") "(") "{")
       | _ => None
       end
     else None)
    EmptyString)))).

(** *** The five regular expressions of [extractVariableName]

    [regexp] classes: [\s] is tab, newline, form feed, carriage return and
    blank; [\w] is [0-9A-Za-z_].  [FindStringSubmatch] returns the leftmost
    match; since a [\w] run is always followed by a byte outside [\w], the
    greedy match of [(\w+)] at a position is the whole run from there. *)
Module Regexp.

Definition isSpace (c : ascii) : bool :=
  match byte c with
  | 9 | 10 | 12 | 13 | 32 => true
  | _ => false
  end%N.

Definition isWord (c : ascii) : bool :=
  let b := byte c in
  ((48 <=? b) && (b <=? 57) || (65 <=? b) && (b <=? 90) ||
   (97 <=? b) && (b <=? 122) || (b =? 95))%N.

Fixpoint span (p : ascii -> bool) (s : string) : string * string :=
  match s with
  | String c r =>
      if p c then let '(a, b) := span p r in (String c a, b)
      else (EmptyString, s)
  | EmptyString => (EmptyString, EmptyString)
  end.

(** [kw\s+(\w+)]: the captured group of the leftmost match. *)
Fixpoint afterKeyword (kw : string) (s : string) : option string :=
  let here :=
    if HasPrefix s kw then
      let '(blanks, rest) := span isSpace (drop (String.length kw) s) in
      let '(word, _) := span isWord rest in
      if bool_decide (blanks <> "") && bool_decide (word <> "")
      then Some word else None
    else None in
  match here, s with
  | Some w, _ => Some w
  | None, String _ r => afterKeyword kw r
  | None, EmptyString => None
  end.

(** [(\w+)\s*op]: the captured group of the leftmost match. *)
Fixpoint beforeOperator (op : string) (s : string) : option string :=
  let here :=
    let '(word, rest) := span isWord s in
    let '(_, rest) := span isSpace rest in
    if bool_decide (word <> "") && HasPrefix rest op then Some word else None in
  match here, s with
  | Some w, _ => Some w
  | None, String _ r => beforeOperator op r
  | None, EmptyString => None
  end.

End Regexp.

Definition variablePatterns : list (string -> option string) :=
  [ Regexp.afterKeyword "var";
    Regexp.afterKeyword "const";
    Regexp.afterKeyword "let";
    Regexp.beforeOperator ":=";
    Regexp.beforeOperator "=" ].

Definition acceptableVariable (varName : string) : bool :=
  (2 <? len varName) && bool_decide (varName <> "err") &&
  bool_decide (varName <> "nil") && bool_decide (varName <> "true") &&
  bool_decide (varName <> "false").

Fixpoint firstVariable (patterns : list (string -> option string)) (trimmed : string)
  : string :=
  match patterns with
  | [] => EmptyString
  | pattern :: rest =>
      match pattern trimmed with
      | Some varName =>
          if acceptableVariable varName then varName else firstVariable rest trimmed
      | None => firstVariable rest trimmed
      end
  end.

Definition extractVariableName (line : string) : string :=
  firstVariable variablePatterns (stripAdded line).

Definition extractComment (line : string) : string :=
  let trimmed := stripAdded line in
  orElse
    (if Contains trimmed "//" then
       let idx := Index trimmed "//" in
       let comment := TrimSpace (sliceFrom trimmed (idx + 2)) in
       if 5 <? len comment then Some comment else None
     else None)
  (orElse
    (if HasPrefix trimmed "#" && negb (HasPrefix trimmed "#include") then
       let comment := TrimSpace (sliceFrom trimmed 1) in
       if 5 <? len comment then Some comment else None
     else None)
    EmptyString).

Definition isImportLine (line : string) : bool :=
  let trimmed := TrimSpace (sliceFrom line 1) in
  HasPrefix trimmed "import " ||
  HasPrefix trimmed "from " ||
  HasPrefix trimmed "#include" ||
  HasPrefix trimmed "require(" ||
  HasPrefix trimmed "const " && Contains trimmed "require(" ||
  HasPrefix trimmed "use ".

Definition lastPathElement (p : string) : string :=
  if Contains p "/" then List.last (Split p "/") EmptyString else p.

Definition quote : string := String "034"%char EmptyString.

Definition extractImportName (line : string) : string :=
  let trimmed := TrimSpace (sliceFrom line 1) in
  orElse
    (if HasPrefix trimmed "import " then
       let parts := Fields trimmed in
       if 2 <=? Z.of_nat (length parts)
       then Some (lastPathElement (Trim (List.last parts EmptyString) quote))
       else None
     else None)
  (orElse
    (if HasPrefix trimmed "from " then
       match Fields trimmed with
       | _ :: name :: _ => Some name
       | _ => None
       end
     else None)
  (orElse
    (if Contains trimmed "require(" then
       let start := Index trimmed "require(" + 8 in
       let e := Index (sliceFrom trimmed start) ")" in
       if 0 <? e then
         Some (lastPathElement (Trim (slice trimmed start (start + e)) (quote +:+ "'")))
       else None
     else None)
    EmptyString)).

(** The five vocabularies, in the order [parseDiffOutput] declares them,
    each with the counter it feeds. *)
Definition bugKeywords : list string :=
  ["bug"; "fix"; "error"; "crash"; "issue"; "problem"].
Definition validationKeywords : list string :=
  ["validate"; "validation"; "check"; "verify"; "sanitize"].
Definition apiKeywords : list string :=
  ["endpoint"; "route"; "handler"; "api"; "request"; "response"].
Definition securityKeywords : list string :=
  ["auth"; "security"; "permission"; "token"; "encrypt"].
Definition performanceKeywords : list string :=
  ["optimize"; "performance"; "cache"; "speed"; "efficient"].

Definition vocabularies : list (string * list string) :=
  [ ("fix", bugKeywords);
    ("validation", validationKeywords);
    ("api", apiKeywords);
    ("security", securityKeywords);
    ("performance", performanceKeywords) ].

Definition topics : list string := vocabularies.*1.

Definition setFunctions (fs : list string) (i : DiffInfo) : DiffInfo :=
  mkDiffInfo (LinesAdded i) (LinesRemoved i) fs (Imports i) (HasTests i)
    (HasDocs i) (Variables i) (Keywords i) (Comments i) (Context i).
Definition setVariables (vs : list string) (i : DiffInfo) : DiffInfo :=
  mkDiffInfo (LinesAdded i) (LinesRemoved i) (Functions i) (Imports i) (HasTests i)
    (HasDocs i) vs (Keywords i) (Comments i) (Context i).
Definition setImports (imps : list string) (i : DiffInfo) : DiffInfo :=
  mkDiffInfo (LinesAdded i) (LinesRemoved i) (Functions i) imps (HasTests i)
    (HasDocs i) (Variables i) (Keywords i) (Comments i) (Context i).
Definition setComments (cs : list string) (i : DiffInfo) : DiffInfo :=
  mkDiffInfo (LinesAdded i) (LinesRemoved i) (Functions i) (Imports i) (HasTests i)
    (HasDocs i) (Variables i) (Keywords i) cs (Context i).
Definition setKeywords (ks : list string) (i : DiffInfo) : DiffInfo :=
  mkDiffInfo (LinesAdded i) (LinesRemoved i) (Functions i) (Imports i) (HasTests i)
    (HasDocs i) (Variables i) ks (Comments i) (Context i).
Definition setLinesAdded (n : Z) (i : DiffInfo) : DiffInfo :=
  mkDiffInfo n (LinesRemoved i) (Functions i) (Imports i) (HasTests i)
    (HasDocs i) (Variables i) (Keywords i) (Comments i) (Context i).
Definition setLinesRemoved (n : Z) (i : DiffInfo) : DiffInfo :=
  mkDiffInfo (LinesAdded i) n (Functions i) (Imports i) (HasTests i)
    (HasDocs i) (Variables i) (Keywords i) (Comments i) (Context i).
Definition setHasTests (b : bool) (i : DiffInfo) : DiffInfo :=
  mkDiffInfo (LinesAdded i) (LinesRemoved i) (Functions i) (Imports i) b
    (HasDocs i) (Variables i) (Keywords i) (Comments i) (Context i).
Definition setHasDocs (b : bool) (i : DiffInfo) : DiffInfo :=
  mkDiffInfo (LinesAdded i) (LinesRemoved i) (Functions i) (Imports i) (HasTests i)
    b (Variables i) (Keywords i) (Comments i) (Context i).
Definition setContext (c : string) (i : DiffInfo) : DiffInfo :=
  mkDiffInfo (LinesAdded i) (LinesRemoved i) (Functions i) (Imports i) (HasTests i)
    (HasDocs i) (Variables i) (Keywords i) (Comments i) c.

(** [if x != "" && !contains(xs, x) { xs = append(xs, x) }] *)
Definition appendNew (x : string) (xs : list string) : list string :=
  if bool_decide (x <> "") && negb (contains xs x) then xs ++ [x] else xs.

(** One [for _, keyword := range ...Keywords] loop over an added line. *)
Definition scanKeyword (topic lineLower : string)
    (st : DiffInfo * gmap string Z) (keyword : string) : DiffInfo * gmap string Z :=
  let '(info, contextCounts) := st in
  if Contains lineLower keyword then
    let info :=
      if negb (contains (Keywords info) keyword)
      then setKeywords (Keywords info ++ [keyword]) info else info in
    (info, incr topic contextCounts)
  else st.

Definition scanVocabulary (lineLower : string)
    (st : DiffInfo * gmap string Z) (voc : string * list string)
  : DiffInfo * gmap string Z :=
  fold_left (scanKeyword voc.1 lineLower) voc.2 st.

(** The body of the loop over the lines of the diff. *)
Definition analyzeLine {U : Unicode} (st : DiffInfo * gmap string Z) (line : string)
  : DiffInfo * gmap string Z :=
  let '(info, contextCounts) := st in
  let lineLower := ToLower line in
  if HasPrefix line "+" && negb (HasPrefix line "+++") then
    let info := setLinesAdded (LinesAdded info + 1) info in
    let info := setFunctions (appendNew (extractFunctionName line) (Functions info)) info in
    let info := setVariables (appendNew (extractVariableName line) (Variables info)) info in
    let info :=
      if isImportLine line
      then setImports (appendNew (extractImportName line) (Imports info)) info
      else info in
    let comment := extractComment line in
    let info :=
      if bool_decide (comment <> "")
      then setComments (Comments info ++ [comment]) info else info in
    let '(info, contextCounts) :=
      fold_left (scanVocabulary lineLower) vocabularies (info, contextCounts) in
    let info := if Contains lineLower "test" then setHasTests true info else info in
    let info :=
      if Contains line "//" || Contains line "/*" || Contains line "/**" || Contains line "#"
      then setHasDocs true info else info in
    (info, contextCounts)
  else if HasPrefix line "-" && negb (HasPrefix line "---") then
    (setLinesRemoved (LinesRemoved info + 1) info, contextCounts)
  else st.

Definition contextCountsOf {U : Unicode} (diff : string) : gmap string Z :=
  (fold_left analyzeLine (Split diff newline) (emptyDiffInfo, ∅)).2.

Definition parseDiffOutput {U : Unicode} (ord : MapOrder) (diff : string) : DiffInfo :=
  let lines := Split diff newline in
  let '(info, contextCounts) := fold_left analyzeLine lines (emptyDiffInfo, ∅) in
  let '(maxContext, _) := maxEntry ord contextCounts in
  setContext maxContext info.

(** ** Commit classifier (the same text in both files) *)

Record GitChange := mkGitChange {
  File : string;
  Status : string;
  ChangeType : string;   (* Go field [Type] *)
  Scope : string
}.

Definition containsBugFixKeywords (diff : DiffInfo) : bool :=
  (0 <? LinesRemoved diff) && (LinesAdded diff <? LinesRemoved diff).

Definition nonEmpty {A : Type} (l : list A) : bool := 0 <? Z.of_nat (length l).

Definition determineAdvancedCommitType (file status : string) (diff : DiffInfo)
  : string :=
  let fileName := Filepath.Base file in
  (* new files *)
  if Contains status "A" then
    if Contains file "test" || HasSuffix file "_test.go" then "test"
    else if HasSuffix file ".md" || Contains file "README" then "docs"
    else if nonEmpty (Functions diff) then "feat"
    else "feat"
  (* deleted files *)
  else if Contains status "D" then "chore"
  (* modified files *)
  else if Contains status "M" then
    if HasSuffix file ".md" || Contains file "README" || Contains file "doc" then "docs"
    else if Contains file "test" || HasSuffix file "_test.go" || HasSuffix file ".test.js"
    then "test"
    else if Contains file "config" || HasSuffix file ".json" ||
            HasSuffix file ".yaml" || HasSuffix file ".yml" ||
            HasSuffix file ".toml" || bool_decide (fileName = "Dockerfile") ||
            bool_decide (fileName = "Makefile") || HasSuffix file ".env"
    then "chore"
    else if bool_decide (fileName = "package.json") || bool_decide (fileName = "go.mod") ||
            bool_decide (fileName = "requirements.txt") ||
            bool_decide (fileName = "Cargo.toml") || bool_decide (fileName = "pom.xml")
    then (if nonEmpty (Imports diff) then "feat" else "chore")
    else if containsBugFixKeywords diff then "fix"
    else if nonEmpty (Functions diff) || (wrap (LinesRemoved diff * 2) <? LinesAdded diff)
    then "feat"
    else if (0 <? LinesAdded diff) && (0 <? LinesRemoved diff) &&
            (abs (wrap (LinesAdded diff - LinesRemoved diff)) <? 10)
    then "refactor"
    else if wrap (LinesAdded diff + LinesRemoved diff) <? 10 then "fix"
    else "feat"
  else "chore".

(** ** Message composer ([main_new.go]) *)

Definition first (l : list string) : string := hd EmptyString l.

Definition countOf (l : list string) : string := Itoa (Z.of_nat (length l)).

Definition generateSmartCommitMessage {U : Unicode} (file status : string)
    (diff : DiffInfo) (commitType : string) : string :=
  let fileName := Filepath.Base file in
  let fileExt := Filepath.Ext file in
  let baseName := TrimSuffix fileName fileExt in
  let descriptive :=
    match Comments diff with
    | firstComment :: _ =>
        let lowerComment := ToLower firstComment in
        (10 <? len firstComment) && (len firstComment <? 60) &&
        (Contains lowerComment "fix" || Contains lowerComment "add" ||
         Contains lowerComment "update" || Contains lowerComment "remove")
    | [] => false
    end in
  if descriptive then first (Comments diff)
  else
    let contextPrefix :=
      if bool_decide (Context diff = "fix") then "fix"
      else if bool_decide (Context diff = "validation") then "add validation for"
      else if bool_decide (Context diff = "api") then "add API endpoint for"
      else if bool_decide (Context diff = "security") then "improve security in"
      else if bool_decide (Context diff = "performance") then "optimize"
      else "" in
    let commitType := if bool_decide (Context diff = "fix") then "fix" else commitType in
    if bool_decide (status = "A ") || bool_decide (status = " A") then
      if bool_decide (contextPrefix <> "") && nonEmpty (Functions diff) then
        contextPrefix +:+ " " +:+ first (Functions diff)
      else if nonEmpty (Functions diff) then
        if bool_decide (length (Functions diff) = 1%nat) then
          if nonEmpty (Variables diff) && contains (Keywords diff) "error"
          then "add " +:+ first (Functions diff) +:+ " with error handling"
          else "add " +:+ first (Functions diff)
        else "add " +:+ baseName +:+ " with " +:+ countOf (Functions diff) +:+ " functions"
      else if nonEmpty (Imports diff) then "add " +:+ baseName +:+ " with dependencies"
      else if HasSuffix fileName "_test.go" || Contains fileName "test"
      then "add tests for " +:+ TrimSuffix baseName "_test"
      else if HasSuffix fileName ".md" then
        if bool_decide (fileName = "README.md") then "add README documentation"
        else "add " +:+ baseName +:+ " documentation"
      else if bool_decide (commitType = "chore") then "add " +:+ baseName +:+ " config"
      else "add " +:+ fileName
    else if bool_decide (status = "D ") || bool_decide (status = " D") then
      "remove " +:+ fileName
    else if bool_decide (status = "M ") || bool_decide (status = " M") ||
            bool_decide (status = "MM") then
      if bool_decide (contextPrefix <> "") then
        if nonEmpty (Functions diff)
        then contextPrefix +:+ " " +:+ first (Functions diff)
        else contextPrefix +:+ " " +:+ baseName
      else if contains (Keywords diff) "error" || contains (Keywords diff) "bug" then
        if nonEmpty (Functions diff)
        then "fix error handling in " +:+ first (Functions diff)
        else "fix error handling in " +:+ baseName
      else if contains (Keywords diff) "validate" || contains (Keywords diff) "check" then
        if nonEmpty (Functions diff)
        then "add validation to " +:+ first (Functions diff)
        else "add input validation to " +:+ baseName
      else if bool_decide (commitType = "docs") then
        if bool_decide (fileName = "README.md") then "update README"
        else "update " +:+ baseName +:+ " docs"
      else if bool_decide (commitType = "test") then
        "update " +:+ TrimSuffix baseName "_test" +:+ " tests"
      else if bool_decide (commitType = "chore") then
        if bool_decide (fileName = "package.json") || bool_decide (fileName = "go.mod") then
          if nonEmpty (Imports diff) then "update dependencies" else "update package config"
        else "update " +:+ baseName +:+ " config"
      else
        let byFunctions : option string :=
          if nonEmpty (Functions diff) then
            if bool_decide (length (Functions diff) = 1%nat) then
              let funcName := first (Functions diff) in
              if contains (Keywords diff) "auth" || contains (Keywords diff) "security"
              then Some ("improve security in " +:+ funcName)
              else if contains (Keywords diff) "optimize" ||
                      contains (Keywords diff) "performance"
              then Some ("optimize " +:+ funcName)
              else if bool_decide (commitType = "fix") then Some ("fix " +:+ funcName)
              else if bool_decide (commitType = "refactor")
              then Some ("refactor " +:+ funcName)
              else Some ("update " +:+ funcName)
            else if Z.of_nat (length (Functions diff)) <=? 3 then
              if bool_decide (commitType = "refactor")
              then Some ("refactor " +:+ countOf (Functions diff) +:+ " functions in " +:+ baseName)
              else Some ("update " +:+ countOf (Functions diff) +:+ " functions in " +:+ baseName)
            else None
          else None in
        orElse byFunctions
          (if nonEmpty (Imports diff) then
             if bool_decide (commitType = "feat") then "add dependencies to " +:+ baseName
             else "update imports in " +:+ baseName
           else
             let bySize : option string :=
               if wrap (LinesRemoved diff * 3) <? LinesAdded diff then
                 if bool_decide (commitType = "feat")
                 then Some ("extend " +:+ baseName +:+ " functionality") else None
               else if wrap (LinesAdded diff * 2) <? LinesRemoved diff then
                 if bool_decide (commitType = "refactor")
                 then Some ("simplify " +:+ baseName)
                 else Some ("clean up " +:+ baseName)
               else None in
             orElse bySize
               (if bool_decide (commitType = "fix") then "fix issues in " +:+ baseName
                else if bool_decide (commitType = "refactor") then "refactor " +:+ baseName
                else if bool_decide (commitType = "feat") then "enhance " +:+ baseName
                else "update " +:+ baseName))
    else "modify " +:+ fileName.

(** ** Scope (the same text in both files) *)

Definition oneOf (s : string) (options : list string) : bool :=
  existsb (fun o => bool_decide (s = o)) options.

Definition determineScope (file : string) : string :=
  let parts := Split file "/" in
  if 1 <? Z.of_nat (length parts) then
    let firstDir := first parts in
    if oneOf firstDir ["src"; "lib"] then
      if 2 <? Z.of_nat (length parts) then nth 1 parts EmptyString else "core"
    else if oneOf firstDir ["tests"; "test"] then "test"
    else if oneOf firstDir ["docs"; "documentation"] then "docs"
    else if oneOf firstDir ["config"; "configs"] then "config"
    else if oneOf firstDir ["api"] then "api"
    else if oneOf firstDir ["ui"; "frontend"; "client"] then "ui"
    else if oneOf firstDir ["backend"; "server"] then "api"
    else if oneOf firstDir ["scripts"; "tools"] then "tools"
    else firstDir
  else
    let fileName := Filepath.Base file in
    if Contains fileName "test" then "test"
    else if HasSuffix fileName ".md" then "docs"
    else if Contains fileName "config" then "config"
    else "".

Definition formatConventionalCommit (commitType scope description : string) : string :=
  if bool_decide (scope <> "")
  then commitType +:+ "(" +:+ scope +:+ "): " +:+ description
  else commitType +:+ ": " +:+ description.

Record FileAnalysis := mkFileAnalysis {
  AnalysisType : string;      (* Go field [Type] *)
  AnalysisMessage : string;   (* Go field [Message] *)
  AnalysisScope : string      (* Go field [Scope] *)
}.

Definition analyzeFileChange {U : Unicode} (change : GitChange) (diff : DiffInfo)
  : FileAnalysis :=
  let file := File change in
  let status := Status change in
  let scope := determineScope file in
  let commitType := determineAdvancedCommitType file status diff in
  let rawMessage := generateSmartCommitMessage file status diff commitType in
  let message := formatConventionalCommit commitType scope rawMessage in
  mkFileAnalysis commitType message scope.

(** ** The outside world

    Everything the program asks of its environment goes through four
    primitives: [os.Stat] on a path, [time.Sleep], running [git] in a
    directory, and [os.ReadFile].  The environment answers the k-th [os.Stat]
    and the k-th process by position, so that any run, with other processes
    taking and dropping the index lock meanwhile, is one [World]; what was
    asked is appended to [events]. *)

Inductive Event :=
| EvStat (path : string) (found : bool)
| EvSleep (ms : Z)
| EvRun (dir : string) (argv : list string) (output : string) (failure : option string)
| EvReadFile (path : string).

Record World := mkWorld {
  statAnswer : nat -> string -> bool;
  runAnswer : nat -> string -> list string -> string * option string;
  fileContent : string -> option string;
  events : list Event
}.

Definition isStat (e : Event) : bool :=
  match e with EvStat _ _ => true | _ => false end.
Definition isRun (e : Event) : bool :=
  match e with EvRun _ _ _ _ => true | _ => false end.
Definition isSleep (e : Event) : bool :=
  match e with EvSleep _ => true | _ => false end.

Definition statsSoFar (w : World) : nat := length (List.filter isStat (events w)).
Definition runsSoFar (w : World) : nat := length (List.filter isRun (events w)).

Definition record (e : Event) (w : World) : World :=
  mkWorld (statAnswer w) (runAnswer w) (fileContent w) (events w ++ [e]).

Definition IO (A : Type) : Type := World -> A * World.

Definition ret {A : Type} (a : A) : IO A := fun w => (a, w).

Definition bind {A B : Type} (k : A -> IO B) (c : IO A) : IO B :=
  fun w => let '(a, w') := c w in k a w'.

Global Instance IO_ret : MRet IO := @ret.
Global Instance IO_bind : MBind IO := @bind.

(** [_, err := os.Stat(path); err == nil] *)
Definition osStat (path : string) : IO bool :=
  fun w =>
    let found := statAnswer w (statsSoFar w) path in
    (found, record (EvStat path found) w).

Definition sleep (ms : Z) : IO unit :=
  fun w => (tt, record (EvSleep ms) w).

(** [exec.Command("git", argv...)] run in [dir]: its output and, when it
    failed, the text of the error. *)
Definition runGit (dir : string) (argv : list string) : IO (string * option string) :=
  fun w =>
    let '(output, failure) := runAnswer w (runsSoFar w) dir argv in
    ((output, failure), record (EvRun dir argv output failure) w).

Definition readFile (path : string) : IO (option string) :=
  fun w => (fileContent w path, record (EvReadFile path) w).

(** ** Command runner (the same text in both files)

    A Go [error] is either what [os/exec] returned or a value the program
    built itself with [fmt.Errorf]. *)

Inductive error :=
| ExecError (msg : string)
| ErrorString (msg : string).

Definition Error (e : error) : string :=
  match e with
  | ExecError msg => msg
  | ErrorString msg => msg
  end.

Definition maxRetries : nat := 3.

Definition lockConflict : error :=
  ErrorString ("git command failed after " +:+ Itoa (Z.of_nat maxRetries) +:+
               " retries: index.lock conflict").

(** The [for attempt := 0; attempt < maxRetries; attempt++] loop, by the
    number of attempts left; [retryDelay] is in milliseconds.  A [nil] output
    is the empty string. *)
Fixpoint attemptGitCommand (attemptsLeft : nat) (retryDelay : Z)
    (repoPath : string) (args : list string) : IO (string * option error) :=
  match attemptsLeft with
  | O => ret (EmptyString, Some lockConflict)
  | S attemptsLeft =>
      let lockFile := Filepath.Join [repoPath; ".git"; "index.lock"] in
      locked ← osStat lockFile;
      if (locked : bool) then
        _ ← sleep retryDelay;
        attemptGitCommand attemptsLeft retryDelay repoPath args
      else
        r ← runGit repoPath args;
        let '(output, err) := r in
        if bool_decide (err <> None) && Contains output "index.lock" then
          _ ← sleep retryDelay;
          attemptGitCommand attemptsLeft (retryDelay * 2) repoPath args
        else ret (output, ExecError <$> err)
  end.

Definition executeGitCommand (repoPath : string) (args : list string)
  : IO (string * option error) :=
  attemptGitCommand maxRetries 100 repoPath args.

(** ** Suggestion aggregator *)

Record CommitSuggestion := mkCommitSuggestion {
  SuggestionMessage : string;   (* Go field [Message] *)
  SuggestionType : string       (* Go field [Type] *)
}.

Definition emptySuggestion : CommitSuggestion := mkCommitSuggestion "" "".

(** [if len(suggestions) > limit { suggestions = suggestions[:limit] }] *)
Definition truncateTo (limit : nat) (suggestions : list CommitSuggestion)
  : list CommitSuggestion :=
  if Z.of_nat limit <? Z.of_nat (length suggestions)
  then firstn limit suggestions else suggestions.

(** The two counting loops of [generateCombinedSuggestion]. *)
Definition countType (typeCounts : gmap string Z) (suggestion : CommitSuggestion)
  : gmap string Z :=
  incr (SuggestionType suggestion) typeCounts.

Definition countScope (scopeCounts : gmap string Z) (suggestion : CommitSuggestion)
  : gmap string Z :=
  let message := SuggestionMessage suggestion in
  if Contains message "(" && Contains message "):" then
    let start := Index message "(" + 1 in
    let e := Index message "):" in
    if start <? e then incr (slice message start e) scopeCounts else scopeCounts
  else scopeCounts.

Definition typeCountsOf (individual : list CommitSuggestion) : gmap string Z :=
  fold_left countType individual ∅.
Definition scopeCountsOf (individual : list CommitSuggestion) : gmap string Z :=
  fold_left countScope individual ∅.

(** The order of the two [range] loops over the counter maps, and of the
    loop inside the analysis of the i-th file. *)
Record Orders := mkOrders {
  contextOrder : nat -> MapOrder;
  typeOrder : MapOrder;
  scopeOrder : MapOrder
}.

Definition fairOrders (o : Orders) : Prop :=
  (forall i, fair (contextOrder o i)) /\ fair (typeOrder o) /\ fair (scopeOrder o).

(** [main_new.go].  The list [functionNames] that the first loop also fills
    is never read and is left out. *)
Definition generateCombinedSuggestion (o : Orders) (individual : list CommitSuggestion)
    (changes : list GitChange) : CommitSuggestion :=
  if bool_decide (length individual = 0%nat) then emptySuggestion
  else
    let typeCounts := typeCountsOf individual in
    let scopeCounts := scopeCountsOf individual in
    let '(mainType, _) := maxEntry (typeOrder o) typeCounts in
    let '(mainScope, maxScopeCount) := maxEntry (scopeOrder o) scopeCounts in
    let totalFiles := Z.of_nat (length individual) in
    let description :=
      if bool_decide (size typeCounts = 1%nat) then
        if bool_decide (mainType = "feat") then
          if bool_decide (totalFiles = 1) then "add new feature"
          else "add new features across " +:+ Itoa totalFiles +:+ " files"
        else if bool_decide (mainType = "fix") then
          if bool_decide (totalFiles = 1) then "fix bug"
          else "fix multiple bugs (" +:+ Itoa totalFiles +:+ " files)"
        else if bool_decide (mainType = "docs") then "update documentation"
        else if bool_decide (mainType = "test") then "update tests"
        else if bool_decide (mainType = "chore") then "update configuration"
        else if bool_decide (mainType = "refactor") then "refactor code"
        else "update files"
      else "update " +:+ Itoa totalFiles +:+ " files with mixed changes" in
    let finalScope :=
      if Z.quot totalFiles 2 <? maxScopeCount then mainScope else "" in
    let message := formatConventionalCommit mainType finalScope description in
    mkCommitSuggestion message mainType.

Definition getFileDiff {U : Unicode} (ord : MapOrder) (filePath repoPath : string)
  : IO DiffInfo :=
  r ← runGit repoPath ["diff"; "--cached"; filePath];
  let '(output, err) := r in
  if bool_decide (err <> None) then
    r' ← runGit repoPath ["diff"; filePath];
    ret (parseDiffOutput ord r'.1)
  else ret (parseDiffOutput ord output).

(** The loop [for _, change := range changes] of [analyzeChangesForCommits];
    [i] is the index of the first change of the list. *)
Fixpoint analyzeEach {U : Unicode} (o : Orders) (i : nat) (changes : list GitChange)
    (repoPath : string) : IO (list CommitSuggestion) :=
  match changes with
  | [] => ret []
  | change :: rest =>
      diffInfo ← getFileDiff (contextOrder o i) (File change) repoPath;
      let analysis := analyzeFileChange change diffInfo in
      let suggestion :=
        mkCommitSuggestion (AnalysisMessage analysis) (AnalysisType analysis) in
      others ← analyzeEach o (S i) rest repoPath;
      ret (suggestion :: others)
  end.

Definition individualCap : nat := 5.
Definition suggestionLimit : nat := 9.

Definition analyzeChangesForCommits {U : Unicode} (o : Orders) (changes : list GitChange)
    (repoPath : string) : IO (list CommitSuggestion) :=
  individualSuggestions ← analyzeEach o O changes repoPath;
  let suggestions : list CommitSuggestion := [] in
  let combinedSuggestion := generateCombinedSuggestion o individualSuggestions changes in
  let suggestions :=
    if bool_decide (SuggestionMessage combinedSuggestion <> "")
    then suggestions ++ [combinedSuggestion] else suggestions in
  let suggestions :=
    if Z.of_nat (length individualSuggestions) <=? Z.of_nat individualCap
    then suggestions ++ individualSuggestions else suggestions in
  ret (truncateTo suggestionLimit suggestions).

(** *** The aggregator of [main.go]

    It differs in the cap (3), in the limit (5) and in the wording of the
    combined message.  Its per-file analysis ([getFileDiff] followed by
    [analyzeFileChange], with the wording of [main.go]) is a parameter: the
    properties proved of the aggregator hold whatever each file's suggestion
    is. *)
Module MainGo.

Definition generateCombinedSuggestion (o : Orders) (individual : list CommitSuggestion)
  : CommitSuggestion :=
  if bool_decide (length individual = 0%nat) then emptySuggestion
  else
    let typeCounts := typeCountsOf individual in
    let scopeCounts := scopeCountsOf individual in
    let '(mainType, _) := maxEntry (typeOrder o) typeCounts in
    let '(mainScope, maxScopeCount) := maxEntry (scopeOrder o) scopeCounts in
    let totalFiles := Z.of_nat (length individual) in
    let description :=
      if bool_decide (size typeCounts = 1%nat) then
        if bool_decide (mainType = "feat") then "add features"
        else if bool_decide (mainType = "fix") then "fix issues"
        else if bool_decide (mainType = "docs") then "update docs"
        else if bool_decide (mainType = "test") then "update tests"
        else if bool_decide (mainType = "chore") then "update config"
        else if bool_decide (mainType = "refactor") then "refactor code"
        else "update files"
      else "update multiple files" in
    let description :=
      if 1 <? totalFiles
      then description +:+ " (" +:+ Itoa totalFiles +:+ " files)" else description in
    let finalScope :=
      if Z.quot totalFiles 2 <? maxScopeCount then mainScope else "" in
    let message := formatConventionalCommit mainType finalScope description in
    mkCommitSuggestion message mainType.

Definition individualCap : nat := 3.
Definition suggestionLimit : nat := 5.

Section Aggregator.

Variable analyse : GitChange -> IO FileAnalysis.

Fixpoint analyzeEach (changes : list GitChange) : IO (list CommitSuggestion) :=
  match changes with
  | [] => ret []
  | change :: rest =>
      analysis ← analyse change;
      let suggestion :=
        mkCommitSuggestion (AnalysisMessage analysis) (AnalysisType analysis) in
      others ← analyzeEach rest;
      ret (suggestion :: others)
  end.

Definition analyzeChangesForCommits (o : Orders) (changes : list GitChange)
  : IO (list CommitSuggestion) :=
  individualSuggestions ← analyzeEach changes;
  let suggestions : list CommitSuggestion := [] in
  let combinedSuggestion := generateCombinedSuggestion o individualSuggestions in
  let suggestions :=
    if bool_decide (SuggestionMessage combinedSuggestion <> "")
    then suggestions ++ [combinedSuggestion] else suggestions in
  let suggestions :=
    if Z.of_nat (length individualSuggestions) <=? Z.of_nat individualCap
    then suggestions ++ individualSuggestions else suggestions in
  ret (truncateTo suggestionLimit suggestions).

End Aggregator.

End MainGo.

(** ** The state machine ([main_new.go])

    Snapshots and messages. *)

Record GitStatus := mkGitStatus {
  StatusBranch : string;      (* Go field [Branch] *)
  Clean : bool;
  StagedFiles : Z;
  UnstagedFiles : Z;
  StatusAhead : Z;            (* Go field [Ahead] *)
  StatusBehind : Z            (* Go field [Behind] *)
}.

Record Branch := mkBranch {
  Name : string;
  IsCurrent : bool;
  Upstream : string;
  Ahead : Z;
  Behind : Z
}.

Record Commit := mkCommit {
  Hash : string;
  Message : string;
  Author : string;
  Date : string
}.

Record Conflict := mkConflict {
  LineStart : Z;
  OursContent : list string;
  TheirsContent : list string
}.

Record ConflictFile := mkConflictFile {
  Path : string;
  Conflicts : list Conflict;
  IsResolved : bool
}.

Record BranchComparison := mkBranchComparison {
  SourceBranch : string;
  TargetBranch : string;
  AheadCommits : list Commit;
  BehindCommits : list Commit;
  DifferingFiles : list string
}.

Record RebaseCommit := mkRebaseCommit {
  RebaseHash : string;        (* Go field [Hash] *)
  RebaseMessage : string;     (* Go field [Message] *)
  Action : string
}.

(** A [tea.Cmd] is a closure over a copy of the model that runs later and
    returns one message.  It is embedded as the name of the method that built
    it together with what the closure reads of the copy.  [CmdPanic] is no
    command of the program: it marks a step that did not return because an
    index was out of range (see [panic] below). *)
Inductive Cmd :=
| CmdNil
| CmdQuit
| CmdBatch (cmds : list Cmd)
| CmdLoadGitChanges (repo : string)
| CmdLoadGitStatus (repo : string)
| CmdLoadBranches (repo : string)
| CmdLoadHistory (repo : string)
| CmdLoadRecentCommits (repo : string)
| CmdLoadConflicts (repo : string)
| CmdLoadBranchComparison (repo targetBranch : string)
| CmdLoadRebaseCommits (repo : string) (count : Z)
| CmdLoadReflog (repo : string)
| CmdGenerateCommitSuggestions (changes : list GitChange) (repo : string)
| CmdToggleStaging (repo filePath : string)
| CmdGitAddAll (repo : string)
| CmdGitReset (repo : string)
| CmdCommitWithMessage (repo message : string)
| CmdSwitchBranch (repo branchName : string)
| CmdCreateBranch (repo branchName : string)
| CmdDeleteBranch (repo branchName : string)
| CmdGitPush (repo : string)
| CmdGitPull (repo : string)
| CmdGitFetch (repo : string)
| CmdViewDiff (repo filePath : string)
| CmdResolveConflict (repo : string) (conflicts : list ConflictFile) (index : Z)
    (resolution : string)
| CmdContinueMerge (repo : string)
| CmdSoftReset (repo : string) (count : Z)
| CmdMixedReset (repo : string) (count : Z)
| CmdHardReset (repo : string) (count : Z)
| CmdExecuteRebase
| CmdRefreshAfterCommit (repo : string)
| CmdRefreshAfterStaging (repo : string)
| CmdWidget (tag : string)
| CmdPanic.

(** A [tea.Msg].  [KeyMsg] carries [msg.String()]; [BatchMsg] is what a
    command returns when it ends in [tea.Batch(...)()]; [OtherMsg] stands for
    the toolkit's own messages (cursor blink and the like). *)
Inductive Msg :=
| WindowSizeMsg (w h : Z)
| KeyMsg (key : string)
| GitChangesMsg (changes : list GitChange)
| CommitSuggestionsMsg (suggestions : list CommitSuggestion)
| GitStatusMsg (status : GitStatus)
| BranchesMsg (branches : list Branch)
| CommitsMsg (commits : list Commit)
| RecentCommitsMsg (commits : list Commit)
| DiffMsg (diff : string)
| ConflictsMsg (conflicts : list ConflictFile)
| ComparisonMsg (comparison : BranchComparison)
| RebaseCommitsMsg (commits : list RebaseCommit)
| StatusMsg (message : string)
| PushOutputMsg (output commit : string)
| BatchMsg (cmds : list Cmd)
| OtherMsg (tag : string).

(** The text input of the toolkit, as far as the program uses it. *)
Record TextInput := mkTextInput {
  Focused : bool;
  Value : string
}.

Definition Blur (i : TextInput) : TextInput := mkTextInput false (Value i).
Definition Focus (i : TextInput) : TextInput := mkTextInput true (Value i).
Definition SetValue (v : string) (i : TextInput) : TextInput := mkTextInput (Focused i) v.
Definition newTextInput : TextInput := mkTextInput false "".

(** The table of the toolkit is kept abstract: the program reads its cursor
    (a Go [int]: nothing in the program says that it is an index into the
    rows, or that it is not negative), hands it rows (only their number is
    kept: their text is rendering), sizes, and the messages it does not
    handle itself.  The same goes for what a text input does with a message.
    The commands a widget returns are the toolkit's own (a blinking cursor);
    they are named by a tag. *)
Class Toolkit := {
  Table : Type;
  NewTable : string -> Table;
  Cursor : Table -> Z;
  SetRows : nat -> Table -> Table;
  SetHeight : Z -> Table -> Table;
  SetColumns : list Z -> Table -> Table;
  TableUpdate : Msg -> Table -> Table * option string;
  InputUpdate : Msg -> TextInput -> TextInput * option string
}.

Definition widgetCmd (tag : option string) : Cmd :=
  match tag with
  | Some t => CmdWidget t
  | None => CmdNil
  end.

Section StateMachine.

Context {toolkit : Toolkit}.

Record model := mkModel {
  tab : string;
  toolMode : string;
  viewMode : string;
  changes : list GitChange;
  suggestions : list CommitSuggestion;
  gitState : GitStatus;
  branches : list Branch;
  commits : list Commit;
  conflicts : list ConflictFile;
  branchComparison : option BranchComparison;
  rebaseCommits : list RebaseCommit;
  diffContent : string;
  pushOutput : string;
  recentCommits : list Commit;
  filesTable : Table;
  branchesTable : Table;
  toolsTable : Table;
  historyTable : Table;
  conflictsTable : Table;
  comparisonTable : Table;
  rebaseTable : Table;
  undoTable : Table;
  commitInput : TextInput;
  branchInput : TextInput;
  rebaseInput : TextInput;
  width : Z;
  height : Z;
  statusMsg : string;
  statusExpiry : Z;
  showDiffPreview : bool;
  selectedSuggestion : Z;
  repoPath : string;
  lastCommit : string;
  lastStatusUpdate : Z;
  confirmAction : string
}.

(** Field assignments, [m.f = v]. *)
Definition set_tab (v : string) (m : model) : model :=
  mkModel v (toolMode m) (viewMode m) (changes m) (suggestions m) (gitState m)
    (branches m) (commits m) (conflicts m) (branchComparison m) (rebaseCommits m)
    (diffContent m) (pushOutput m) (recentCommits m) (filesTable m) (branchesTable m)
    (toolsTable m) (historyTable m) (conflictsTable m) (comparisonTable m)
    (rebaseTable m) (undoTable m) (commitInput m) (branchInput m) (rebaseInput m)
    (width m) (height m) (statusMsg m) (statusExpiry m) (showDiffPreview m)
    (selectedSuggestion m) (repoPath m) (lastCommit m) (lastStatusUpdate m)
    (confirmAction m).
Definition set_toolMode (v : string) (m : model) : model :=
  mkModel (tab m) v (viewMode m) (changes m) (suggestions m) (gitState m) (branches m)
    (commits m) (conflicts m) (branchComparison m) (rebaseCommits m) (diffContent m)
    (pushOutput m) (recentCommits m) (filesTable m) (branchesTable m) (toolsTable m)
    (historyTable m) (conflictsTable m) (comparisonTable m) (rebaseTable m)
    (undoTable m) (commitInput m) (branchInput m) (rebaseInput m) (width m) (height m)
    (statusMsg m) (statusExpiry m) (showDiffPreview m) (selectedSuggestion m)
    (repoPath m) (lastCommit m) (lastStatusUpdate m) (confirmAction m).
Definition set_viewMode (v : string) (m : model) : model :=
  mkModel (tab m) (toolMode m) v (changes m) (suggestions m) (gitState m) (branches m)
    (commits m) (conflicts m) (branchComparison m) (rebaseCommits m) (diffContent m)
    (pushOutput m) (recentCommits m) (filesTable m) (branchesTable m) (toolsTable m)
    (historyTable m) (conflictsTable m) (comparisonTable m) (rebaseTable m)
    (undoTable m) (commitInput m) (branchInput m) (rebaseInput m) (width m) (height m)
    (statusMsg m) (statusExpiry m) (showDiffPreview m) (selectedSuggestion m)
    (repoPath m) (lastCommit m) (lastStatusUpdate m) (confirmAction m).
Definition set_changes (v : list GitChange) (m : model) : model :=
  mkModel (tab m) (toolMode m) (viewMode m) v (suggestions m) (gitState m) (branches m)
    (commits m) (conflicts m) (branchComparison m) (rebaseCommits m) (diffContent m)
    (pushOutput m) (recentCommits m) (filesTable m) (branchesTable m) (toolsTable m)
    (historyTable m) (conflictsTable m) (comparisonTable m) (rebaseTable m)
    (undoTable m) (commitInput m) (branchInput m) (rebaseInput m) (width m) (height m)
    (statusMsg m) (statusExpiry m) (showDiffPreview m) (selectedSuggestion m)
    (repoPath m) (lastCommit m) (lastStatusUpdate m) (confirmAction m).
Definition set_suggestions (v : list CommitSuggestion) (m : model) : model :=
  mkModel (tab m) (toolMode m) (viewMode m) (changes m) v (gitState m) (branches m)
    (commits m) (conflicts m) (branchComparison m) (rebaseCommits m) (diffContent m)
    (pushOutput m) (recentCommits m) (filesTable m) (branchesTable m) (toolsTable m)
    (historyTable m) (conflictsTable m) (comparisonTable m) (rebaseTable m)
    (undoTable m) (commitInput m) (branchInput m) (rebaseInput m) (width m) (height m)
    (statusMsg m) (statusExpiry m) (showDiffPreview m) (selectedSuggestion m)
    (repoPath m) (lastCommit m) (lastStatusUpdate m) (confirmAction m).
Definition set_gitState (v : GitStatus) (m : model) : model :=
  mkModel (tab m) (toolMode m) (viewMode m) (changes m) (suggestions m) v (branches m)
    (commits m) (conflicts m) (branchComparison m) (rebaseCommits m) (diffContent m)
    (pushOutput m) (recentCommits m) (filesTable m) (branchesTable m) (toolsTable m)
    (historyTable m) (conflictsTable m) (comparisonTable m) (rebaseTable m)
    (undoTable m) (commitInput m) (branchInput m) (rebaseInput m) (width m) (height m)
    (statusMsg m) (statusExpiry m) (showDiffPreview m) (selectedSuggestion m)
    (repoPath m) (lastCommit m) (lastStatusUpdate m) (confirmAction m).
Definition set_branches (v : list Branch) (m : model) : model :=
  mkModel (tab m) (toolMode m) (viewMode m) (changes m) (suggestions m) (gitState m) v
    (commits m) (conflicts m) (branchComparison m) (rebaseCommits m) (diffContent m)
    (pushOutput m) (recentCommits m) (filesTable m) (branchesTable m) (toolsTable m)
    (historyTable m) (conflictsTable m) (comparisonTable m) (rebaseTable m)
    (undoTable m) (commitInput m) (branchInput m) (rebaseInput m) (width m) (height m)
    (statusMsg m) (statusExpiry m) (showDiffPreview m) (selectedSuggestion m)
    (repoPath m) (lastCommit m) (lastStatusUpdate m) (confirmAction m).
Definition set_commits (v : list Commit) (m : model) : model :=
  mkModel (tab m) (toolMode m) (viewMode m) (changes m) (suggestions m) (gitState m)
    (branches m) v (conflicts m) (branchComparison m) (rebaseCommits m) (diffContent m)
    (pushOutput m) (recentCommits m) (filesTable m) (branchesTable m) (toolsTable m)
    (historyTable m) (conflictsTable m) (comparisonTable m) (rebaseTable m)
    (undoTable m) (commitInput m) (branchInput m) (rebaseInput m) (width m) (height m)
    (statusMsg m) (statusExpiry m) (showDiffPreview m) (selectedSuggestion m)
    (repoPath m) (lastCommit m) (lastStatusUpdate m) (confirmAction m).
Definition set_conflicts (v : list ConflictFile) (m : model) : model :=
  mkModel (tab m) (toolMode m) (viewMode m) (changes m) (suggestions m) (gitState m)
    (branches m) (commits m) v (branchComparison m) (rebaseCommits m) (diffContent m)
    (pushOutput m) (recentCommits m) (filesTable m) (branchesTable m) (toolsTable m)
    (historyTable m) (conflictsTable m) (comparisonTable m) (rebaseTable m)
    (undoTable m) (commitInput m) (branchInput m) (rebaseInput m) (width m) (height m)
    (statusMsg m) (statusExpiry m) (showDiffPreview m) (selectedSuggestion m)
    (repoPath m) (lastCommit m) (lastStatusUpdate m) (confirmAction m).
Definition set_branchComparison (v : option BranchComparison) (m : model) : model :=
  mkModel (tab m) (toolMode m) (viewMode m) (changes m) (suggestions m) (gitState m)
    (branches m) (commits m) (conflicts m) v (rebaseCommits m) (diffContent m)
    (pushOutput m) (recentCommits m) (filesTable m) (branchesTable m) (toolsTable m)
    (historyTable m) (conflictsTable m) (comparisonTable m) (rebaseTable m)
    (undoTable m) (commitInput m) (branchInput m) (rebaseInput m) (width m) (height m)
    (statusMsg m) (statusExpiry m) (showDiffPreview m) (selectedSuggestion m)
    (repoPath m) (lastCommit m) (lastStatusUpdate m) (confirmAction m).
Definition set_rebaseCommits (v : list RebaseCommit) (m : model) : model :=
  mkModel (tab m) (toolMode m) (viewMode m) (changes m) (suggestions m) (gitState m)
    (branches m) (commits m) (conflicts m) (branchComparison m) v (diffContent m)
    (pushOutput m) (recentCommits m) (filesTable m) (branchesTable m) (toolsTable m)
    (historyTable m) (conflictsTable m) (comparisonTable m) (rebaseTable m)
    (undoTable m) (commitInput m) (branchInput m) (rebaseInput m) (width m) (height m)
    (statusMsg m) (statusExpiry m) (showDiffPreview m) (selectedSuggestion m)
    (repoPath m) (lastCommit m) (lastStatusUpdate m) (confirmAction m).
Definition set_diffContent (v : string) (m : model) : model :=
  mkModel (tab m) (toolMode m) (viewMode m) (changes m) (suggestions m) (gitState m)
    (branches m) (commits m) (conflicts m) (branchComparison m) (rebaseCommits m) v
    (pushOutput m) (recentCommits m) (filesTable m) (branchesTable m) (toolsTable m)
    (historyTable m) (conflictsTable m) (comparisonTable m) (rebaseTable m)
    (undoTable m) (commitInput m) (branchInput m) (rebaseInput m) (width m) (height m)
    (statusMsg m) (statusExpiry m) (showDiffPreview m) (selectedSuggestion m)
    (repoPath m) (lastCommit m) (lastStatusUpdate m) (confirmAction m).
Definition set_pushOutput (v : string) (m : model) : model :=
  mkModel (tab m) (toolMode m) (viewMode m) (changes m) (suggestions m) (gitState m)
    (branches m) (commits m) (conflicts m) (branchComparison m) (rebaseCommits m)
    (diffContent m) v (recentCommits m) (filesTable m) (branchesTable m) (toolsTable m)
    (historyTable m) (conflictsTable m) (comparisonTable m) (rebaseTable m)
    (undoTable m) (commitInput m) (branchInput m) (rebaseInput m) (width m) (height m)
    (statusMsg m) (statusExpiry m) (showDiffPreview m) (selectedSuggestion m)
    (repoPath m) (lastCommit m) (lastStatusUpdate m) (confirmAction m).
Definition set_recentCommits (v : list Commit) (m : model) : model :=
  mkModel (tab m) (toolMode m) (viewMode m) (changes m) (suggestions m) (gitState m)
    (branches m) (commits m) (conflicts m) (branchComparison m) (rebaseCommits m)
    (diffContent m) (pushOutput m) v (filesTable m) (branchesTable m) (toolsTable m)
    (historyTable m) (conflictsTable m) (comparisonTable m) (rebaseTable m)
    (undoTable m) (commitInput m) (branchInput m) (rebaseInput m) (width m) (height m)
    (statusMsg m) (statusExpiry m) (showDiffPreview m) (selectedSuggestion m)
    (repoPath m) (lastCommit m) (lastStatusUpdate m) (confirmAction m).
Definition set_filesTable (v : Table) (m : model) : model :=
  mkModel (tab m) (toolMode m) (viewMode m) (changes m) (suggestions m) (gitState m)
    (branches m) (commits m) (conflicts m) (branchComparison m) (rebaseCommits m)
    (diffContent m) (pushOutput m) (recentCommits m) v (branchesTable m) (toolsTable m)
    (historyTable m) (conflictsTable m) (comparisonTable m) (rebaseTable m)
    (undoTable m) (commitInput m) (branchInput m) (rebaseInput m) (width m) (height m)
    (statusMsg m) (statusExpiry m) (showDiffPreview m) (selectedSuggestion m)
    (repoPath m) (lastCommit m) (lastStatusUpdate m) (confirmAction m).
Definition set_branchesTable (v : Table) (m : model) : model :=
  mkModel (tab m) (toolMode m) (viewMode m) (changes m) (suggestions m) (gitState m)
    (branches m) (commits m) (conflicts m) (branchComparison m) (rebaseCommits m)
    (diffContent m) (pushOutput m) (recentCommits m) (filesTable m) v (toolsTable m)
    (historyTable m) (conflictsTable m) (comparisonTable m) (rebaseTable m)
    (undoTable m) (commitInput m) (branchInput m) (rebaseInput m) (width m) (height m)
    (statusMsg m) (statusExpiry m) (showDiffPreview m) (selectedSuggestion m)
    (repoPath m) (lastCommit m) (lastStatusUpdate m) (confirmAction m).
Definition set_toolsTable (v : Table) (m : model) : model :=
  mkModel (tab m) (toolMode m) (viewMode m) (changes m) (suggestions m) (gitState m)
    (branches m) (commits m) (conflicts m) (branchComparison m) (rebaseCommits m)
    (diffContent m) (pushOutput m) (recentCommits m) (filesTable m) (branchesTable m) v
    (historyTable m) (conflictsTable m) (comparisonTable m) (rebaseTable m)
    (undoTable m) (commitInput m) (branchInput m) (rebaseInput m) (width m) (height m)
    (statusMsg m) (statusExpiry m) (showDiffPreview m) (selectedSuggestion m)
    (repoPath m) (lastCommit m) (lastStatusUpdate m) (confirmAction m).
Definition set_historyTable (v : Table) (m : model) : model :=
  mkModel (tab m) (toolMode m) (viewMode m) (changes m) (suggestions m) (gitState m)
    (branches m) (commits m) (conflicts m) (branchComparison m) (rebaseCommits m)
    (diffContent m) (pushOutput m) (recentCommits m) (filesTable m) (branchesTable m)
    (toolsTable m) v (conflictsTable m) (comparisonTable m) (rebaseTable m)
    (undoTable m) (commitInput m) (branchInput m) (rebaseInput m) (width m) (height m)
    (statusMsg m) (statusExpiry m) (showDiffPreview m) (selectedSuggestion m)
    (repoPath m) (lastCommit m) (lastStatusUpdate m) (confirmAction m).
Definition set_conflictsTable (v : Table) (m : model) : model :=
  mkModel (tab m) (toolMode m) (viewMode m) (changes m) (suggestions m) (gitState m)
    (branches m) (commits m) (conflicts m) (branchComparison m) (rebaseCommits m)
    (diffContent m) (pushOutput m) (recentCommits m) (filesTable m) (branchesTable m)
    (toolsTable m) (historyTable m) v (comparisonTable m) (rebaseTable m) (undoTable m)
    (commitInput m) (branchInput m) (rebaseInput m) (width m) (height m) (statusMsg m)
    (statusExpiry m) (showDiffPreview m) (selectedSuggestion m) (repoPath m)
    (lastCommit m) (lastStatusUpdate m) (confirmAction m).
Definition set_comparisonTable (v : Table) (m : model) : model :=
  mkModel (tab m) (toolMode m) (viewMode m) (changes m) (suggestions m) (gitState m)
    (branches m) (commits m) (conflicts m) (branchComparison m) (rebaseCommits m)
    (diffContent m) (pushOutput m) (recentCommits m) (filesTable m) (branchesTable m)
    (toolsTable m) (historyTable m) (conflictsTable m) v (rebaseTable m) (undoTable m)
    (commitInput m) (branchInput m) (rebaseInput m) (width m) (height m) (statusMsg m)
    (statusExpiry m) (showDiffPreview m) (selectedSuggestion m) (repoPath m)
    (lastCommit m) (lastStatusUpdate m) (confirmAction m).
Definition set_rebaseTable (v : Table) (m : model) : model :=
  mkModel (tab m) (toolMode m) (viewMode m) (changes m) (suggestions m) (gitState m)
    (branches m) (commits m) (conflicts m) (branchComparison m) (rebaseCommits m)
    (diffContent m) (pushOutput m) (recentCommits m) (filesTable m) (branchesTable m)
    (toolsTable m) (historyTable m) (conflictsTable m) (comparisonTable m) v
    (undoTable m) (commitInput m) (branchInput m) (rebaseInput m) (width m) (height m)
    (statusMsg m) (statusExpiry m) (showDiffPreview m) (selectedSuggestion m)
    (repoPath m) (lastCommit m) (lastStatusUpdate m) (confirmAction m).
Definition set_undoTable (v : Table) (m : model) : model :=
  mkModel (tab m) (toolMode m) (viewMode m) (changes m) (suggestions m) (gitState m)
    (branches m) (commits m) (conflicts m) (branchComparison m) (rebaseCommits m)
    (diffContent m) (pushOutput m) (recentCommits m) (filesTable m) (branchesTable m)
    (toolsTable m) (historyTable m) (conflictsTable m) (comparisonTable m)
    (rebaseTable m) v (commitInput m) (branchInput m) (rebaseInput m) (width m)
    (height m) (statusMsg m) (statusExpiry m) (showDiffPreview m) (selectedSuggestion m)
    (repoPath m) (lastCommit m) (lastStatusUpdate m) (confirmAction m).
Definition set_commitInput (v : TextInput) (m : model) : model :=
  mkModel (tab m) (toolMode m) (viewMode m) (changes m) (suggestions m) (gitState m)
    (branches m) (commits m) (conflicts m) (branchComparison m) (rebaseCommits m)
    (diffContent m) (pushOutput m) (recentCommits m) (filesTable m) (branchesTable m)
    (toolsTable m) (historyTable m) (conflictsTable m) (comparisonTable m)
    (rebaseTable m) (undoTable m) v (branchInput m) (rebaseInput m) (width m) (height m)
    (statusMsg m) (statusExpiry m) (showDiffPreview m) (selectedSuggestion m)
    (repoPath m) (lastCommit m) (lastStatusUpdate m) (confirmAction m).
Definition set_branchInput (v : TextInput) (m : model) : model :=
  mkModel (tab m) (toolMode m) (viewMode m) (changes m) (suggestions m) (gitState m)
    (branches m) (commits m) (conflicts m) (branchComparison m) (rebaseCommits m)
    (diffContent m) (pushOutput m) (recentCommits m) (filesTable m) (branchesTable m)
    (toolsTable m) (historyTable m) (conflictsTable m) (comparisonTable m)
    (rebaseTable m) (undoTable m) (commitInput m) v (rebaseInput m) (width m) (height m)
    (statusMsg m) (statusExpiry m) (showDiffPreview m) (selectedSuggestion m)
    (repoPath m) (lastCommit m) (lastStatusUpdate m) (confirmAction m).
Definition set_rebaseInput (v : TextInput) (m : model) : model :=
  mkModel (tab m) (toolMode m) (viewMode m) (changes m) (suggestions m) (gitState m)
    (branches m) (commits m) (conflicts m) (branchComparison m) (rebaseCommits m)
    (diffContent m) (pushOutput m) (recentCommits m) (filesTable m) (branchesTable m)
    (toolsTable m) (historyTable m) (conflictsTable m) (comparisonTable m)
    (rebaseTable m) (undoTable m) (commitInput m) (branchInput m) v (width m) (height m)
    (statusMsg m) (statusExpiry m) (showDiffPreview m) (selectedSuggestion m)
    (repoPath m) (lastCommit m) (lastStatusUpdate m) (confirmAction m).
Definition set_width (v : Z) (m : model) : model :=
  mkModel (tab m) (toolMode m) (viewMode m) (changes m) (suggestions m) (gitState m)
    (branches m) (commits m) (conflicts m) (branchComparison m) (rebaseCommits m)
    (diffContent m) (pushOutput m) (recentCommits m) (filesTable m) (branchesTable m)
    (toolsTable m) (historyTable m) (conflictsTable m) (comparisonTable m)
    (rebaseTable m) (undoTable m) (commitInput m) (branchInput m) (rebaseInput m) v
    (height m) (statusMsg m) (statusExpiry m) (showDiffPreview m) (selectedSuggestion m)
    (repoPath m) (lastCommit m) (lastStatusUpdate m) (confirmAction m).
Definition set_height (v : Z) (m : model) : model :=
  mkModel (tab m) (toolMode m) (viewMode m) (changes m) (suggestions m) (gitState m)
    (branches m) (commits m) (conflicts m) (branchComparison m) (rebaseCommits m)
    (diffContent m) (pushOutput m) (recentCommits m) (filesTable m) (branchesTable m)
    (toolsTable m) (historyTable m) (conflictsTable m) (comparisonTable m)
    (rebaseTable m) (undoTable m) (commitInput m) (branchInput m) (rebaseInput m)
    (width m) v (statusMsg m) (statusExpiry m) (showDiffPreview m)
    (selectedSuggestion m) (repoPath m) (lastCommit m) (lastStatusUpdate m)
    (confirmAction m).
Definition set_statusMsg (v : string) (m : model) : model :=
  mkModel (tab m) (toolMode m) (viewMode m) (changes m) (suggestions m) (gitState m)
    (branches m) (commits m) (conflicts m) (branchComparison m) (rebaseCommits m)
    (diffContent m) (pushOutput m) (recentCommits m) (filesTable m) (branchesTable m)
    (toolsTable m) (historyTable m) (conflictsTable m) (comparisonTable m)
    (rebaseTable m) (undoTable m) (commitInput m) (branchInput m) (rebaseInput m)
    (width m) (height m) v (statusExpiry m) (showDiffPreview m) (selectedSuggestion m)
    (repoPath m) (lastCommit m) (lastStatusUpdate m) (confirmAction m).
Definition set_statusExpiry (v : Z) (m : model) : model :=
  mkModel (tab m) (toolMode m) (viewMode m) (changes m) (suggestions m) (gitState m)
    (branches m) (commits m) (conflicts m) (branchComparison m) (rebaseCommits m)
    (diffContent m) (pushOutput m) (recentCommits m) (filesTable m) (branchesTable m)
    (toolsTable m) (historyTable m) (conflictsTable m) (comparisonTable m)
    (rebaseTable m) (undoTable m) (commitInput m) (branchInput m) (rebaseInput m)
    (width m) (height m) (statusMsg m) v (showDiffPreview m) (selectedSuggestion m)
    (repoPath m) (lastCommit m) (lastStatusUpdate m) (confirmAction m).
Definition set_showDiffPreview (v : bool) (m : model) : model :=
  mkModel (tab m) (toolMode m) (viewMode m) (changes m) (suggestions m) (gitState m)
    (branches m) (commits m) (conflicts m) (branchComparison m) (rebaseCommits m)
    (diffContent m) (pushOutput m) (recentCommits m) (filesTable m) (branchesTable m)
    (toolsTable m) (historyTable m) (conflictsTable m) (comparisonTable m)
    (rebaseTable m) (undoTable m) (commitInput m) (branchInput m) (rebaseInput m)
    (width m) (height m) (statusMsg m) (statusExpiry m) v (selectedSuggestion m)
    (repoPath m) (lastCommit m) (lastStatusUpdate m) (confirmAction m).
Definition set_selectedSuggestion (v : Z) (m : model) : model :=
  mkModel (tab m) (toolMode m) (viewMode m) (changes m) (suggestions m) (gitState m)
    (branches m) (commits m) (conflicts m) (branchComparison m) (rebaseCommits m)
    (diffContent m) (pushOutput m) (recentCommits m) (filesTable m) (branchesTable m)
    (toolsTable m) (historyTable m) (conflictsTable m) (comparisonTable m)
    (rebaseTable m) (undoTable m) (commitInput m) (branchInput m) (rebaseInput m)
    (width m) (height m) (statusMsg m) (statusExpiry m) (showDiffPreview m) v
    (repoPath m) (lastCommit m) (lastStatusUpdate m) (confirmAction m).
Definition set_repoPath (v : string) (m : model) : model :=
  mkModel (tab m) (toolMode m) (viewMode m) (changes m) (suggestions m) (gitState m)
    (branches m) (commits m) (conflicts m) (branchComparison m) (rebaseCommits m)
    (diffContent m) (pushOutput m) (recentCommits m) (filesTable m) (branchesTable m)
    (toolsTable m) (historyTable m) (conflictsTable m) (comparisonTable m)
    (rebaseTable m) (undoTable m) (commitInput m) (branchInput m) (rebaseInput m)
    (width m) (height m) (statusMsg m) (statusExpiry m) (showDiffPreview m)
    (selectedSuggestion m) v (lastCommit m) (lastStatusUpdate m) (confirmAction m).
Definition set_lastCommit (v : string) (m : model) : model :=
  mkModel (tab m) (toolMode m) (viewMode m) (changes m) (suggestions m) (gitState m)
    (branches m) (commits m) (conflicts m) (branchComparison m) (rebaseCommits m)
    (diffContent m) (pushOutput m) (recentCommits m) (filesTable m) (branchesTable m)
    (toolsTable m) (historyTable m) (conflictsTable m) (comparisonTable m)
    (rebaseTable m) (undoTable m) (commitInput m) (branchInput m) (rebaseInput m)
    (width m) (height m) (statusMsg m) (statusExpiry m) (showDiffPreview m)
    (selectedSuggestion m) (repoPath m) v (lastStatusUpdate m) (confirmAction m).
Definition set_lastStatusUpdate (v : Z) (m : model) : model :=
  mkModel (tab m) (toolMode m) (viewMode m) (changes m) (suggestions m) (gitState m)
    (branches m) (commits m) (conflicts m) (branchComparison m) (rebaseCommits m)
    (diffContent m) (pushOutput m) (recentCommits m) (filesTable m) (branchesTable m)
    (toolsTable m) (historyTable m) (conflictsTable m) (comparisonTable m)
    (rebaseTable m) (undoTable m) (commitInput m) (branchInput m) (rebaseInput m)
    (width m) (height m) (statusMsg m) (statusExpiry m) (showDiffPreview m)
    (selectedSuggestion m) (repoPath m) (lastCommit m) v (confirmAction m).
Definition set_confirmAction (v : string) (m : model) : model :=
  mkModel (tab m) (toolMode m) (viewMode m) (changes m) (suggestions m) (gitState m)
    (branches m) (commits m) (conflicts m) (branchComparison m) (rebaseCommits m)
    (diffContent m) (pushOutput m) (recentCommits m) (filesTable m) (branchesTable m)
    (toolsTable m) (historyTable m) (conflictsTable m) (comparisonTable m)
    (rebaseTable m) (undoTable m) (commitInput m) (branchInput m) (rebaseInput m)
    (width m) (height m) (statusMsg m) (statusExpiry m) (showDiffPreview m)
    (selectedSuggestion m) (repoPath m) (lastCommit m) (lastStatusUpdate m) v.

Definition initialModel (wd : string) : model :=
  mkModel "workspace" "menu" "files" [] [] (mkGitStatus "" false 0 0 0 0) [] [] []
    None [] "" "" []
    (NewTable "files") (NewTable "branches") (NewTable "tools") (NewTable "history")
    (NewTable "conflicts") (NewTable "comparison") (NewTable "rebase")
    (SetRows 4 (NewTable "undo"))   (* [createUndoTable] fills in its four rows *)
    newTextInput newTextInput newTextInput
    0 0 "" 0 true 0 wd "" 0 "".

Definition Init (m : model) : Cmd :=
  CmdBatch [CmdLoadGitChanges (repoPath m); CmdLoadGitStatus (repoPath m);
            CmdLoadRecentCommits (repoPath m)].

(** [m.statusMsg = text; m.statusExpiry = time.Now().Add(d)], times in
    milliseconds. *)
Definition setStatus (text : string) (now d : Z) (m : model) : model :=
  set_statusExpiry (now + d) (set_statusMsg text m).

Definition updateFilesTable (m : model) : model :=
  set_filesTable (SetRows (length (changes m)) (filesTable m)) m.
Definition updateBranchesTable (m : model) : model :=
  set_branchesTable (SetRows (length (branches m)) (branchesTable m)) m.
Definition updateToolsTable (m : model) : model :=
  set_toolsTable (SetRows 4 (toolsTable m)) m.
Definition updateHistoryTable (m : model) : model :=
  set_historyTable (SetRows (length (commits m)) (historyTable m)) m.
Definition updateConflictsTable (m : model) : model :=
  set_conflictsTable (SetRows (length (conflicts m)) (conflictsTable m)) m.
Definition updateComparisonTable (m : model) : model :=
  match branchComparison m with
  | None => m
  | Some c =>
      set_comparisonTable
        (SetRows (length (AheadCommits c) + length (BehindCommits c)) (comparisonTable m)) m
  end.
Definition updateRebaseTable (m : model) : model :=
  set_rebaseTable (SetRows (length (rebaseCommits m)) (rebaseTable m)) m.

Definition adjustTableSizes (m : model) : model :=
  if height m <=? 0 then m
  else
    let availableHeight := height m - 10 in
    let availableHeight := if availableHeight <? 5 then 5 else availableHeight in
    let m := set_filesTable (SetHeight availableHeight (filesTable m)) m in
    let m := set_branchesTable (SetHeight availableHeight (branchesTable m)) m in
    let m := set_toolsTable (SetHeight (Z.quot availableHeight 2) (toolsTable m)) m in
    let m := set_historyTable (SetHeight availableHeight (historyTable m)) m in
    let m := set_conflictsTable (SetHeight availableHeight (conflictsTable m)) m in
    let m := set_comparisonTable (SetHeight availableHeight (comparisonTable m)) m in
    let m := set_rebaseTable (SetHeight availableHeight (rebaseTable m)) m in
    if 0 <? width m then
      let availableWidth := width m - 6 in
      let m := set_filesTable (SetColumns [25; availableWidth - 30] (filesTable m)) m in
      set_branchesTable
        (SetColumns [Z.quot availableWidth 3; Z.quot availableWidth 4;
                     Z.quot availableWidth 3] (branchesTable m)) m
    else m.

Definition hasConflicts (m : model) : bool :=
  existsb (fun change =>
             Contains (Status change) "U" ||
             Contains (Status change) "A" && Contains (Status change) "A")
          (changes m).

(** [for _, conflict := range m.conflicts { if !conflict.IsResolved { return
    false } }; return len(m.conflicts) == 0 || len(m.conflicts) > 0] *)
Fixpoint anyUnresolved (conflicts : list ConflictFile) : bool :=
  match conflicts with
  | [] => false
  | conflict :: rest => if negb (IsResolved conflict) then true else anyUnresolved rest
  end.

Definition finalReturn (conflicts : list ConflictFile) : bool :=
  bool_decide (length conflicts = 0%nat) || (0 <? Z.of_nat (length conflicts)).

Definition allConflictsResolved (m : model) : bool :=
  if anyUnresolved (conflicts m) then false else finalReturn (conflicts m).

Definition anyInputFocused (m : model) : bool :=
  Focused (commitInput m) || Focused (branchInput m) || Focused (rebaseInput m).

Definition handleEscape (now : Z) (m : model) : model * Cmd :=
  (* blur any focused input *)
  if Focused (commitInput m) then
    (set_selectedSuggestion 0 (set_commitInput (Blur (commitInput m)) m), CmdNil)
  else if Focused (branchInput m) then
    (set_branchInput (SetValue "" (Blur (branchInput m))) m, CmdNil)
  else if Focused (rebaseInput m) then
    (set_rebaseInput (SetValue "" (Blur (rebaseInput m))) m, CmdNil)
  (* exit sub-modes *)
  else if bool_decide (viewMode m = "diff") then (set_viewMode "files" m, CmdNil)
  else if bool_decide (branchComparison m <> None) then (set_branchComparison None m, CmdNil)
  else if bool_decide (tab m = "tools") && bool_decide (toolMode m <> "menu") then
    (updateToolsTable (set_toolMode "menu" m), CmdNil)
  (* clear confirmation *)
  else if bool_decide (confirmAction m <> "") then
    (setStatus "❌ Action cancelled" now 2000 (set_confirmAction "" m), CmdNil)
  else (m, CmdNil).

(** [rows[i]]: there is no element for an index that is negative or
    beyond the end, and Go panics. *)
Definition elemAt {A : Type} (rows : list A) (i : Z) : option A :=
  if i <? 0 then None else rows !! Z.to_nat i.

(** A run-time panic unwinds [Update] to the event loop of the toolkit,
    which stops the program: the step returns neither a model nor a command.
    It is embedded as the mark [CmdPanic] beside the model the handler had in
    hand, which is of no account. *)
Definition panic (m : model) : model * Cmd := (m, CmdPanic).

(** The test that the handlers make before they read the row under the
    cursor, [len(rows) > 0] and then [selectedIndex < len(rows)]: the cursor
    is tested against the end of the rows only. *)
Definition guarded {A : Type} (rows : list A) (t : Table) : bool :=
  (0 <? Z.of_nat (length rows)) && (Cursor t <? Z.of_nat (length rows)).

(** The row under the cursor, when the test lets the handler read it and
    the row is there. *)
Definition selected {A : Type} (rows : list A) (t : Table) : option A :=
  if guarded rows t then elemAt rows (Cursor t) else None.

Definition passToTable (msg : Msg) (t : Table) (put : Table -> model -> model)
    (m : model) : model * Cmd :=
  let '(t', cmd) := TableUpdate msg t in (put t' m, widgetCmd cmd).

Definition handleConflictKeys (now : Z) (key : string) (m : model) : model * Cmd :=
  if bool_decide (length (conflicts m) = 0%nat) then (m, CmdNil)
  else
    let selectedIndex := Cursor (conflictsTable m) in
    if Z.of_nat (length (conflicts m)) <=? selectedIndex then (m, CmdNil)
    else
      let resolve resolution :=
        CmdResolveConflict (repoPath m) (conflicts m) selectedIndex resolution in
      if bool_decide (key = "o") then (m, resolve "ours")
      else if bool_decide (key = "t") then (m, resolve "theirs")
      else if bool_decide (key = "b") then (m, resolve "both")
      else if bool_decide (key = "enter") then (m, CmdNil)
      else if bool_decide (key = "c") then
        if allConflictsResolved m then (m, CmdContinueMerge (repoPath m))
        else (setStatus "❌ Resolve all conflicts before continuing" now 3000 m, CmdNil)
      else passToTable (KeyMsg key) (conflictsTable m) set_conflictsTable m.

Definition handleWorkspaceKeys (now : Z) (key : string) (m : model) : model * Cmd :=
  if bool_decide (viewMode m = "conflicts") then handleConflictKeys now key m
  else if bool_decide (key = " ") then
    if guarded (changes m) (filesTable m) then
      match elemAt (changes m) (Cursor (filesTable m)) with
      | Some change => (m, CmdToggleStaging (repoPath m) (File change))
      | None => panic m
      end
    else (m, CmdNil)
  else if bool_decide (key = "a") then
    (m, CmdBatch [CmdGitAddAll (repoPath m); CmdRefreshAfterStaging (repoPath m)])
  else if bool_decide (key = "r") then
    (m, CmdBatch [CmdLoadGitChanges (repoPath m); CmdLoadGitStatus (repoPath m)])
  else if bool_decide (key = "v") then
    let m := set_showDiffPreview (negb (showDiffPreview m)) m in
    if showDiffPreview m && guarded (changes m) (filesTable m) then
      match elemAt (changes m) (Cursor (filesTable m)) with
      | Some change => (m, CmdViewDiff (repoPath m) (File change))
      | None => panic m
      end
    else (m, CmdNil)
  else if bool_decide (key = "d") then
    if guarded (changes m) (filesTable m) then
      let m := set_viewMode "diff" m in
      match elemAt (changes m) (Cursor (filesTable m)) with
      | Some change => (m, CmdViewDiff (repoPath m) (File change))
      | None => panic m
      end
    else (m, CmdNil)
  else if bool_decide (key = "R") then
    (m, CmdBatch [CmdGitReset (repoPath m); CmdRefreshAfterStaging (repoPath m)])
  else
    let m :=
      if bool_decide (key = "up") || bool_decide (key = "down")
      then setStatus ("DEBUG: Passing " +:+ key +:+ " to filesTable") now 1000 m
      else m in
    passToTable (KeyMsg key) (filesTable m) set_filesTable m.

Definition commitSelected (m : model) : model * Cmd :=
  if selectedSuggestion m <=? Z.of_nat (length (suggestions m)) then
    match suggestions m !! Z.to_nat (selectedSuggestion m - 1) with
    | Some suggestion =>
        (m, CmdBatch [CmdCommitWithMessage (repoPath m) (SuggestionMessage suggestion);
                      CmdRefreshAfterCommit (repoPath m)])
    | None => (m, CmdNil)
    end
  else (m, CmdNil).

Definition handleCommitKeys (key : string) (m : model) : model * Cmd :=
  if Focused (commitInput m) then
    if bool_decide (key = "enter") && bool_decide (Value (commitInput m) <> "") then
      let customMsg := Value (commitInput m) in
      let m := set_commitInput (Blur (SetValue "" (commitInput m))) m in
      let m := set_selectedSuggestion 0 m in
      (m, CmdBatch [CmdCommitWithMessage (repoPath m) customMsg;
                    CmdRefreshAfterCommit (repoPath m)])
    else (m, CmdNil)
  else if bool_decide (key = "up") || bool_decide (key = "k") then
    ((if 0 <? selectedSuggestion m
      then set_selectedSuggestion (selectedSuggestion m - 1) m else m), CmdNil)
  else if bool_decide (key = "down") || bool_decide (key = "j") then
    ((if selectedSuggestion m <? Z.of_nat (length (suggestions m))
      then set_selectedSuggestion (selectedSuggestion m + 1) m else m), CmdNil)
  else if bool_decide (key = "enter") && (0 <? selectedSuggestion m) then commitSelected m
  else if bool_decide (key = " ") && (0 <? selectedSuggestion m) then commitSelected m
  else if bool_decide (key = "c") ||
          bool_decide (key = "enter") && bool_decide (selectedSuggestion m = 0) then
    (set_selectedSuggestion (-1) (set_commitInput (Focus (commitInput m)) m), CmdNil)
  else (m, CmdNil).

(** The target of [c] in the branches tab: ["main"] if there is such a
    branch, else ["master"] if there is one before the end of the list, else
    ["main"]. *)
Fixpoint compareTarget (targetBranch : string) (branches : list Branch) : string :=
  match branches with
  | [] => targetBranch
  | b :: rest =>
      if bool_decide (Name b = "main") then "main"
      else if bool_decide (Name b = "master") then compareTarget "master" rest
      else compareTarget targetBranch rest
  end.

Definition handleBranchesKeys (now : Z) (key : string) (m : model) : model * Cmd :=
  if Focused (branchInput m) then
    if bool_decide (key = "enter") && bool_decide (Value (branchInput m) <> "") then
      let branchName := Value (branchInput m) in
      let m := set_branchInput (Blur (SetValue "" (branchInput m))) m in
      (m, CmdCreateBranch (repoPath m) branchName)
    else (m, CmdNil)
  else if bool_decide (branchComparison m <> None) then
    passToTable (KeyMsg key) (comparisonTable m) set_comparisonTable m
  else if bool_decide (key = "enter") then
    if guarded (branches m) (branchesTable m) then
      match elemAt (branches m) (Cursor (branchesTable m)) with
      | Some branch =>
          if negb (IsCurrent branch) then (m, CmdSwitchBranch (repoPath m) (Name branch))
          else (m, CmdNil)
      | None => panic m
      end
    else (m, CmdNil)
  else if bool_decide (key = "n") then
    (set_branchInput (Focus (branchInput m)) m, CmdNil)
  else if bool_decide (key = "d") then
    if guarded (branches m) (branchesTable m) then
      match elemAt (branches m) (Cursor (branchesTable m)) with
      | Some branch =>
          if IsCurrent branch then
            (setStatus "❌ Cannot delete current branch" now 3000 m, CmdNil)
          else
            let m := set_confirmAction ("delete-branch:" +:+ Name branch) m in
            (setStatus ("⚠️ Press 'y' to confirm delete '" +:+ Name branch +:+
                        "', or ESC to cancel") now 10000 m, CmdNil)
      | None => panic m
      end
    else (m, CmdNil)
  else if bool_decide (key = "y") then
    if HasPrefix (confirmAction m) "delete-branch:" then
      let branchName := TrimPrefix (confirmAction m) "delete-branch:" in
      (set_confirmAction "" m, CmdDeleteBranch (repoPath m) branchName)
    else (m, CmdNil)
  else if bool_decide (key = "c") then
    (m, CmdLoadBranchComparison (repoPath m) (compareTarget "main" (branches m)))
  else if bool_decide (key = "r") then (m, CmdLoadBranches (repoPath m))
  else passToTable (KeyMsg key) (branchesTable m) set_branchesTable m.

Definition handleToolsMenuKeys (key : string) (m : model) : model * Cmd :=
  let pass := passToTable (KeyMsg key) (toolsTable m) set_toolsTable m in
  if bool_decide (key = "enter") then
    let cursor := Cursor (toolsTable m) in
    if bool_decide (cursor = 0) then (set_toolMode "undo" m, CmdNil)
    else if bool_decide (cursor = 1) then
      (set_rebaseInput (Focus (rebaseInput m)) (set_toolMode "rebase" m), CmdNil)
    else if bool_decide (cursor = 2) then
      (set_toolMode "history" m, CmdLoadHistory (repoPath m))
    else if bool_decide (cursor = 3) then (set_toolMode "remote" m, CmdNil)
    else pass
  else pass.

Definition handleUndoKeys (now : Z) (key : string) (m : model) : model * Cmd :=
  let confirmation : option (model * Cmd) :=
    if bool_decide (key = "enter") then
      let cursor := Cursor (undoTable m) in
      if bool_decide (cursor = 0) then
        Some (setStatus "⚠️ Press 'y' to undo last commit (keep changes), or ESC to cancel"
                now 10000 (set_confirmAction "soft-reset" m), CmdNil)
      else if bool_decide (cursor = 1) then
        Some (setStatus "⚠️ Press 'y' to undo last commit (unstage changes), or ESC to cancel"
                now 10000 (set_confirmAction "mixed-reset" m), CmdNil)
      else if bool_decide (cursor = 2) then
        Some (setStatus
                "⚠️⚠️⚠️ DANGEROUS: Press 'y' to undo and DISCARD changes, or ESC to cancel"
                now 15000 (set_confirmAction "hard-reset" m), CmdNil)
      else if bool_decide (cursor = 3) then Some (m, CmdLoadReflog (repoPath m))
      else None
    else None in
  orElse confirmation
    (if bool_decide (key = "y") then
       if bool_decide (confirmAction m = "soft-reset")
       then (set_confirmAction "" m, CmdSoftReset (repoPath m) 1)
       else if bool_decide (confirmAction m = "mixed-reset")
       then (set_confirmAction "" m, CmdMixedReset (repoPath m) 1)
       else if bool_decide (confirmAction m = "hard-reset")
       then (set_confirmAction "" m, CmdHardReset (repoPath m) 1)
       else (m, CmdNil)
     else passToTable (KeyMsg key) (undoTable m) set_undoTable m).

(** [strconv.Atoi]: an optional sign and decimal digits, within 64 bits. *)
Fixpoint digitsValue (acc : Z) (s : string) : option Z :=
  match s with
  | EmptyString => Some acc
  | String c r =>
      let b := Z.of_N (byte c) in
      if (48 <=? b) && (b <=? 57) then digitsValue (acc * 10 + (b - 48)) r else None
  end.

Definition Atoi (s : string) : option Z :=
  let signed (sign : Z) (digits : string) : option Z :=
    if bool_decide (digits = "") then None
    else match digitsValue 0 digits with
         | Some v =>
             let n := sign * v in
             if (- 2 ^ 63 <=? n) && (n <? 2 ^ 63) then Some n else None
         | None => None
         end in
  match s with
  | String "-" r => signed (-1) r
  | String "+" r => signed 1 r
  | _ => signed 1 s
  end.

Definition setAction (action : string) (c : RebaseCommit) : RebaseCommit :=
  mkRebaseCommit (RebaseHash c) (RebaseMessage c) action.

(** [m.rebaseCommits[selectedIndex].Action = action; m.updateRebaseTable()],
    after the test [selectedIndex >= len(m.rebaseCommits)] has failed. *)
Definition markRebase (action : string) (m : model) : model * Cmd :=
  let selectedIndex := Cursor (rebaseTable m) in
  match elemAt (rebaseCommits m) selectedIndex with
  | Some _ =>
      (updateRebaseTable
         (set_rebaseCommits
            (alter (setAction action) (Z.to_nat selectedIndex) (rebaseCommits m)) m),
       CmdNil)
  | None => panic m
  end.

Definition handleRebaseKeys (now : Z) (key : string) (m : model) : model * Cmd :=
  if Focused (rebaseInput m) then
    if bool_decide (key = "enter") && bool_decide (Value (rebaseInput m) <> "") then
      match Atoi (Value (rebaseInput m)) with
      | Some count =>
          if (0 <? count) && (count <=? 50) then
            let m := set_rebaseInput (Blur (SetValue "" (rebaseInput m))) m in
            (m, CmdLoadRebaseCommits (repoPath m) count)
          else (setStatus "❌ Invalid count (must be 1-50)" now 3000 m, CmdNil)
      | None => (setStatus "❌ Invalid count (must be 1-50)" now 3000 m, CmdNil)
      end
    else (m, CmdNil)
  else if 0 <? Z.of_nat (length (rebaseCommits m)) then
    if Z.of_nat (length (rebaseCommits m)) <=? Cursor (rebaseTable m)
    then (m, CmdNil)
    else if bool_decide (key = "p") then markRebase "pick" m
    else if bool_decide (key = "s") then markRebase "squash" m
    else if bool_decide (key = "r") then markRebase "reword" m
    else if bool_decide (key = "d") then markRebase "drop" m
    else if bool_decide (key = "f") then markRebase "fixup" m
    else if bool_decide (key = "enter") then
      (setStatus "⚠️ Press 'y' to execute rebase, or ESC to cancel" now 10000
         (set_confirmAction "execute-rebase" m), CmdNil)
    else if bool_decide (key = "y") then
      if bool_decide (confirmAction m = "execute-rebase")
      then (set_confirmAction "" m, CmdExecuteRebase)
      else (m, CmdNil)
    else passToTable (KeyMsg key) (rebaseTable m) set_rebaseTable m
  else (m, CmdNil).

Definition handleHistoryKeys (now : Z) (key : string) (m : model) : model * Cmd :=
  if bool_decide (key = "r") then (m, CmdLoadHistory (repoPath m))
  else if bool_decide (key = "c") then
    if guarded (commits m) (historyTable m) then
      match elemAt (commits m) (Cursor (historyTable m)) with
      | Some commit => (setStatus ("📋 Hash: " +:+ Hash commit) now 5000 m, CmdNil)
      | None => panic m
      end
    else (m, CmdNil)
  else passToTable (KeyMsg key) (historyTable m) set_historyTable m.

Definition handleRemoteKeys (key : string) (m : model) : model * Cmd :=
  if bool_decide (key = "p") then (m, CmdGitPush (repoPath m))
  else if bool_decide (key = "l") then (m, CmdGitPull (repoPath m))
  else if bool_decide (key = "f") then (m, CmdGitFetch (repoPath m))
  else (m, CmdNil).

Definition handleToolsKeys (now : Z) (key : string) (m : model) : model * Cmd :=
  if bool_decide (toolMode m = "menu") then handleToolsMenuKeys key m
  else if bool_decide (toolMode m = "undo") then handleUndoKeys now key m
  else if bool_decide (toolMode m = "rebase") then handleRebaseKeys now key m
  else if bool_decide (toolMode m = "history") then handleHistoryKeys now key m
  else if bool_decide (toolMode m = "remote") then handleRemoteKeys key m
  else (m, CmdNil).

Definition handleTabKeys (now : Z) (key : string) (m : model) : model * Cmd :=
  if bool_decide (tab m = "workspace") then handleWorkspaceKeys now key m
  else if bool_decide (tab m = "commit") then handleCommitKeys key m
  else if bool_decide (tab m = "branches") then handleBranchesKeys now key m
  else if bool_decide (tab m = "tools") then handleToolsKeys now key m
  else (m, CmdNil).

Definition handleKeyPress (now : Z) (key : string) (m : model) : model * Cmd :=
  if bool_decide (key = "esc") then handleEscape now m
  else if bool_decide (key = "ctrl+c") ||
          bool_decide (key = "q") && negb (anyInputFocused m) then (m, CmdQuit)
  else if negb (anyInputFocused m) && bool_decide (key = "1") then
    (set_viewMode "files" (set_tab "workspace" m), CmdNil)
  else if negb (anyInputFocused m) && bool_decide (key = "2") then
    if 0 <? StagedFiles (gitState m)
    then (set_selectedSuggestion 0 (set_tab "commit" m), CmdNil)
    else (setStatus "❌ No files staged. Stage files first in workspace." now 3000 m,
          CmdNil)
  else if negb (anyInputFocused m) && bool_decide (key = "3") then
    (set_branchComparison None (set_tab "branches" m), CmdLoadBranches (repoPath m))
  else if negb (anyInputFocused m) && bool_decide (key = "4") then
    (updateToolsTable (set_toolMode "menu" (set_tab "tools" m)), CmdNil)
  else handleTabKeys now key m.

(** The part of [Update] below the type switch: a message that none of its
    cases took goes to the component in view. *)
Definition updateComponent (msg : Msg) (m : model) : model * Cmd :=
  let table t put := let '(m', cmd) := passToTable msg t put m in (m', CmdBatch [cmd]) in
  let input i put :=
    let '(i', cmd) := InputUpdate msg i in (put i' m, CmdBatch [widgetCmd cmd]) in
  if bool_decide (tab m = "workspace") then
    if bool_decide (viewMode m = "files") then table (filesTable m) set_filesTable
    else if bool_decide (viewMode m = "conflicts")
    then table (conflictsTable m) set_conflictsTable
    else (m, CmdBatch [])
  else if bool_decide (tab m = "commit") then
    if Focused (commitInput m) then input (commitInput m) set_commitInput
    else (m, CmdBatch [])
  else if bool_decide (tab m = "branches") then
    if Focused (branchInput m) then input (branchInput m) set_branchInput
    else if bool_decide (branchComparison m <> None)
    then table (comparisonTable m) set_comparisonTable
    else table (branchesTable m) set_branchesTable
  else if bool_decide (tab m = "tools") then
    if bool_decide (toolMode m = "menu") then table (toolsTable m) set_toolsTable
    else if bool_decide (toolMode m = "undo") then table (undoTable m) set_undoTable
    else if bool_decide (toolMode m = "history") then table (historyTable m) set_historyTable
    else if bool_decide (toolMode m = "rebase") then
      if Focused (rebaseInput m) then input (rebaseInput m) set_rebaseInput
      else table (rebaseTable m) set_rebaseTable
    else (m, CmdBatch [])
  else (m, CmdBatch []).

(** [Update]; [now] is what [time.Now()] returns while it runs. *)
Definition Update (now : Z) (msg : Msg) (m : model) : model * Cmd :=
  match msg with
  | WindowSizeMsg w h => (adjustTableSizes (set_height h (set_width w m)), CmdNil)
  | KeyMsg key => handleKeyPress now key m
  | GitChangesMsg changes =>
      let m := updateFilesTable (set_changes changes m) in
      if hasConflicts m then (m, CmdLoadConflicts (repoPath m))
      else (m, CmdGenerateCommitSuggestions (changes) (repoPath m))
  | CommitSuggestionsMsg suggestions => (set_suggestions suggestions m, CmdNil)
  | GitStatusMsg status => (set_lastStatusUpdate now (set_gitState status m), CmdNil)
  | BranchesMsg branches => (updateBranchesTable (set_branches branches m), CmdNil)
  | CommitsMsg commits => (updateHistoryTable (set_commits commits m), CmdNil)
  | RecentCommitsMsg commits => (set_recentCommits commits m, CmdNil)
  | DiffMsg diff => (set_diffContent diff m, CmdNil)
  | ConflictsMsg conflicts =>
      let m := updateConflictsTable (set_conflicts conflicts m) in
      ((if 0 <? Z.of_nat (length (conflicts)) then set_viewMode "conflicts" m else m),
       CmdNil)
  | ComparisonMsg comp =>
      (updateComparisonTable (set_branchComparison (Some comp) m), CmdNil)
  | RebaseCommitsMsg commits => (updateRebaseTable (set_rebaseCommits commits m), CmdNil)
  | StatusMsg message => (setStatus message now 3000 m, CmdNil)
  | PushOutputMsg output commit =>
      (setStatus "✅ Pushed successfully" now 3000
         (set_lastCommit commit (set_pushOutput output m)), CmdNil)
  | BatchMsg _ | OtherMsg _ => updateComponent msg m
  end.

(** The states the program can be in: it starts in [initialModel] and
    takes one message after the other.  (A step that panicked ends the run;
    the states counted here as following it are more than the program
    reaches.) *)
Inductive reachable (wd : string) : model -> Prop :=
| reach_init : reachable wd (initialModel wd)
| reach_step (m : model) (now : Z) (msg : Msg) :
    reachable wd m -> reachable wd (Update now msg m).1.

Definition run (now : Z) (msgs : list Msg) (m : model) : model :=
  fold_left (fun m msg => (Update now msg m).1) msgs m.

End StateMachine.

(** ** Commands: what the closures do when the runtime runs them *)

(** [commitWithMessage] ([main_new.go]) *)
Definition commitWithMessage (repoPath message : string) : IO Msg :=
  r ← runGit repoPath ["diff"; "--cached"; "--name-only"];
  let '(statusOutput, err) := r in
  match err with
  | Some e => ret (StatusMsg ("❌ Failed to check staged changes: " +:+ e))
  | None =>
      if bool_decide (len (TrimSpace statusOutput) = 0) then
        ret (StatusMsg "❌ No staged changes to commit. Stage files first.")
      else
        r ← executeGitCommand repoPath ["commit"; "-m"; message];
        match r.2 with
        | Some _ => ret (StatusMsg "❌ Commit failed - check commit message format")
        | None => ret (StatusMsg ("✅ Committed: " +:+ message))
        end
  end.

Definition deleteBranch (repoPath branchName : string) : IO Msg :=
  r ← executeGitCommand repoPath ["branch"; "-d"; branchName];
  match r.2 with
  | Some _ =>
      r ← executeGitCommand repoPath ["branch"; "-D"; branchName];
      let '(output, err) := r in
      match err with
      | Some e =>
          ret (StatusMsg ("❌ Failed to delete branch: " +:+ Error e +:+ " - " +:+ output))
      | None =>
          ret (BatchMsg [CmdLoadBranches repoPath;
                         CmdWidget ("✅ Force deleted branch '" +:+ branchName +:+ "'")])
      end
  | None =>
      ret (BatchMsg [CmdLoadBranches repoPath;
                     CmdWidget ("✅ Deleted branch '" +:+ branchName +:+ "'")])
  end.

(** The state of the loop of [parseConflictMarkers]. *)
Record MarkerState := mkMarkerState {
  found : list Conflict;
  inConflict : bool;
  inOurs : bool;
  lineStart : Z;
  oursContent : list string;
  theirsContent : list string
}.

Definition markerStep (st : MarkerState) (i : Z) (line : string) : MarkerState :=
  if HasPrefix line "<<<<<<< " then
    mkMarkerState (found st) true true i [] []
  else if HasPrefix line "=======" && inConflict st then
    mkMarkerState (found st) (inConflict st) false (lineStart st)
      (oursContent st) (theirsContent st)
  else if HasPrefix line ">>>>>>> " && inConflict st then
    let currentConflict := mkConflict (lineStart st) (oursContent st) (theirsContent st) in
    mkMarkerState (found st ++ [currentConflict]) false (inOurs st) (lineStart st)
      (oursContent st) (theirsContent st)
  else if inConflict st then
    if inOurs st then
      mkMarkerState (found st) (inConflict st) (inOurs st) (lineStart st)
        (oursContent st ++ [line]) (theirsContent st)
    else
      mkMarkerState (found st) (inConflict st) (inOurs st) (lineStart st)
        (oursContent st) (theirsContent st ++ [line])
  else st.

Fixpoint markerLoop (st : MarkerState) (i : Z) (lines : list string) : MarkerState :=
  match lines with
  | [] => st
  | line :: rest => markerLoop (markerStep st i line) (i + 1) rest
  end.

Definition parseConflictMarkers (content : string) : list Conflict :=
  let lines := Split content newline in
  found (markerLoop (mkMarkerState [] false false 0 [] []) 0 lines).

(** The loop of [loadConflicts] over the conflicted files. *)
Fixpoint readConflicts (repoPath : string) (files : list string)
  : IO (list ConflictFile) :=
  match files with
  | [] => ret []
  | file :: rest =>
      if bool_decide (file = "") then readConflicts repoPath rest
      else
        content ← readFile (Filepath.Join [repoPath; file]);
        match content with
        | None => readConflicts repoPath rest
        | Some content =>
            let conflicts := parseConflictMarkers content in
            others ← readConflicts repoPath rest;
            if 0 <? Z.of_nat (length conflicts)
            then ret (mkConflictFile file conflicts false :: others)
            else ret others
        end
  end.

Definition loadConflicts (repoPath : string) : IO Msg :=
  r ← runGit repoPath ["diff"; "--name-only"; "--diff-filter=U"];
  let '(output, err) := r in
  match err with
  | Some e => ret (StatusMsg ("❌ Failed to detect conflicts: " +:+ e))
  | None =>
      let files := Split (TrimSpace output) newline in
      conflictFiles ← readConflicts repoPath files;
      ret (ConflictsMsg conflictFiles)
  end.

(** ** The escape and branch-delete keys of [main.go]

    [main.go] keeps one [state] string instead of tabs and sub-modes.  Of its
    [Update], the branch for the escape key and the branches for [d] and [y]
    are embedded, over the fields they read and write. *)
Module MainGoKeys.

Record model := mkModel {
  state : string;
  branches : list Branch;
  branchesCursor : Z;         (* [m.branchesTable.Cursor()] *)
  customInput : TextInput;
  editInput : TextInput;
  branchInput : TextInput;
  confirmAction : string
}.

Definition handleEscape (m : model) : model :=
  if bool_decide (state m = "custom") then
    mkModel "files" (branches m) (branchesCursor m)
      (SetValue "" (Blur (customInput m))) (editInput m) (branchInput m) (confirmAction m)
  else if bool_decide (state m = "edit") then
    mkModel "suggestions" (branches m) (branchesCursor m)
      (customInput m) (SetValue "" (Blur (editInput m))) (branchInput m) (confirmAction m)
  else if bool_decide (state m = "newbranch") then
    mkModel "branches" (branches m) (branchesCursor m)
      (customInput m) (editInput m) (SetValue "" (Blur (branchInput m))) (confirmAction m)
  else if bool_decide (state m = "diff") then
    mkModel "files" (branches m) (branchesCursor m)
      (customInput m) (editInput m) (branchInput m) (confirmAction m)
  else m.

(** The branch under the cursor, when [case "d"] gets to read it. *)
Definition selectedBranch (m : model) : option Branch :=
  if (0 <? Z.of_nat (length (branches m))) &&
     (branchesCursor m <? Z.of_nat (length (branches m)))
  then elemAt (branches m) (branchesCursor m) else None.

(** [case "d"]: the new model and the status message the returned command
    will deliver, if any; [None] when [m.branches[selectedIndex]] panics. *)
Definition handleDelete (m : model) : option (model * option string) :=
  if bool_decide (state m = "branches") && (0 <? Z.of_nat (length (branches m))) then
    let selectedIndex := branchesCursor m in
    if selectedIndex <? Z.of_nat (length (branches m)) then
      match elemAt (branches m) selectedIndex with
      | Some branch =>
          if IsCurrent branch then Some (m, Some "❌ Cannot delete current branch")
          else
            Some (mkModel (state m) (branches m) (branchesCursor m) (customInput m)
                    (editInput m) (branchInput m) ("delete-branch:" +:+ Name branch),
                  Some ("⚠️ Press 'y' to confirm delete branch '" +:+ Name branch +:+
                        "', or 'q' to cancel"))
      | None => None
      end
    else Some (m, None)
  else Some (m, None).

(** [case "y"]: the new model and the branch handed to [deleteBranch], if
    any. *)
Definition handleConfirm (m : model) : model * option string :=
  if HasPrefix (confirmAction m) "delete-branch:" then
    (mkModel (state m) (branches m) (branchesCursor m) (customInput m)
       (editInput m) (branchInput m) "",
     Some (TrimPrefix (confirmAction m) "delete-branch:"))
  else (m, None).

End MainGoKeys.

(** ** The list of changes ([parseGitStatus], [main_new.go]) *)

(** One iteration of the [for _, line := range lines] loop. *)
Definition statusLine (changes : list GitChange) (line : string) : list GitChange :=
  if decide (TrimSpace line = "") then changes
  else if len line <? 3 then changes
  else
    let status := sliceTo line 2 in
    let file := TrimSpace (sliceFrom line 3) in
    changes ++ [mkGitChange file status "" ""].

Definition parseGitStatus (statusText : string) : list GitChange :=
  fold_left statusLine (Split statusText newline) [].

Definition loadGitChanges (repoPath : string) : IO Msg :=
  r ← runGit repoPath ["status"; "--porcelain"];
  let '(statusOutput, err) := r in
  match err with
  | Some e => ret (StatusMsg ("❌ Failed to get status: " +:+ e))
  | None => ret (GitChangesMsg (parseGitStatus statusOutput))
  end.

(** ** Staging, resetting, pushing and showing a diff ([main_new.go])

    As in [deleteBranch], the closure that a batch ends with, which returns
    a status message, is named by the text of the message. *)

(** [toggleStaging]; [strings.Title(action)] is [Unstaged] or [Staged]. *)
Definition toggleStaging (repoPath filePath : string) : IO Msg :=
  r ← runGit repoPath ["diff"; "--cached"; "--name-only"];
  let '(statusOutput, err) := r in
  match err with
  | Some e => ret (StatusMsg ("❌ Failed to check file status: " +:+ e))
  | None =>
      let stagedFiles := Split (TrimSpace statusOutput) newline in
      let isStaged := existsb (fun f => bool_decide (TrimSpace f = filePath)) stagedFiles in
      let gitCmd := if isStaged then ["reset"; "HEAD"; filePath] else ["add"; filePath] in
      let action := if isStaged then "unstaged" else "staged" in
      let title := if isStaged then "Unstaged" else "Staged" in
      r ← executeGitCommand repoPath gitCmd;
      let '(output, err) := r in
      match err with
      | Some e =>
          ret (StatusMsg ("❌ Failed to " +:+ action +:+ " file: " +:+ Error e +:+
                          " - " +:+ output))
      | None =>
          ret (BatchMsg [CmdLoadGitChanges repoPath; CmdLoadGitStatus repoPath;
                         CmdWidget ("✅ " +:+ title +:+ ": " +:+ filePath)])
      end
  end.

Definition gitReset (repoPath : string) : IO Msg :=
  r ← runGit repoPath ["status"; "--porcelain"];
  let '(statusOutput, err) := r in
  match err with
  | Some e => ret (StatusMsg ("❌ Failed to check git status: " +:+ e))
  | None =>
      let statusText := TrimSpace statusOutput in
      let stagedCount := (parseGitStatusOutput statusText).1.1 in
      if bool_decide (stagedCount = 0) then
        ret (StatusMsg "ℹ️ No staged changes to reset")
      else
        r ← executeGitCommand repoPath ["reset"; "HEAD"];
        let '(output, err) := r in
        match err with
        | Some e =>
            ret (StatusMsg ("❌ Git reset failed: " +:+ Error e +:+ " - " +:+ output))
        | None =>
            ret (StatusMsg ("✅ Reset " +:+ Itoa stagedCount +:+ " staged file(s)"))
        end
  end.

(** [gitPush]; the process group that the push is given is not modelled. *)
Definition gitPush (repoPath : string) : IO Msg :=
  r ← runGit repoPath ["status"; "--porcelain=v1"; "--branch"];
  let '(statusOutput, err) := r in
  match err with
  | Some e => ret (StatusMsg ("❌ Failed to check git status: " +:+ e))
  | None =>
      if negb (Contains statusOutput "ahead") then
        ret (StatusMsg "ℹ️ No commits to push")
      else
        c ← runGit repoPath ["log"; "-1"; "--oneline"];
        let lastCommit := TrimSpace c.1 in
        p ← runGit repoPath ["push"];
        let '(output, err) := p in
        match err with
        | Some e =>
            ret (StatusMsg ("❌ Git push failed: " +:+ e +:+ " - " +:+ output))
        | None =>
            ret (PushOutputMsg ("Push Output:" +:+ newline +:+ output +:+ newline +:+
                                newline +:+ "Last Commit:" +:+ newline +:+ lastCommit)
                   lastCommit)
        end
  end.

Definition viewDiff (repoPath filePath : string) : IO Msg :=
  r ← runGit repoPath ["diff"; "--cached"; filePath];
  r ← (if bool_decide (r.2 <> None) || bool_decide (len r.1 = 0)
       then runGit repoPath ["diff"; filePath]
       else ret r);
  let '(output, err) := r in
  match err with
  | Some e => ret (StatusMsg ("❌ Failed to get diff: " +:+ e))
  | None =>
      if bool_decide (len output = 0) then ret (StatusMsg "ℹ️ No changes to display")
      else ret (DiffMsg output)
  end.

(** ** The log ([loadHistory] and [loadRecentCommits], [main_new.go]) *)

Definition bar : ascii := "|"%char.

(** [parts := strings.Split(line, "|"); if len(parts) >= 4 { commits =
    append(commits, Commit{...}) }] *)
Definition historyLine (commits : list Commit) (line : string) : list Commit :=
  let parts := Split line "|" in
  if 4 <=? Z.of_nat (length parts) then
    commits ++ [mkCommit (nth 0 parts "") (nth 1 parts "") (nth 2 parts "") (nth 3 parts "")]
  else commits.

(** The loop of [loadRecentCommits] passes over empty lines first. *)
Definition recentLine (commits : list Commit) (line : string) : list Commit :=
  if bool_decide (line = "") then commits else historyLine commits line.

Definition logFormat : string := "--pretty=format:%h|%s|%an|%ar".

Definition loadHistory (repoPath : string) : IO Msg :=
  r ← runGit repoPath ["log"; "-20"; logFormat];
  let '(output, err) := r in
  match err with
  | Some e => ret (StatusMsg ("❌ Failed to load history: " +:+ e))
  | None => ret (CommitsMsg (fold_left historyLine (Split output newline) []))
  end.

Definition loadRecentCommits (repoPath : string) : IO Msg :=
  r ← runGit repoPath ["log"; "-3"; logFormat];
  let '(output, err) := r in
  match err with
  | Some _ => ret (RecentCommitsMsg [])
  | None => ret (RecentCommitsMsg (fold_left recentLine (Split output newline) []))
  end.

(** ** Resolving a conflict ([resolveConflict], [main_new.go])

    The closure starts with [if index >= len(m.conflicts) { return
    statusMsg{...} }; conflict := m.conflicts[index]] and then edits the file
    [conflict.Path]; [resolveTarget] is what those first lines leave it
    with. *)
Inductive Target :=
| TargetFile (conflict : ConflictFile)
| TargetInvalid (message : string)
| TargetPanic.

Definition resolveTarget (conflicts : list ConflictFile) (index : Z) : Target :=
  if Z.of_nat (length conflicts) <=? index
  then TargetInvalid "❌ Invalid conflict index"
  else match elemAt conflicts index with
       | Some conflict => TargetFile conflict
       | None => TargetPanic
       end.

(** * What the statements below speak of *)

(** ** Status texts *)

(** A line of a text holds no newline. *)
Definition newlineFree (s : string) : Prop := Contains s newline = false.

(** ** Lock contention *)

Definition lockFile (repoPath : string) : string :=
  Filepath.Join [repoPath; ".git"; "index.lock"].

(** What the k-th attempt from [w] on will find when it looks for the lock
    file, and what the j-th invocation from [w] on will return. *)
Definition lockedAt (w : World) (repoPath : string) (k : nat) : bool :=
  statAnswer w (statsSoFar w + k)%nat (lockFile repoPath).

Definition invocation (w : World) (repoPath : string) (args : list string) (j : nat)
  : string * option string :=
  runAnswer w (runsSoFar w + j)%nat repoPath args.

Definition lockFailure (r : string * option string) : bool :=
  bool_decide (r.2 <> None) && Contains r.1 "index.lock".

(** The attempts (one look at the lock file each) and the invocations made
    between two worlds. *)
Definition attempts (w w' : World) : nat := (statsSoFar w' - statsSoFar w)%nat.

Definition invocations (w w' : World) : nat := (runsSoFar w' - runsSoFar w)%nat.

(** A world whose lock file is there once and then gone, and whose first
    invocation succeeds. *)
Definition lockedOnce : World :=
  mkWorld (fun k _ => bool_decide (k = 0%nat))
          (fun _ _ _ => ("ok", None))
          (fun _ => None)
          [].

(** A world whose lock file is there once and then gone, while another
    process still holds the index: the invocation made once the file is
    gone fails on the lock, and the one after it succeeds. *)
Definition lockGoneButBusy : World :=
  mkWorld (fun k _ => bool_decide (k = 0%nat))
          (fun j _ _ =>
             if bool_decide (j = 0%nat)
             then ("fatal: Unable to create '/repo/.git/index.lock': File exists.",
                   Some "exit status 128")
             else ("ok", None))
          (fun _ => None)
          [].

(** ** The rules for a modified file, as the specification lists them *)

Definition docLike (file : string) : bool :=
  HasSuffix file ".md" || Contains file "README" || Contains file "doc".

Definition testLike (file : string) : bool :=
  Contains file "test" || HasSuffix file "_test.go" || HasSuffix file ".test.js".

Definition configLike (file : string) : bool :=
  Contains file "config" ||
  existsb (HasSuffix file) [".json"; ".yaml"; ".yml"; ".toml"; ".env"] ||
  oneOf (Filepath.Base file) ["Dockerfile"; "Makefile"].

Definition manifestFile (file : string) : bool :=
  oneOf (Filepath.Base file)
    ["package.json"; "go.mod"; "requirements.txt"; "Cargo.toml"; "pom.xml"].

Definition modifiedRules (file : string) (diff : DiffInfo) : string :=
  let added := LinesAdded diff in
  let removed := LinesRemoved diff in
  if docLike file then "docs"
  else if testLike file then "test"
  else if configLike file then "chore"
  else if manifestFile file then
    match Imports diff with [] => "chore" | _ :: _ => "feat" end
  else if added <? removed then "fix"
  else if match Functions diff with [] => false | _ :: _ => true end
          || (2 * removed <? added) then "feat"
  else if (Z.abs (added - removed) <? 10) && (0 <? added) && (0 <? removed) then "refactor"
  else if added + removed <? 10 then "fix"
  else "feat".

(** The counters of a diff are counts of lines: neither is negative, and
    together they are at most [n]. *)
Definition countsOk (n : Z) (i : DiffInfo) : Prop :=
  0 <= LinesAdded i /\ 0 <= LinesRemoved i /\ LinesAdded i + LinesRemoved i <= n.

(** The number of lines of a text. *)
Definition lineCount (text : string) : Z := Z.of_nat (length (Split text newline)).

(** Counters at which the 64-bit product wraps around. *)
Definition hugeDiff : DiffInfo :=
  mkDiffInfo (2 ^ 62) (2 ^ 62) [] [] false false [] [] [] "".

(** ** Topic counters *)

Definition topicCounters (m : gmap string Z) : Prop :=
  forall k v, m !! k = Some v -> k ∈ topics /\ 0 < v.

Definition tiedDiff : string := "+func ValidateToken(t string) bool {".

(** ** Aggregated suggestions *)

(** How many of the suggestions have the type [t]. *)
Definition typeCount (t : string) (l : list CommitSuggestion) : Z :=
  Z.of_nat (length (List.filter (fun s => bool_decide (SuggestionType s = t)) l)).

(** What the aggregators have in common, for a cap and a limit with
    [cap + 1 <= limit]. *)
Definition aggregated (cap limit : nat) (combined : CommitSuggestion)
    (individual result : list CommitSuggestion) : Prop :=
  result = truncateTo limit
             (combined :: (if decide (length individual <= cap)%nat then individual else []))
  /\ result = combined :: (if decide (length individual <= cap)%nat then individual else [])
  /\ (1 <= length result <= 9)%nat.

(** A repository in which every [git] invocation prints the same one-line
    diff. *)
Definition oneLineRepo : World :=
  mkWorld (fun _ _ => false)
          (fun _ _ _ => ("+func ValidateToken(t string) bool {", None))
          (fun _ => None)
          [].

Definition plainOrders : Orders := mkOrders (fun _ => id) id id.

Definition loginChange : GitChange := mkGitChange "src/auth/login.go" "M " "" "".

Definition fixedAnalysis (change : GitChange) : IO FileAnalysis :=
  ret (mkFileAnalysis "feat" ("feat: modify " +:+ File change) "").

(** ** Levels of the escape key *)

(** A toolkit to run the state machine on concrete models: a table is its
    cursor and its number of rows; a new table has no rows and its cursor is
    0; [down] and [up] move the cursor by one and bring it back between 0 and
    the last row, in that order, so that on a table without rows the cursor
    becomes -1; new rows leave the cursor where it is. *)
Definition clamp (v low high : Z) : Z := Z.min (Z.max v low) high.

Global Instance plainToolkit : Toolkit := {|
  Table := Z * nat;
  NewTable := fun _ => (0, 0%nat);
  Cursor := fun t => t.1;
  SetRows := fun n t => (t.1, n);
  SetHeight := fun _ t => t;
  SetColumns := fun _ t => t;
  TableUpdate := fun msg t =>
    match msg with
    | KeyMsg key =>
        if bool_decide (key = "down") || bool_decide (key = "j")
        then ((clamp (t.1 + 1) 0 (Z.of_nat t.2 - 1), t.2), None)
        else if bool_decide (key = "up") || bool_decide (key = "k")
        then ((clamp (t.1 - 1) 0 (Z.of_nat t.2 - 1), t.2), None)
        else (t, None)
    | _ => (t, None)
    end;
  InputUpdate := fun _ i => (i, None)
|}.

(** Case tables to run the diff analyzer on concrete texts: they hold the
    ASCII letters only, and a byte from 128 up stays as it is. *)
Definition plainUnicode : Unicode := {| MapToLower := lowerASCII |}.

(** The Kelvin sign, U+212A, in UTF-8, and case tables that hold it beside
    the ASCII letters: [unicode.ToLower] maps it to [k]. *)
Definition kelvin : string :=
  String (ascii_of_nat 226) (String (ascii_of_nat 132) (String (ascii_of_nat 170) "")).

Fixpoint lowerKelvin (s : string) : string :=
  match s with
  | EmptyString => EmptyString
  | String a r =>
      match r with
      | String b (String c r') =>
          if bool_decide (String a (String b (String c "")) = kelvin)
          then String "k" (lowerKelvin r')
          else String (lowerByte a) (lowerKelvin r)
      | _ => String (lowerByte a) (lowerKelvin r)
      end
  end.

Definition kelvinUnicode : Unicode := {| MapToLower := lowerKelvin |}.

(** An added line that spells [token] with the Kelvin sign. *)
Definition kelvinLine : string := "+to" +:+ kelvin +:+ "en".

(** Levels are counted: [one b] is 1 when [b] holds. *)
Definition one (b : bool) : Z := if b then 1 else 0.
Arguments one : simpl never.

Section EscapeViews.

Context {toolkit : Toolkit}.

(** The three kinds of level, outermost last. *)
Definition inputsFocused (m : model) : Z :=
  one (Focused (commitInput m)) + one (Focused (branchInput m)) +
  one (Focused (rebaseInput m)).

Definition diffOpen (m : model) : bool := bool_decide (viewMode m = "diff").

Definition comparisonOpen (m : model) : bool := bool_decide (branchComparison m <> None).

Definition toolOpen (m : model) : bool :=
  bool_decide (tab m = "tools") && bool_decide (toolMode m <> "menu").

Definition subViewsOpen (m : model) : Z :=
  one (diffOpen m) + one (comparisonOpen m) + one (toolOpen m).

Definition tokenPending (m : model) : bool := bool_decide (confirmAction m <> "").

(** The escape key pressed at the times [times], one press after the
    other. *)
Definition escapes (times : list Z) (m : model) : model :=
  fold_left (fun m now => (handleKeyPress now "esc" m).1) times m.

End EscapeViews.

(** The state the specification's escape sequence starts in: the diff view
    is open and a branch deletion awaits its confirmation. *)
Definition diffWithToken : model :=
  set_confirmAction "delete-branch:feature" (set_viewMode "diff" (initialModel "/repo")).

(** ** Commits and the staging area *)

Definition stagedCheck : list string := ["diff"; "--cached"; "--name-only"].

(** An invocation of [git commit]. *)
Definition isCommit (e : Event) : bool :=
  match e with
  | EvRun _ ("commit" :: _) _ _ => true
  | _ => false
  end.

(** What a command added to the record of the world. *)
Definition newEvents (w w' : World) : list Event :=
  List.skipn (length (events w)) (events w').

(** A repository with nothing staged: the listing prints nothing. *)
Definition nothingStaged : World :=
  mkWorld (fun _ _ => false) (fun _ _ _ => ("", None)) (fun _ => None) [].

(** ** Lines of a diff *)

Definition addedLine (line : string) : bool :=
  HasPrefix line "+" && negb (HasPrefix line "+++").
Definition removedLine (line : string) : bool :=
  HasPrefix line "-" && negb (HasPrefix line "---").


(** ** The login example *)

Definition loginFile : string := "src/auth/login.go".






(** The same change with the declaration as the only added line. *)
Definition loginDiffOneLine : string :=
  Join [ "-func check(s string) bool {";
         "-  return len(s) > 0";
         "-}";
         "+func ValidateToken(token string) bool {" ] newline.

(** ** Conflicts *)

(** A merge stopped on one file whose only conflict the user has since
    edited away by hand or not: the flag of the file is what counts. *)
Definition conflictedContent : string :=
  Join [ "<<<<<<< HEAD"; "ours"; "======="; "theirs"; ">>>>>>> feature" ] newline.

Definition mergingRepo : World :=
  mkWorld (fun _ _ => false)
          (fun _ _ _ => ("a.txt" +:+ newline, None))
          (fun path => if bool_decide (path = "/repo/a.txt") then Some conflictedContent
                       else None)
          [].

(** ** Branch deletion *)

Definition deleteToken (name : string) : string := "delete-branch:" +:+ name.

(** The confirmation tokens of the other destructive actions. *)
Definition otherTokens : list string :=
  [""; "soft-reset"; "mixed-reset"; "hard-reset"; "execute-rebase"].

(** A command that, alone or within a batch, deletes the branch [name]. *)
Inductive deletes (name : string) : Cmd -> Prop :=
| deletes_here (repo : string) : deletes name (CmdDeleteBranch repo name)
| deletes_batch (cmds : list Cmd) (c : Cmd) :
    c ∈ cmds -> deletes name c -> deletes name (CmdBatch cmds).

Section BranchDeleteViews.

Context {toolkit : Toolkit}.

(** What one step may do to the token, and when it may issue a deletion. *)
Definition tokenStep (msg : Msg) (m m' : model) : Prop :=
  confirmAction m' = confirmAction m \/
  confirmAction m' ∈ otherTokens \/
  (msg = KeyMsg "d" /\
   exists branch, selected (branches m) (branchesTable m) = Some branch /\
     IsCurrent branch = false /\ confirmAction m' = deleteToken (Name branch)).

Definition deleteStep (msg : Msg) (m : model) (r : model * Cmd) : Prop :=
  forall name, deletes name r.2 ->
    msg = KeyMsg "y" /\ confirmAction m = deleteToken name /\ confirmAction r.1 = "".

Definition safeStep (msg : Msg) (m : model) (r : model * Cmd) : Prop :=
  tokenStep msg m r.1 /\ deleteStep msg m r.

End BranchDeleteViews.

Definition featureBranch (current : bool) : Branch := mkBranch "feature" current "" 0 0.

Definition mainBranch (current : bool) : Branch := mkBranch "main" current "" 0 0.

(** The branches tab with [main] checked out and the cursor on it. *)
Definition onMain : model :=
  run 0 [KeyMsg "3"; BranchesMsg [featureBranch false; mainBranch true]; KeyMsg "down"]
    (initialModel "/repo").

(** The token outlives a switch to the branch it names. *)
Definition switchedToFeature : model :=
  run 0 [KeyMsg "3"; BranchesMsg [featureBranch false; mainBranch true];
         KeyMsg "d"; KeyMsg "enter";
         BranchesMsg [featureBranch true; mainBranch false]]
    (initialModel "/repo").

(** ** Escape with more than one sub-view open *)

(** A deletion of [feature] awaits its confirmation, the comparison with
    [main] asked for in the branches tab is still open behind the workspace
    tab, and the diff of a file is in view. *)
Definition diffOverComparison : model :=
  run 0 [KeyMsg "3"; BranchesMsg [featureBranch false; mainBranch true];
         KeyMsg "d"; KeyMsg "c";
         ComparisonMsg (mkBranchComparison "feature" "main" [] [] []);
         KeyMsg "1"; GitChangesMsg [mkGitChange "a.go" " M" "" ""]; KeyMsg "d"]
    (initialModel "/repo").

(** The diff view of [main.go] with the same deletion pending. *)
Definition legacyDiffWithToken : MainGoKeys.model :=
  MainGoKeys.mkModel "diff" [featureBranch false; mainBranch true] 0
    newTextInput newTextInput newTextInput "delete-branch:feature".

(** ** More on the classifier and the scope *)

(** The types of the conventional commits the classifier knows. *)
Definition conventionalTypes : list string :=
  ["feat"; "fix"; "docs"; "test"; "refactor"; "chore"].

(** A piece between two separators: it holds no byte [c]. *)
Definition free (c : ascii) (s : string) : Prop := Contains s (String c "") = false.

Definition slash : ascii := "/"%char.

(** ** Changes and counts *)

(** A change that the counter of staged entries counts, and one that the
    counter of unstaged entries counts. *)
Definition stagedChange (change : GitChange) : bool :=
  match Status change with
  | String x _ => bool_decide (x <> space) && bool_decide (x <> question)
  | EmptyString => false
  end.

Definition unstagedChange (change : GitChange) : bool :=
  match Status change with
  | String _ (String y _) => bool_decide (y <> space)
  | _ => false
  end.

(** A line of [git status --porcelain]: two status bytes, a blank and a
    path, or nothing but white space. *)
Definition porcelainLine (line : string) : Prop := TrimSpace line = "" \/ 3 <= len line.

(** ** Conflict markers *)

Definition opens (line : string) : bool := HasPrefix line "<<<<<<< ".
Definition divides (line : string) : bool := HasPrefix line "=======".
Definition closes (line : string) : bool := HasPrefix line ">>>>>>> ".

(** A line of one side of a conflict: no marker. *)
Definition plain (line : string) : Prop :=
  opens line = false /\ divides line = false /\ closes line = false.

(** The lines of one conflict between [ours] and [theirs]. *)
Definition conflictBlock (ourName theirName : string) (ours theirs : list string)
  : list string :=
  ["<<<<<<< " +:+ ourName] ++ ours ++ ["======="] ++ theirs ++ [">>>>>>> " +:+ theirName].

Definition countIf {A : Type} (f : A -> bool) (l : list A) : Z :=
  Z.of_nat (length (List.filter f l)).

(** The lists of a [DiffInfo] name each thing once, and no function,
    variable or import has the empty name; the keywords are words of the
    vocabularies. *)
Definition tidy (info : DiffInfo) : Prop :=
  NoDup (Functions info) /\ NoDup (Variables info) /\ NoDup (Imports info) /\
  NoDup (Keywords info) /\
  ("" ∉ Functions info) /\ ("" ∉ Variables info) /\ ("" ∉ Imports info) /\
  (forall k, k ∈ Keywords info -> exists voc, voc ∈ vocabularies /\ k ∈ voc.2).

(** The scans of the vocabularies touch the keywords and nothing else. *)
Definition scanned (old new : DiffInfo) (words : list string) : Prop :=
  exists ks, new = setKeywords ks old /\
    (NoDup (Keywords old) -> NoDup ks) /\
    (forall k, k ∈ ks -> k ∈ Keywords old \/ k ∈ words).

(** ** What a command ran and how long it slept *)

Definition runsOf (evs : list Event) : list (list string) :=
  omap (fun e => match e with EvRun _ argv _ _ => Some argv | _ => None end) evs.

Definition sleepsOf (evs : list Event) : list Z :=
  omap (fun e => match e with EvSleep ms => Some ms | _ => None end) evs.

(** The line of the log for a commit. *)
Definition logLine (c : Commit) : string :=
  Hash c +:+ "|" +:+ Message c +:+ "|" +:+ Author c +:+ "|" +:+ Date c.

Definition logField (s : string) : Prop := free bar s /\ newlineFree s.

Definition loggable (c : Commit) : Prop :=
  logField (Hash c) /\ logField (Message c) /\ logField (Author c) /\ logField (Date c).

(** A repository whose index stays locked. *)
Definition alwaysLocked : World :=
  mkWorld (fun _ _ => true) (fun _ _ _ => ("", None)) (fun _ => None) [].

Definition total (l : list Z) : Z := foldr Z.add 0 l.

(** [n] delays that start at [d] and double. *)
Fixpoint doubling (d : Z) (n : nat) : list Z :=
  match n with
  | O => []
  | S n => d :: doubling (d * 2) n
  end.

(** ** The commands of the workspace *)

Definition statusCheck : list string := ["status"; "--porcelain"].
Definition branchCheck : list string := ["status"; "--porcelain=v1"; "--branch"].

(** A repository with one file modified and not staged. *)
Definition oneUnstaged : World :=
  mkWorld (fun _ _ => false) (fun _ _ _ => (" M a.go" +:+ newline, None)) (fun _ => None) [].

(** A repository whose branch is level with its upstream. *)
Definition upToDate : World :=
  mkWorld (fun _ _ => false) (fun _ _ _ => ("## main...origin/main" +:+ newline, None))
    (fun _ => None) [].

(** A repository in which every [git] prints the same staged diff. *)
Definition stagedDiff : World :=
  mkWorld (fun _ _ => false) (fun _ _ _ => ("+x", None)) (fun _ => None) [].

(** ** Where a command comes from *)

(** [issued c r]: the command [c] is what a step returned, or part of the
    batch it returned. *)
Inductive issued (c : Cmd) : Cmd -> Prop :=
| issued_here : issued c c
| issued_batch (cmds : list Cmd) (c' : Cmd) :
    c' ∈ cmds -> issued c c' -> issued c (CmdBatch cmds).

Section Provenance.

Context {toolkit : Toolkit}.

(** The key [y] pressed in a sub-mode of the tools tab while the token of
    the action is pending. *)
Definition confirmed (msg : Msg) (m : model) (token mode : string) : Prop :=
  msg = KeyMsg "y" /\ confirmAction m = token /\ tab m = "tools" /\ toolMode m = mode.

(** What has to hold of the message, of the state [m] before the step and
    of the state [m'] after it for the step to issue the command. *)
Definition allowed (msg : Msg) (m m' : model) (c : Cmd) : Prop :=
  match c with
  | CmdQuit => msg = KeyMsg "ctrl+c" \/ (msg = KeyMsg "q" /\ anyInputFocused m = false)
  | CmdSoftReset repo count =>
      confirmed msg m "soft-reset" "undo" /\ repo = repoPath m /\ count = 1 /\
      confirmAction m' = ""
  | CmdMixedReset repo count =>
      confirmed msg m "mixed-reset" "undo" /\ repo = repoPath m /\ count = 1 /\
      confirmAction m' = ""
  | CmdHardReset repo count =>
      confirmed msg m "hard-reset" "undo" /\ repo = repoPath m /\ count = 1 /\
      confirmAction m' = ""
  | CmdExecuteRebase => confirmed msg m "execute-rebase" "rebase" /\ confirmAction m' = ""
  | CmdCommitWithMessage repo message =>
      tab m = "commit" /\ repo = repoPath m /\
      ((msg = KeyMsg "enter" /\ Focused (commitInput m) = true /\
        message = Value (commitInput m) /\ message <> "" /\
        commitInput m' = mkTextInput false "") \/
       ((msg = KeyMsg "enter" \/ msg = KeyMsg " ") /\ Focused (commitInput m) = false /\
        0 < selectedSuggestion m /\
        exists suggestion,
          suggestions m !! Z.to_nat (selectedSuggestion m - 1) = Some suggestion /\
          message = SuggestionMessage suggestion))
  | CmdLoadRebaseCommits repo count =>
      msg = KeyMsg "enter" /\ tab m = "tools" /\ toolMode m = "rebase" /\
      Atoi (Value (rebaseInput m)) = Some count /\ 1 <= count <= 50 /\
      rebaseInput m' = mkTextInput false ""
  | CmdContinueMerge repo =>
      msg = KeyMsg "c" /\ tab m = "workspace" /\ viewMode m = "conflicts" /\
      conflicts m <> [] /\ allConflictsResolved m = true
  | CmdResolveConflict repo files index resolution =>
      tab m = "workspace" /\ viewMode m = "conflicts" /\ files = conflicts m /\
      index = Cursor (conflictsTable m) /\ index < Z.of_nat (length files) /\
      resolution ∈ ["ours"; "theirs"; "both"]
  | CmdSwitchBranch repo name =>
      msg = KeyMsg "enter" /\ tab m = "branches" /\
      exists branch, selected (branches m) (branchesTable m) = Some branch /\
        Name branch = name /\ IsCurrent branch = false
  | CmdCreateBranch repo name =>
      msg = KeyMsg "enter" /\ tab m = "branches" /\ Focused (branchInput m) = true /\
      name = Value (branchInput m) /\ name <> "" /\ branchInput m' = mkTextInput false ""
  | CmdLoadBranchComparison repo target =>
      msg = KeyMsg "c" /\ tab m = "branches" /\ target = compareTarget "main" (branches m)
  | CmdToggleStaging repo file | CmdViewDiff repo file =>
      tab m = "workspace" /\
      exists change, selected (changes m) (filesTable m) = Some change /\ File change = file
  | _ => True
  end.

Definition allAllowed (msg : Msg) (m : model) (r : model * Cmd) : Prop :=
  forall c, issued c r.2 -> allowed msg m r.1 c.

End Provenance.

(** The undo view with the soft reset awaiting its confirmation: the tools
    tab, [enter] on the first tool, [enter] on the first kind of undo. *)
Definition softResetPending : model :=
  run 0 [KeyMsg "4"; KeyMsg "enter"; KeyMsg "enter"] (initialModel "/repo").

(** The commit tab with a message typed into the focused input. *)
Definition typedMessage : model :=
  set_commitInput (mkTextInput true "fix: typo") (set_tab "commit" (initialModel "/repo")).

(** The rebase view with a count typed into the focused input. *)
Definition typedCount (n : Z) : model :=
  set_rebaseInput (mkTextInput true (Itoa n))
    (set_toolMode "rebase" (set_tab "tools" (initialModel "/repo"))).

(** The conflicts view with one file that is flagged as resolved. *)
Definition flaggedResolved : model :=
  (Update 0 (ConflictsMsg [mkConflictFile "a.txt" [mkConflict 0 ["ours"] ["theirs"]] true])
     (initialModel "/repo")).1.

(** The files view with two changes and the cursor on the first. *)
Definition twoChanges : model :=
  (Update 0 (GitChangesMsg [mkGitChange "a.go" " M" "" ""; mkGitChange "b.go" "??" "" ""])
     (initialModel "/repo")).1.

(** The same two changes, listed after [down] was pressed on the table while
    it had no rows. *)
Definition downBeforeChanges : model :=
  run 0 [KeyMsg "down";
         GitChangesMsg [mkGitChange "a.go" " M" "" ""; mkGitChange "b.go" "??" "" ""]]
    (initialModel "/repo").

(** ** The shape of a state and of a step *)

Definition tabs : list string := ["workspace"; "commit"; "branches"; "tools"].
Definition toolModes : list string := ["menu"; "undo"; "rebase"; "history"; "remote"].
Definition viewModes : list string := ["files"; "diff"; "conflicts"].
Definition actionTokens : list string :=
  ["soft-reset"; "mixed-reset"; "hard-reset"; "execute-rebase"].

(** A confirmation token: none, the name of an action, or the deletion of
    a branch. *)
Definition tokenShape (token : string) : Prop :=
  token = "" \/ token ∈ actionTokens \/ HasPrefix token "delete-branch:" = true.

Section Shape.

Context {toolkit : Toolkit}.

Definition wellFormed (wd : string) (m : model) : Prop :=
  tab m ∈ tabs /\ toolMode m ∈ toolModes /\ viewMode m ∈ viewModes /\
  -1 <= selectedSuggestion m /\ tokenShape (confirmAction m) /\ repoPath m = wd.

(** What a step may do to the tab: leave it, or follow one of the keys [1]
    to [4] while no input is focused. *)
Definition tabStep (msg : Msg) (m m' : model) : Prop :=
  tab m' = tab m \/
  (anyInputFocused m = false /\
   ((msg = KeyMsg "1" /\ tab m' = "workspace" /\ viewMode m' = "files") \/
    (msg = KeyMsg "2" /\ 0 < StagedFiles (gitState m) /\ tab m' = "commit" /\
     selectedSuggestion m' = 0) \/
    (msg = KeyMsg "3" /\ tab m' = "branches" /\ branchComparison m' = None) \/
    (msg = KeyMsg "4" /\ tab m' = "tools" /\ toolMode m' = "menu"))).

(** What a step may do to the token: leave it, clear it on [esc] or [y], or
    set it on [enter] in the tools tab or on [d] in the branches tab. *)
Definition tokenMove (msg : Msg) (m m' : model) : Prop :=
  confirmAction m' = confirmAction m \/
  ((msg = KeyMsg "esc" \/ msg = KeyMsg "y") /\ confirmAction m' = "") \/
  (msg = KeyMsg "enter" /\ tab m = "tools" /\ confirmAction m' ∈ actionTokens) \/
  (msg = KeyMsg "d" /\ tab m = "branches" /\
   HasPrefix (confirmAction m') "delete-branch:" = true).

End Shape.

(** A state with the token of the hard reset pending, shown the branches. *)
Definition staleToken : model :=
  set_tab "branches" (set_confirmAction "hard-reset" (initialModel "/repo")).

(** ** Typed text and the targets of commands *)

(** A change that [hasConflicts] takes for a conflict. *)
Definition conflictStatus (change : GitChange) : Prop :=
  Contains (Status change) "U" = true \/ Contains (Status change) "A" = true.

(** The branches tab with a name typed into the focused input. *)
Definition typedBranch : model :=
  set_branchInput (mkTextInput true "feature/login")
    (set_tab "branches" (initialModel "/repo")).

(** The branches tab of a repository that has a [master] and no [main]. *)
Definition masterOnly : model :=
  run 0 [KeyMsg "3"; BranchesMsg [mkBranch "dev" true "" 0 0; mkBranch "master" false "" 0 0]]
    (initialModel "/repo").

(** ** Suggestions and conflicts *)

(** The two invocations that read the diff of a file. *)
Definition diffOf (file : string) (argv : list string) : Prop :=
  argv = ["diff"; "--cached"; file] \/ argv = ["diff"; file].

Definition conflictCheck : list string := ["diff"; "--name-only"; "--diff-filter=U"].

(** A conflicted file as [loadConflicts] lists it: a name, the conflicts
    that the markers of its content show, of which there is one at least,
    and the flag unset. *)
Definition listedConflict (repoPath : string) (w : World) (file : ConflictFile) : Prop :=
  Path file <> "" /\ IsResolved file = false /\ Conflicts file <> [] /\
  exists content,
    fileContent w (Filepath.Join [repoPath; Path file]) = Some content /\
    Conflicts file = parseConflictMarkers content.
(** * Properties

    Sanity checks of the string helpers on concrete inputs. *)

Example split_lines :
  Split ("a" +:+ newline +:+ "b" +:+ newline) newline = ["a"; "b"; ""].
Proof. reflexivity. Qed.

Example trim_space_example :
  TrimSpace ("  +x y " +:+ newline) = "+x y".
Proof. reflexivity. Qed.

Example fields_example : Fields " func  (r *T) Name(x) " = ["func"; "(r"; "*T)"; "Name(x)"].
Proof. reflexivity. Qed.

Example itoa_example : Itoa 120 = "120" /\ Itoa 0 = "0" /\ Itoa (-7) = "-7".
Proof. repeat split. Qed.

Example parse_status_example : parseGitStatusOutput statusExample = (1, 2, false).
Proof. reflexivity. Qed.

(** ** Strings: append, reverse, split and join *)

Lemma append_cons (c : ascii) (s t : string) : String c s +:+ t = String c (s +:+ t).
Proof. reflexivity. Qed.

Lemma append_nil_l (t : string) : "" +:+ t = t.
Proof. reflexivity. Qed.

Lemma append_assoc (a b c : string) : (a +:+ b) +:+ c = a +:+ (b +:+ c).
Proof. induction a as [|x a IH]; [done|]. by rewrite !append_cons, IH. Qed.

Lemma append_nil_r (a : string) : a +:+ "" = a.
Proof. induction a as [|x a IH]; [done|]. by rewrite append_cons, IH. Qed.

Lemma rev_app_spec (s acc : string) :
  String.rev_app s acc = String.rev_app s "" +:+ acc.
Proof.
  revert acc. induction s as [|c s IH]; intros acc; simpl; [done|].
  rewrite IH. rewrite (IH (String c "")).
  by rewrite append_assoc, append_cons, append_nil_l.
Qed.

Lemma rev_cons (c : ascii) (s : string) :
  String.rev (String c s) = String.rev s +:+ String c "".
Proof. unfold String.rev. simpl. apply rev_app_spec. Qed.

Lemma HasPrefix_newline (c : ascii) (s : string) :
  HasPrefix (String c s) newline = bool_decide (c = "010"%char).
Proof.
  unfold newline. cbn [HasPrefix].
  destruct (decide ("010"%char = c)) as [<-|Hc].
  - destruct s; by rewrite bool_decide_eq_true_2.
  - by rewrite bool_decide_eq_false_2 by congruence.
Qed.

Lemma newlineFree_cons c s :
  newlineFree (String c s) <-> c <> "010"%char /\ newlineFree s.
Proof.
  unfold newlineFree. cbn [Contains]. rewrite HasPrefix_newline.
  case_bool_decide as Hc; simpl.
  - split; [done|]. by intros [H _].
  - split; [by intros H | by intros [_ H]].
Qed.

Lemma Split_go_line (acc l : string) :
  newlineFree l ->
  Split_go newline 0 acc l = [String.rev acc +:+ l].
Proof.
  revert acc. induction l as [|c l IH]; intros acc Hl.
  - simpl. by rewrite append_nil_r.
  - apply newlineFree_cons in Hl as [Hc Hl].
    cbn [Split_go]. rewrite HasPrefix_newline, bool_decide_eq_false_2 by done.
    rewrite IH by done. rewrite rev_cons, append_assoc. done.
Qed.

Lemma Split_go_more (acc l rest : string) :
  newlineFree l ->
  Split_go newline 0 acc (l +:+ newline +:+ rest)
  = (String.rev acc +:+ l) :: Split_go newline 0 "" rest.
Proof.
  revert acc. induction l as [|c l IH]; intros acc Hl.
  - rewrite append_nil_l, append_nil_r.
    change (newline +:+ rest) with (String "010"%char rest).
    cbn [Split_go]. by rewrite HasPrefix_newline, bool_decide_eq_true_2.
  - apply newlineFree_cons in Hl as [Hc Hl].
    rewrite append_cons.
    cbn [Split_go]. rewrite HasPrefix_newline, bool_decide_eq_false_2 by done.
    rewrite IH by done. rewrite rev_cons, append_assoc. done.
Qed.

Lemma Split_Join (ls : list string) :
  ls <> [] -> Forall newlineFree ls -> Split (Join ls newline) newline = ls.
Proof.
  unfold Split. induction ls as [|l ls IH]; [done|]. intros _ Hall.
  apply Forall_cons in Hall as [Hl Hls].
  destruct ls as [|l' ls].
  - simpl. by rewrite Split_go_line.
  - change (Join (l :: l' :: ls) newline) with (l +:+ newline +:+ Join (l' :: ls) newline).
    rewrite Split_go_more by done. f_equal. apply IH; done.
Qed.

(** ** The status parser counts line by line *)

Lemma countStatusLine_add (acc : Z * Z) (line : string) :
  countStatusLine acc line =
  (acc.1 + (countStatusLine (0, 0) line).1, acc.2 + (countStatusLine (0, 0) line).2).
Proof.
  destruct acc as [s u]. unfold countStatusLine.
  destruct (decide (TrimSpace line = "")); [simpl; f_equal; lia|].
  destruct (2 <=? len line); [|simpl; f_equal; lia].
  destruct line as [|x [|y rest]]; [simpl; f_equal; lia..|].
  repeat case_match; simpl; f_equal; lia.
Qed.

Lemma fold_counts_from (ls : list string) (acc : Z * Z) :
  fold_left countStatusLine ls acc =
  (acc.1 + (fold_left countStatusLine ls (0, 0)).1,
   acc.2 + (fold_left countStatusLine ls (0, 0)).2).
Proof.
  revert acc. induction ls as [|l ls IH]; intros acc.
  - destruct acc; simpl; f_equal; lia.
  - cbn [fold_left]. rewrite IH. rewrite (IH (countStatusLine (0, 0) l)).
    rewrite (countStatusLine_add acc). cbn [fst snd]. f_equal; lia.
Qed.

Lemma fold_counts_insert (before after : list string) (line : string) :
  fold_left countStatusLine (before ++ line :: after) (0, 0) =
  ((fold_left countStatusLine (before ++ after) (0, 0)).1 + (countStatusLine (0, 0) line).1,
   (fold_left countStatusLine (before ++ after) (0, 0)).2 + (countStatusLine (0, 0) line).2).
Proof.
  rewrite !fold_left_app. cbn [fold_left].
  set (a := fold_left countStatusLine before (0, 0)).
  rewrite (fold_counts_from after (countStatusLine a line)).
  rewrite (fold_counts_from after a).
  rewrite (countStatusLine_add a). cbn [fst snd]. f_equal; lia.
Qed.

Lemma Join_empty (ls : list string) :
  Join ls newline = "" -> ls = [] \/ ls = [""].
Proof.
  destruct ls as [|l [|l' ls]]; simpl; [by left | intros ->; by right |].
  destruct l; discriminate.
Qed.

Lemma parse_Join (ls : list string) :
  Forall newlineFree ls ->
  (parseGitStatusOutput (Join ls newline)).1 = fold_left countStatusLine ls (0, 0).
Proof.
  intros Hall. unfold parseGitStatusOutput.
  destruct (decide (Join ls newline = "")) as [E|NE].
  - by destruct (Join_empty _ E) as [-> | ->].
  - rewrite Split_Join; [|by intros -> | done].
    by destruct (fold_left countStatusLine ls (0, 0)).
Qed.

Lemma parse_clean_false (s : string) :
  s <> "" -> (parseGitStatusOutput s).2 = false.
Proof.
  intros H. unfold parseGitStatusOutput. destruct (decide (s = "")); [done|].
  by destruct (fold_left _ _ _).
Qed.

Lemma Join_insert_nonempty (before after : list string) (line : string) :
  line <> "" -> Join (before ++ line :: after) newline <> "".
Proof.
  intros Hl E. apply Join_empty in E as [E|E].
  - by destruct before.
  - destruct before as [|b [|? ?]]; simplify_eq/=; by destruct after.
Qed.

Lemma countStatusLine_entry (X Y : ascii) (path : string) :
  TrimSpace (String X (String Y path)) <> "" ->
  countStatusLine (0, 0) (String X (String Y path)) =
  ((if bool_decide (X <> space /\ X <> question) then 1 else 0),
   (if bool_decide (Y <> space) then 1 else 0)).
Proof.
  intros Hnb. unfold countStatusLine.
  destruct (decide _) as [E|_]; [done|].
  assert ((2 <=? len (String X (String Y path))) = true) as ->.
  { apply Z.leb_le. unfold len. simpl String.length. lia. }
  rewrite bool_decide_and.
  by destruct (bool_decide (X <> space)), (bool_decide (X <> question)),
    (bool_decide (Y <> space)).
Qed.

Lemma countStatusLine_blank (blank : string) :
  TrimSpace blank = "" -> countStatusLine (0, 0) blank = (0, 0).
Proof. intros E. unfold countStatusLine. by destruct (decide _). Qed.

(** C1.  Putting a line [XY path] anywhere into a porcelain status text
    raises the staged count by one exactly when [X] is neither a blank nor
    [?], and the unstaged count by one exactly when [Y] is not a blank;
    putting a blank line anywhere changes neither count; and the text
    ["M  a.go\n?? b.go\n D c.go\n"] gives staged = 1 and unstaged = 2.
    A text is spoken of through its lines: [Join lines newline]. *)
Theorem parseGitStatusOutput_counts_lines :
  (forall (before after : list string) (X Y : ascii) (path : string),
     Forall newlineFree (before ++ String X (String Y path) :: after) ->
     TrimSpace (String X (String Y path)) <> "" ->
     parseGitStatusOutput (Join (before ++ String X (String Y path) :: after) newline) =
     (stagedOf (parseGitStatusOutput (Join (before ++ after) newline))
        + (if bool_decide (X <> space /\ X <> question) then 1 else 0),
      unstagedOf (parseGitStatusOutput (Join (before ++ after) newline))
        + (if bool_decide (Y <> space) then 1 else 0),
      false))
  /\ (forall (before after : list string) (blank : string),
        Forall newlineFree (before ++ blank :: after) ->
        TrimSpace blank = "" ->
        (parseGitStatusOutput (Join (before ++ blank :: after) newline)).1 =
        (parseGitStatusOutput (Join (before ++ after) newline)).1)
  /\ parseGitStatusOutput statusExample = (1, 2, false).
Proof.
  split; [|split]; [| |reflexivity].
  - intros before after X Y path Hall Hnb.
    assert (Forall newlineFree (before ++ after)) as Hall'.
    { apply Forall_app in Hall as [? [_ ?]%Forall_cons]. by apply Forall_app. }
    pose proof (parse_Join _ Hall) as H1. pose proof (parse_Join _ Hall') as H0.
    assert (String X (String Y path) <> "") as Hne by discriminate.
    pose proof (parse_clean_false _ (Join_insert_nonempty before after _ Hne)) as Hc.
    unfold stagedOf, unstagedOf. rewrite H0.
    rewrite fold_counts_insert, countStatusLine_entry in H1 by done.
    destruct (parseGitStatusOutput (Join (before ++ _ :: after) newline)) as [p c].
    simpl in *. by subst.
  - intros before after blank Hall Hb.
    assert (Forall newlineFree (before ++ after)) as Hall'.
    { apply Forall_app in Hall as [? [_ ?]%Forall_cons]. by apply Forall_app. }
    rewrite !parse_Join by done.
    rewrite fold_counts_insert, countStatusLine_blank by done.
    destruct (fold_left _ _ _); simpl; f_equal; lia.
Qed.

(** The entry [?? b.go] between two others: unstaged goes up, staged does
    not. *)
Lemma parseGitStatusOutput_counts_lines_witness :
  parseGitStatusOutput (Join (["M  a.go"] ++ "?? b.go" :: [" D c.go"]) newline) =
  (stagedOf (parseGitStatusOutput (Join (["M  a.go"] ++ [" D c.go"]) newline))
     + (if bool_decide ("?"%char <> space /\ "?"%char <> question) then 1 else 0),
   unstagedOf (parseGitStatusOutput (Join (["M  a.go"] ++ [" D c.go"]) newline))
     + (if bool_decide ("?"%char <> space) then 1 else 0),
   false).
Proof.
  destruct parseGitStatusOutput_counts_lines as [H _].
  apply (H ["M  a.go"] [" D c.go"] "?"%char "?"%char " b.go").
  - repeat constructor.
  - vm_compute. discriminate.
Defined.

(** ** The command runner retries on the index lock only *)

Lemma stats_record (e : Event) (w : World) :
  statsSoFar (record e w) = (statsSoFar w + (if isStat e then 1 else 0))%nat.
Proof.
  unfold statsSoFar, record. simpl. rewrite List.filter_app, length_app. simpl.
  by destruct (isStat e).
Qed.

Lemma runs_record (e : Event) (w : World) :
  runsSoFar (record e w) = (runsSoFar w + (if isRun e then 1 else 0))%nat.
Proof.
  unfold runsSoFar, record. simpl. rewrite List.filter_app, length_app. simpl.
  by destruct (isRun e).
Qed.

Lemma lockedAt_record (e : Event) (w : World) (repoPath : string) (k : nat) :
  isStat e = true -> lockedAt (record e w) repoPath k = lockedAt w repoPath (S k).
Proof.
  intros He. unfold lockedAt. rewrite stats_record, He. simpl.
  by replace (statsSoFar w + 1 + k)%nat with (statsSoFar w + S k)%nat by lia.
Qed.

Lemma lockedAt_record_other (e : Event) (w : World) (repoPath : string) (k : nat) :
  isStat e = false -> lockedAt (record e w) repoPath k = lockedAt w repoPath k.
Proof.
  intros He. unfold lockedAt. rewrite stats_record, He. simpl.
  by rewrite Nat.add_0_r.
Qed.

Lemma invocation_record (e : Event) (w : World) (repoPath : string) (args : list string)
    (j : nat) :
  isRun e = true ->
  invocation (record e w) repoPath args j = invocation w repoPath args (S j).
Proof.
  intros He. unfold invocation. rewrite runs_record, He. simpl.
  by replace (runsSoFar w + 1 + j)%nat with (runsSoFar w + S j)%nat by lia.
Qed.

Lemma invocation_record_other (e : Event) (w : World) (repoPath : string)
    (args : list string) (j : nat) :
  isRun e = false -> invocation (record e w) repoPath args j = invocation w repoPath args j.
Proof.
  intros He. unfold invocation. rewrite runs_record, He. simpl.
  by rewrite Nat.add_0_r.
Qed.

(** One turn of the loop, in its three outcomes. *)
Lemma attempt_locked (n : nat) (d : Z) (repoPath : string) (args : list string) (w : World) :
  lockedAt w repoPath 0 = true ->
  attemptGitCommand (S n) d repoPath args w =
  attemptGitCommand n d repoPath args
    (record (EvSleep d) (record (EvStat (lockFile repoPath) true) w)).
Proof.
  unfold lockedAt. rewrite Nat.add_0_r. intros H.
  cbn [attemptGitCommand]. unfold mbind, IO_bind, bind, osStat, sleep.
  fold (lockFile repoPath). by rewrite H.
Qed.

Lemma attempt_lock_failure (n : nat) (d : Z) (repoPath : string) (args : list string)
    (w : World) :
  lockedAt w repoPath 0 = false ->
  lockFailure (invocation w repoPath args 0) = true ->
  attemptGitCommand (S n) d repoPath args w =
  attemptGitCommand n (d * 2) repoPath args
    (record (EvSleep d)
       (record (EvRun repoPath args (invocation w repoPath args 0).1
                  (invocation w repoPath args 0).2)
          (record (EvStat (lockFile repoPath) false) w))).
Proof.
  unfold lockedAt, invocation, lockFailure. rewrite !Nat.add_0_r. intros H Hf.
  cbn [attemptGitCommand]. unfold mbind, IO_bind, bind, osStat, sleep, runGit.
  fold (lockFile repoPath). rewrite H.
  rewrite runs_record. simpl isRun. rewrite Nat.add_0_r. cbn [statAnswer runAnswer record].
  destruct (runAnswer w (runsSoFar w) repoPath args) as [output err]. simpl in Hf.
  by rewrite Hf.
Qed.

Lemma attempt_returns (n : nat) (d : Z) (repoPath : string) (args : list string)
    (w : World) :
  lockedAt w repoPath 0 = false ->
  lockFailure (invocation w repoPath args 0) = false ->
  attemptGitCommand (S n) d repoPath args w =
  (((invocation w repoPath args 0).1, ExecError <$> (invocation w repoPath args 0).2),
   record (EvRun repoPath args (invocation w repoPath args 0).1
             (invocation w repoPath args 0).2)
     (record (EvStat (lockFile repoPath) false) w)).
Proof.
  unfold lockedAt, invocation, lockFailure. rewrite !Nat.add_0_r. intros H Hf.
  cbn [attemptGitCommand]. unfold mbind, IO_bind, bind, osStat, sleep, runGit.
  fold (lockFile repoPath). rewrite H.
  rewrite runs_record. simpl isRun. rewrite Nat.add_0_r. cbn [statAnswer runAnswer record].
  destruct (runAnswer w (runsSoFar w) repoPath args) as [output err]. simpl in Hf.
  by rewrite Hf.
Qed.

Lemma attempts_bounded (n : nat) (d : Z) (repoPath : string) (args : list string)
    (w : World) :
  let w' := (attemptGitCommand n d repoPath args w).2 in
  (statsSoFar w <= statsSoFar w' <= statsSoFar w + n)%nat /\
  (runsSoFar w <= runsSoFar w' <= runsSoFar w + n)%nat.
Proof.
  revert d w. induction n as [|n IH]; intros d w; [simpl; lia|].
  destruct (lockedAt w repoPath 0) eqn:Hl.
  - rewrite attempt_locked by done. cbv zeta in *.
    specialize (IH d (record (EvSleep d) (record (EvStat (lockFile repoPath) true) w))).
    rewrite !stats_record, !runs_record in IH. simpl in IH. lia.
  - destruct (lockFailure (invocation w repoPath args 0)) eqn:Hf.
    + rewrite attempt_lock_failure by done. cbv zeta in *.
      match goal with |- context [attemptGitCommand n ?d' _ _ ?w'] =>
        specialize (IH d' w') end.
      rewrite !stats_record, !runs_record in IH. simpl in IH. lia.
    + rewrite attempt_returns by done. cbv zeta. cbn [snd].
      rewrite !stats_record, !runs_record. simpl. lia.
Qed.

Lemma persistent_lock_file (n : nat) (d : Z) (repoPath : string) (args : list string)
    (w : World) :
  (forall k, (k < n)%nat -> lockedAt w repoPath k = true) ->
  (attemptGitCommand n d repoPath args w).1 = (EmptyString, Some lockConflict) /\
  statsSoFar (attemptGitCommand n d repoPath args w).2 = (statsSoFar w + n)%nat /\
  runsSoFar (attemptGitCommand n d repoPath args w).2 = runsSoFar w.
Proof.
  revert d w. induction n as [|n IH]; intros d w H; [simpl; split; [done | split; lia]|].
  rewrite attempt_locked by (apply H; clear; lia).
  set (w1 := record _ _).
  destruct (IH d w1) as (-> & Ha & Hi).
  { intros k Hk. subst w1. rewrite lockedAt_record_other, lockedAt_record by done.
    apply H. clear -Hk. lia. }
  subst w1. rewrite !stats_record, !runs_record in *. simpl in *.
  clear IH. repeat split; lia.
Qed.

Lemma persistent_lock_failure (n : nat) (d : Z) (repoPath : string) (args : list string)
    (w : World) :
  (forall j, (j < n)%nat -> lockFailure (invocation w repoPath args j) = true) ->
  (attemptGitCommand n d repoPath args w).1 = (EmptyString, Some lockConflict) /\
  statsSoFar (attemptGitCommand n d repoPath args w).2 = (statsSoFar w + n)%nat.
Proof.
  revert d w. induction n as [|n IH]; intros d w H; [simpl; split; [done | lia]|].
  destruct (lockedAt w repoPath 0) eqn:Hl.
  - rewrite attempt_locked by done. set (w1 := record _ _).
    destruct (IH d w1) as (-> & Ha).
    { intros j Hj. subst w1. rewrite !invocation_record_other by done. apply H.
      clear -Hj. lia. }
    subst w1. rewrite !stats_record in *. simpl in *. clear IH. split; [done | lia].
  - rewrite attempt_lock_failure by (done || (apply H; clear; lia)). set (w1 := record _ _).
    destruct (IH (d * 2) w1) as (-> & Ha).
    { intros j Hj. subst w1.
      rewrite invocation_record_other, invocation_record, invocation_record_other by done.
      apply H. clear -Hj. lia. }
    subst w1. rewrite !stats_record in *. simpl in *. clear IH. split; [done | lia].
Qed.

Lemma lock_disappears (j n : nat) (d : Z) (repoPath : string) (args : list string)
    (w : World) :
  (j < n)%nat ->
  (forall k, (k < j)%nat -> lockedAt w repoPath k = true) ->
  lockedAt w repoPath j = false ->
  lockFailure (invocation w repoPath args 0) = false ->
  (attemptGitCommand n d repoPath args w).1 =
    ((invocation w repoPath args 0).1, ExecError <$> (invocation w repoPath args 0).2) /\
  statsSoFar (attemptGitCommand n d repoPath args w).2 = (statsSoFar w + S j)%nat /\
  runsSoFar (attemptGitCommand n d repoPath args w).2 = (runsSoFar w + 1)%nat.
Proof.
  revert n w. induction j as [|j IH]; intros n w Hjn Hlocked Hfree Hok.
  - destruct n as [|n]; [clear -Hjn; lia|]. rewrite attempt_returns by done. cbn [fst snd].
    rewrite !stats_record, !runs_record. simpl. repeat split; lia.
  - destruct n as [|n]; [clear -Hjn; lia|].
    rewrite attempt_locked by (apply Hlocked; clear; lia).
    set (w1 := record _ _).
    assert (invocation w1 repoPath args 0 = invocation w repoPath args 0) as Hinv.
    { subst w1. by rewrite !invocation_record_other. }
    destruct (IH n w1) as (-> & Ha & Hi).
    + clear -Hjn. lia.
    + intros k Hk. subst w1. rewrite lockedAt_record_other, lockedAt_record by done.
      apply Hlocked. clear -Hk. lia.
    + subst w1. by rewrite lockedAt_record_other, lockedAt_record.
    + by rewrite Hinv.
    + rewrite Hinv. subst w1. rewrite !stats_record, !runs_record in *. simpl in *.
      clear IH. repeat split; lia.
Qed.

(** What a call returns is the lock-conflict error or what the last
    invocation it made returned, and that invocation did not fail on the
    lock. *)
Lemma returned_invocation (n : nat) (d : Z) (repoPath : string) (args : list string)
    (w : World) :
  (attemptGitCommand n d repoPath args w).1 = (EmptyString, Some lockConflict) \/
  exists i : nat,
    (attemptGitCommand n d repoPath args w).1 =
      ((invocation w repoPath args i).1, ExecError <$> (invocation w repoPath args i).2) /\
    lockFailure (invocation w repoPath args i) = false /\
    runsSoFar (attemptGitCommand n d repoPath args w).2 = (runsSoFar w + S i)%nat.
Proof.
  revert d w. induction n as [|n IH]; intros d w; [by left|].
  destruct (lockedAt w repoPath 0) eqn:Hl.
  - rewrite attempt_locked by done. set (w1 := record _ _).
    destruct (IH d w1) as [E | (i & E & Hf & Hr)]; [by left|]. right. exists i.
    subst w1. rewrite !invocation_record_other in E, Hf by done.
    rewrite !runs_record in Hr. simpl in Hr. rewrite !Nat.add_0_r in Hr. done.
  - destruct (lockFailure (invocation w repoPath args 0)) eqn:Hf.
    + rewrite attempt_lock_failure by done. set (w1 := record _ _).
      destruct (IH (d * 2) w1) as [E | (i & E & Hf' & Hr)]; [by left|]. right.
      exists (S i). subst w1.
      rewrite invocation_record_other, invocation_record, invocation_record_other
        in E, Hf' by done.
      rewrite !runs_record in Hr. simpl in Hr. split; [done|]. split; [done|]. lia.
    + right. exists 0%nat. rewrite attempt_returns by done. cbn [fst snd].
      rewrite !runs_record. simpl. split; [done|]. split; [done|]. lia.
Qed.

(** An attempt that fails on the lock, after [j] looks at a lock file that
    was there, hands over to the attempts that are left, with the delay
    doubled. *)
Lemma lock_failure_continues (j n : nat) (d : Z) (repoPath : string) (args : list string)
    (w : World) :
  (j < n)%nat ->
  (forall k, (k < j)%nat -> lockedAt w repoPath k = true) ->
  lockedAt w repoPath j = false ->
  lockFailure (invocation w repoPath args 0) = true ->
  exists w' : World,
    attemptGitCommand n d repoPath args w =
      attemptGitCommand (n - S j) (d * 2) repoPath args w' /\
    statsSoFar w' = (statsSoFar w + S j)%nat /\
    runsSoFar w' = (runsSoFar w + 1)%nat.
Proof.
  revert n w. induction j as [|j IH]; intros n w Hjn Hlocked Hfree Hfail.
  - destruct n as [|n]; [clear -Hjn; lia|]. rewrite attempt_lock_failure by done.
    eexists. split; [by rewrite Nat.sub_succ, Nat.sub_0_r|].
    rewrite !stats_record, !runs_record. simpl. split; lia.
  - destruct n as [|n]; [clear -Hjn; lia|].
    rewrite attempt_locked by (apply Hlocked; clear; lia).
    set (w1 := record _ _).
    destruct (IH n w1) as (w' & E & Hs & Hr).
    + clear -Hjn. lia.
    + intros k Hk. subst w1. rewrite lockedAt_record_other, lockedAt_record by done.
      apply Hlocked. clear -Hk. lia.
    + subst w1. by rewrite lockedAt_record_other, lockedAt_record.
    + subst w1. by rewrite !invocation_record_other.
    + exists w'. split; [by rewrite E|]. subst w1.
      rewrite !stats_record, !runs_record in *. simpl in *. clear IH. split; lia.
Qed.

(** Every attempt looks for the lock file. *)
Lemma attempt_looks (n : nat) (d : Z) (repoPath : string) (args : list string)
    (w : World) :
  (statsSoFar w + 1 <= statsSoFar (attemptGitCommand (S n) d repoPath args w).2)%nat.
Proof.
  destruct (lockedAt w repoPath 0) eqn:Hl.
  - rewrite attempt_locked by done.
    match goal with |- context [attemptGitCommand n ?d' _ _ ?w'] =>
      pose proof (attempts_bounded n d' repoPath args w') as [H _] end.
    cbv zeta in H. rewrite !stats_record in H. simpl in H. lia.
  - destruct (lockFailure (invocation w repoPath args 0)) eqn:Hf.
    + rewrite attempt_lock_failure by done.
      match goal with |- context [attemptGitCommand n ?d' _ _ ?w'] =>
        pose proof (attempts_bounded n d' repoPath args w') as [H _] end.
      cbv zeta in H. rewrite !stats_record in H. simpl in H. lia.
    + rewrite attempt_returns by done. cbn [snd]. rewrite !stats_record. simpl. lia.
Qed.

(** C2, as the code has it.  (1) Whatever the environment does, one call
    makes at most 3 attempts.  (2) When the lock file is there before each of
    the 3 attempts, or each of the first 3 invocations fails with
    [index.lock] in its output, the call makes exactly 3 attempts and
    returns, with no output, the error [lockConflict], a value built by the
    program itself that no failure of an invocation equals.  (3) At any
    attempt of the loop, an invocation that fails with an output that does
    not name [index.lock] ends the call there with that output and that
    error: nothing is slept and nothing is run after it.  (4) When the lock
    file is there for the first [j] attempts ([j < 3]) and gone at the next,
    and the invocation made then is no lock-related failure, its result is
    what the call returns, after [j + 1] attempts and one invocation.  (5) In
    every world the call returns the lock-conflict error or what the last
    invocation it made returned, and that invocation did not fail on the
    lock.  (6) So when the invocation made once the lock file has gone fails
    on the lock, its result is not what the call returns: the call goes on to
    the next attempt when one is left, and returns the lock-conflict error
    when none is. *)
Theorem executeGitCommand_retry_policy (repoPath : string) (args : list string)
    (w : World) :
  (attempts w (executeGitCommand repoPath args w).2 <= 3)%nat
  /\ ((forall k, (k < 3)%nat -> lockedAt w repoPath k = true) \/
      (forall j, (j < 3)%nat -> lockFailure (invocation w repoPath args j) = true) ->
      (executeGitCommand repoPath args w).1 = (EmptyString, Some lockConflict) /\
      attempts w (executeGitCommand repoPath args w).2 = 3%nat /\
      Error lockConflict = "git command failed after 3 retries: index.lock conflict" /\
      forall msg, lockConflict <> ExecError msg)
  /\ (forall (attemptsLeft : nat) (retryDelay : Z) (output failure : string),
        lockedAt w repoPath 0 = false ->
        invocation w repoPath args 0 = (output, Some failure) ->
        Contains output "index.lock" = false ->
        attemptGitCommand (S attemptsLeft) retryDelay repoPath args w =
        ((output, Some (ExecError failure)),
         record (EvRun repoPath args output (Some failure))
           (record (EvStat (lockFile repoPath) false) w)))
  /\ (forall j : nat,
        (j < 3)%nat ->
        (forall k, (k < j)%nat -> lockedAt w repoPath k = true) ->
        lockedAt w repoPath j = false ->
        lockFailure (invocation w repoPath args 0) = false ->
        (executeGitCommand repoPath args w).1 =
          ((invocation w repoPath args 0).1,
           ExecError <$> (invocation w repoPath args 0).2) /\
        attempts w (executeGitCommand repoPath args w).2 = S j /\
        invocations w (executeGitCommand repoPath args w).2 = 1%nat)
  /\ ((executeGitCommand repoPath args w).1 = (EmptyString, Some lockConflict) \/
      exists i : nat,
        (executeGitCommand repoPath args w).1 =
          ((invocation w repoPath args i).1,
           ExecError <$> (invocation w repoPath args i).2) /\
        lockFailure (invocation w repoPath args i) = false /\
        invocations w (executeGitCommand repoPath args w).2 = S i)
  /\ (forall j : nat,
        (j < 3)%nat ->
        (forall k, (k < j)%nat -> lockedAt w repoPath k = true) ->
        lockedAt w repoPath j = false ->
        lockFailure (invocation w repoPath args 0) = true ->
        (executeGitCommand repoPath args w).1 <>
          ((invocation w repoPath args 0).1,
           ExecError <$> (invocation w repoPath args 0).2) /\
        ((S j < 3)%nat ->
         (S (S j) <= attempts w (executeGitCommand repoPath args w).2)%nat) /\
        (S j = 3%nat ->
         (executeGitCommand repoPath args w).1 = (EmptyString, Some lockConflict))).
Proof.
  unfold executeGitCommand, attempts, invocations.
  split; [|split; [|split; [|split; [|split]]]]; cycle 4.
  { destruct (returned_invocation maxRetries 100 repoPath args w)
      as [E | (i & E & Hf & Hr)]; [by left|].
    right. exists i. split; [done|]. split; [done|]. lia. }
  { intros j Hj Hlocked Hfree Hfail. split; [|split].
    - destruct (returned_invocation maxRetries 100 repoPath args w)
        as [E | (i & E & Hf & _)]; rewrite E.
      + unfold lockFailure in Hfail.
        destruct (invocation w repoPath args 0) as [output [e|]]; [|done].
        cbn. intros [_ Heq]%pair_equal_spec. discriminate Heq.
      + intros [E1 E2]%pair_equal_spec. unfold lockFailure in Hfail, Hf.
        destruct (invocation w repoPath args 0) as [o0 e0],
          (invocation w repoPath args i) as [oi ei]. cbn [fst snd] in *. subst oi.
        assert (ei = e0) as -> by (destruct ei, e0; by simplify_eq/=).
        by rewrite Hfail in Hf.
    - intros Hleft.
      destruct (lock_failure_continues j maxRetries 100 repoPath args w)
        as (w' & -> & Hs & _); [done..|].
      unfold maxRetries in *.
      destruct (3 - S j)%nat as [|n] eqn:En; [lia|].
      pose proof (attempt_looks n (100 * 2) repoPath args w'). lia.
    - intros Hlast.
      destruct (lock_failure_continues j maxRetries 100 repoPath args w)
        as (w' & -> & _); [done..|].
      unfold maxRetries. by replace (3 - S j)%nat with 0%nat by lia. }
  all: repeat split.
  - pose proof (attempts_bounded maxRetries 100 repoPath args w) as [H _].
    cbv zeta in H. unfold maxRetries in *. lia.
  - destruct H as [H|H].
    + by destruct (persistent_lock_file maxRetries 100 repoPath args w H) as (-> & _).
    + by destruct (persistent_lock_failure maxRetries 100 repoPath args w H) as (-> & _).
  - destruct H as [H|H].
    + destruct (persistent_lock_file maxRetries 100 repoPath args w H) as (_ & -> & _).
      unfold maxRetries. lia.
    + destruct (persistent_lock_failure maxRetries 100 repoPath args w H) as (_ & ->).
      unfold maxRetries. lia.
  - discriminate.
  - intros attemptsLeft retryDelay output failure Hfree Hinv Hout.
    rewrite attempt_returns; [by rewrite Hinv | done |].
    unfold lockFailure. rewrite Hinv. cbn [fst snd]. rewrite Hout. apply andb_false_r.
  - by destruct (lock_disappears j maxRetries 100 repoPath args w) as (-> & _).
  - destruct (lock_disappears j maxRetries 100 repoPath args w) as (_ & -> & _); [done..|].
    lia.
  - destruct (lock_disappears j maxRetries 100 repoPath args w) as (_ & _ & ->); [done..|].
    lia.
Qed.

Lemma executeGitCommand_retry_policy_witness :
  (executeGitCommand "/repo" ["status"] lockedOnce).1 = ("ok", None) /\
  attempts lockedOnce (executeGitCommand "/repo" ["status"] lockedOnce).2 = 2%nat /\
  invocations lockedOnce (executeGitCommand "/repo" ["status"] lockedOnce).2 = 1%nat.
Proof.
  destruct (executeGitCommand_retry_policy "/repo" ["status"] lockedOnce)
    as (_ & _ & _ & H & _ & _).
  apply (H 1%nat).
  - lia.
  - intros k Hk. assert (k = 0%nat) as -> by lia. reflexivity.
  - reflexivity.
  - reflexivity.
Defined.

(** C2 as stated fails in its last clause: the lock file is there at the
    first attempt and gone at the second, the invocation made then fails on
    the lock that another process still holds, and what the call returns is
    not the result of that attempt but, after a third one, that of the next
    invocation. *)
Lemma lock_gone_then_lock_failure :
  lockedAt lockGoneButBusy "/repo" 0 = true /\
  lockedAt lockGoneButBusy "/repo" 1 = false /\
  invocation lockGoneButBusy "/repo" ["add"; "a.go"] 0 =
    ("fatal: Unable to create '/repo/.git/index.lock': File exists.",
     Some "exit status 128") /\
  lockFailure (invocation lockGoneButBusy "/repo" ["add"; "a.go"] 0) = true /\
  (executeGitCommand "/repo" ["add"; "a.go"] lockGoneButBusy).1 = ("ok", None) /\
  attempts lockGoneButBusy (executeGitCommand "/repo" ["add"; "a.go"] lockGoneButBusy).2
    = 3%nat /\
  invocations lockGoneButBusy (executeGitCommand "/repo" ["add"; "a.go"] lockGoneButBusy).2
    = 2%nat.
Proof. repeat split. Qed.
(** ** The classifier's rules for a modified file *)

Lemma nonEmpty_cases {A : Type} (l : list A) :
  nonEmpty l = match l with [] => false | _ :: _ => true end.
Proof. destruct l; [done|]. unfold nonEmpty. simpl length. apply Z.ltb_lt. lia. Qed.

Lemma wrap_small (z : Z) : - 2 ^ 63 <= z < 2 ^ 63 -> wrap z = z.
Proof.
  intros H. unfold wrap. change (2 ^ 64) with (2 * 2 ^ 63).
  rewrite Z.mod_small; lia.
Qed.

Lemma oneOf_cons (s o : string) (os : list string) :
  oneOf s (o :: os) = bool_decide (s = o) || oneOf s os.
Proof. reflexivity. Qed.

Section Counters.

Context {U : Unicode}.

Lemma scanKeyword_counts n topic lineLower st kw :
  countsOk n st.1 -> countsOk n (scanKeyword topic lineLower st kw).1.
Proof.
  destruct st as [i c]. unfold scanKeyword.
  destruct (Contains lineLower kw); [|done]. by destruct (negb _).
Qed.

Lemma scanVocabulary_counts n lineLower st voc :
  countsOk n st.1 -> countsOk n (scanVocabulary lineLower st voc).1.
Proof.
  unfold scanVocabulary. generalize (voc.2). intros kws. revert st.
  induction kws as [|kw kws IH]; intros st H; [done|]. cbn [fold_left].
  apply IH. by apply scanKeyword_counts.
Qed.

Lemma scanVocabularies_counts n lineLower vocs st :
  countsOk n st.1 -> countsOk n (fold_left (scanVocabulary lineLower) vocs st).1.
Proof.
  revert st. induction vocs as [|voc vocs IH]; intros st H; [done|]. cbn [fold_left].
  apply IH. by apply scanVocabulary_counts.
Qed.

(** One more line read, at most one more line counted. *)
Lemma analyzeLine_counts (n : Z) (st : DiffInfo * gmap string Z) (line : string) :
  countsOk n st.1 -> countsOk (n + 1) (analyzeLine st line).1.
Proof.
  destruct st as [info counts]. cbn [fst]. intros (Ha & Hr & Hn). unfold analyzeLine.
  destruct (HasPrefix line "+" && negb (HasPrefix line "+++")).
  - set (i0 := setLinesAdded _ _).
    set (i1 := setFunctions _ _). set (i2 := setVariables _ _).
    set (i3 := if isImportLine line then _ else _).
    set (i4 := if bool_decide _ then _ else i3).
    assert (countsOk (n + 1) i4) as H4.
    { subst i4 i3 i2 i1 i0.
      destruct (bool_decide _), (isImportLine line); repeat split;
        cbn [LinesAdded LinesRemoved setComments setImports setVariables setFunctions
             setLinesAdded]; lia. }
    clearbody i4.
    pose proof (scanVocabularies_counts (n + 1) (ToLower line) vocabularies (i4, counts) H4)
      as H5.
    destruct (fold_left _ vocabularies (i4, counts)) as [i5 c5]. cbn [fst] in H5.
    destruct H5 as (? & ? & ?).
    destruct (Contains (ToLower line) "test"), (_ || _); repeat split;
      cbn [fst LinesAdded LinesRemoved setHasTests setHasDocs]; lia.
  - destruct (_ && _); repeat split; cbn [fst LinesAdded LinesRemoved setLinesRemoved]; lia.
Qed.

Lemma parseDiffOutput_counts (ord : MapOrder) (diff : string) :
  countsOk (lineCount diff) (parseDiffOutput ord diff).
Proof.
  unfold parseDiffOutput, lineCount.
  assert (forall lines n st, countsOk n st.1 ->
            countsOk (n + Z.of_nat (length lines)) (fold_left analyzeLine lines st).1) as H.
  { induction lines as [|l lines IH]; intros n st Hst; cbn [fold_left length].
    - by rewrite Z.add_0_r.
    - replace (n + Z.of_nat (S (length lines))) with (n + 1 + Z.of_nat (length lines))
        by lia.
      by apply IH, analyzeLine_counts. }
  specialize (H (Split diff newline) 0 (emptyDiffInfo, ∅)).
  destruct (fold_left _ _ _) as [info counts]. destruct (maxEntry _ _).
  apply H. repeat split; cbn; lia.
Qed.

End Counters.

(** With fewer than 2^62 changed lines nothing wraps, and the tests of the
    classifier are those of the specification. *)
Lemma modified_rules_hold (file status : string) (diff : DiffInfo) :
  Contains status "M" = true ->
  Contains status "A" = false ->
  Contains status "D" = false ->
  countsOk (2 ^ 62 - 1) diff ->
  determineAdvancedCommitType file status diff = modifiedRules file diff.
Proof.
  intros HM HA HD (Hadd & Hrem & Hsum). unfold determineAdvancedCommitType, modifiedRules.
  rewrite HA, HD, HM. unfold docLike, testLike, configLike, manifestFile.
  destruct (HasSuffix file ".md" || Contains file "README" || Contains file "doc"); [done|].
  destruct (Contains file "test" || HasSuffix file "_test.go" || HasSuffix file ".test.js");
    [done|].
  cbn [existsb]. rewrite !oneOf_cons. cbn [oneOf existsb].
  destruct (Contains file "config"), (HasSuffix file ".json"), (HasSuffix file ".yaml"),
    (HasSuffix file ".yml"), (HasSuffix file ".toml"), (HasSuffix file ".env"),
    (bool_decide (Filepath.Base file = "Dockerfile")),
    (bool_decide (Filepath.Base file = "Makefile")); try done.
  cbn [orb].
  destruct (bool_decide (Filepath.Base file = "package.json")),
    (bool_decide (Filepath.Base file = "go.mod")),
    (bool_decide (Filepath.Base file = "requirements.txt")),
    (bool_decide (Filepath.Base file = "Cargo.toml")),
    (bool_decide (Filepath.Base file = "pom.xml")); cbn [orb];
    rewrite ?nonEmpty_cases; try (destruct (Imports diff); done).
  assert (2 ^ 63 = 2 * 2 ^ 62) as H63 by reflexivity.
  rewrite !wrap_small by lia.
  assert (abs (LinesAdded diff - LinesRemoved diff) =
          Z.abs (LinesAdded diff - LinesRemoved diff)) as ->.
  { unfold abs. destruct (Z.ltb_spec (LinesAdded diff - LinesRemoved diff) 0).
    - rewrite wrap_small by lia. lia.
    - lia. }
  unfold containsBugFixKeywords.
  destruct (Z.ltb_spec (LinesAdded diff) (LinesRemoved diff)) as [Hlt|Hge].
  - assert ((0 <? LinesRemoved diff) = true) as -> by (apply Z.ltb_lt; lia). done.
  - rewrite andb_false_r.
    replace (LinesRemoved diff * 2) with (2 * LinesRemoved diff) by lia.
    destruct (match Functions diff with [] => false | _ => true end || _); [done|].
    destruct (0 <? LinesAdded diff), (0 <? LinesRemoved diff),
      (Z.abs (LinesAdded diff - LinesRemoved diff) <? 10); done.
Qed.

(** C3, as the code has it.  A status is tested for [A] first and for [D]
    next, so the rules for a modified file are those of a status that holds
    [M] and neither [A] nor [D].  For such a status the classifier is the
    list of rules of the specification, first match first, on every diff
    whose two counters are not negative and add up to less than 2^62, the
    range in which the products and sums of the classifier do not wrap
    around; and the counters of a parsed text are in that range whenever the
    text has fewer than 2^62 lines. *)
Theorem determineAdvancedCommitType_modified {U : Unicode} (file status : string) :
  Contains status "M" = true ->
  Contains status "A" = false ->
  Contains status "D" = false ->
  (forall diff : DiffInfo,
     0 <= LinesAdded diff -> 0 <= LinesRemoved diff ->
     LinesAdded diff + LinesRemoved diff < 2 ^ 62 ->
     determineAdvancedCommitType file status diff = modifiedRules file diff)
  /\ (forall (ord : MapOrder) (text : string),
        lineCount text < 2 ^ 62 ->
        determineAdvancedCommitType file status (parseDiffOutput ord text) =
        modifiedRules file (parseDiffOutput ord text)).
Proof.
  intros HM HA HD. split.
  - intros diff Ha Hr Hs. apply modified_rules_hold; [done..|]. repeat split; lia.
  - intros ord text Hl. apply modified_rules_hold; [done..|].
    destruct (parseDiffOutput_counts ord text) as (? & ? & ?). repeat split; lia.
Qed.

Lemma determineAdvancedCommitType_modified_witness :
  determineAdvancedCommitType "src/auth/login.go" "M "
    (mkDiffInfo 2 3 ["ValidateToken"] [] false false [] [] [] "security")
  = modifiedRules "src/auth/login.go"
      (mkDiffInfo 2 3 ["ValidateToken"] [] false false [] [] [] "security").
Proof.
  destruct (determineAdvancedCommitType_modified (U := plainUnicode)
              "src/auth/login.go" "M ") as [H _]; [reflexivity..|].
  apply H; simpl; lia.
Defined.

(** C3 as stated fails: the status [AM] (added to the index, modified since)
    holds [M], and a configuration file with it is a new file to the
    classifier, not a chore. *)
Lemma determineAdvancedCommitType_added_first :
  Contains "AM" "M" = true /\
  modifiedRules "settings.json" emptyDiffInfo = "chore" /\
  determineAdvancedCommitType "settings.json" "AM" emptyDiffInfo = "feat".
Proof. repeat split. Qed.

(** Beyond the range the product wraps: with 2^62 lines added and as many
    removed, [LinesRemoved*2] is -2^63 and the classifier answers [feat]
    where the balanced delta of the rules gives [refactor]. *)
Remark determineAdvancedCommitType_wraps :
  wrap (LinesRemoved hugeDiff * 2) = - 2 ^ 63 /\
  determineAdvancedCommitType "main.go" "M " hugeDiff = "feat" /\
  modifiedRules "main.go" hugeDiff = "refactor".
Proof. repeat split. Qed.

(** So does the message composer: [LinesRemoved*3] is -2^62 there, and a
    change that removes as much as it adds is said to extend the file. *)
Remark generateSmartCommitMessage_wraps :
  wrap (LinesRemoved hugeDiff * 3) = - 2 ^ 62 /\
  generateSmartCommitMessage (U := plainUnicode) "a.tar.gz" "M " hugeDiff "feat" =
    "extend a.tar functionality".
Proof. repeat split. Qed.

(** ** The loop that picks the entry with the highest count *)

Lemma pickMax_fold (l : list (string * Z)) (acc : string * Z) :
  let r := fold_left pickMax l acc in
  (r = acc \/ r ∈ l) /\ acc.2 <= r.2 /\ (forall e, e ∈ l -> e.2 <= r.2).
Proof.
  revert acc. induction l as [|e l IH]; intros acc; cbn [fold_left].
  - split; [by left|]. split; [lia|]. intros e He. by apply elem_of_nil in He.
  - destruct (IH (pickMax acc e)) as (Hin & Hle & Hall).
    assert (acc.2 <= (pickMax acc e).2 /\ e.2 <= (pickMax acc e).2 /\
            (pickMax acc e = acc \/ pickMax acc e = e)) as (H1 & H2 & H3).
    { unfold pickMax. destruct (Z.ltb_spec acc.2 e.2); repeat split; auto; lia. }
    split; [|split].
    + destruct Hin as [-> | Hin]; [|right; apply elem_of_cons; by right].
      destruct H3 as [-> | ->]; [by left | right; apply elem_of_cons; by left].
    + lia.
    + intros e' [-> | He']%elem_of_cons; [lia | by apply Hall].
Qed.

(** The loop keeps the first of the entries that no entry beats. *)
Lemma pickMax_stays (l : list (string * Z)) (e : string * Z) :
  (forall x, x ∈ l -> x.2 <= e.2) -> fold_left pickMax l e = e.
Proof.
  induction l as [|x l IH]; intros H; [done|]. cbn [fold_left].
  assert (pickMax e x = e) as ->.
  { unfold pickMax. pose proof (H x ltac:(by left)).
    destruct (Z.ltb_spec e.2 x.2); [lia | done]. }
  apply IH. intros y Hy. apply H. by right.
Qed.

Lemma pickMax_first (before after : list (string * Z)) (e acc : string * Z) :
  acc.2 < e.2 ->
  (forall x, x ∈ before -> x.2 < e.2) ->
  (forall x, x ∈ after -> x.2 <= e.2) ->
  fold_left pickMax (before ++ e :: after) acc = e.
Proof.
  intros Hacc Hb Ha. rewrite fold_left_app. cbn [fold_left].
  pose proof (pickMax_fold before acc) as ([Hr | Hr] & _ & _); cbv zeta in Hr.
  - rewrite Hr. assert (pickMax acc e = e) as ->.
    { unfold pickMax. by destruct (Z.ltb_spec acc.2 e.2); [|lia]. }
    by apply pickMax_stays.
  - apply Hb in Hr. set (r := fold_left pickMax before acc) in *.
    assert (pickMax r e = e) as ->.
    { unfold pickMax. by destruct (Z.ltb_spec r.2 e.2); [|lia]. }
    by apply pickMax_stays.
Qed.

(** With a fair order over a map of positive counters, the loop ends on an
    entry of the map that no entry beats, or on its start value when the
    map is empty. *)
Lemma maxEntry_spec (ord : MapOrder) (m : gmap string Z) :
  fair ord ->
  (forall k v, m !! k = Some v -> 0 < v) ->
  (m = ∅ /\ maxEntry ord m = ("", 0)) \/
  (m !! (maxEntry ord m).1 = Some (maxEntry ord m).2 /\
   forall k v, m !! k = Some v -> v <= (maxEntry ord m).2).
Proof.
  intros Hfair Hpos. unfold maxEntry, rangeMap.
  pose proof (pickMax_fold (ord (map_to_list m)) ("", 0)) as (Hin & _ & Hall).
  cbv zeta in Hin, Hall.
  set (r := fold_left pickMax (ord (map_to_list m)) ("", 0)) in *.
  assert (forall e, e ∈ ord (map_to_list m) <-> m !! e.1 = Some e.2) as Hmem.
  { intros [k v]. rewrite (Hfair (map_to_list m)). apply elem_of_map_to_list. }
  destruct (decide (m = ∅)) as [-> | Hne].
  - left. split; [done|]. subst r. rewrite map_to_list_empty.
    pose proof (Hfair []) as Hp. apply Permutation_nil_r in Hp. by rewrite Hp.
  - right.
    assert (forall k v, m !! k = Some v -> v <= r.2) as Hmax.
    { intros k v Hkv. apply (Hall (k, v)). by apply Hmem. }
    split; [|done].
    destruct Hin as [Hr | Hr]; [|by apply Hmem].
    apply map_choose in Hne as (k & v & Hkv).
    pose proof (Hpos k v Hkv). pose proof (Hmax k v Hkv). rewrite Hr in *. simpl in *. lia.
Qed.

(** ** The counters of the diff analyzer *)

Section TopicCounters.

Context {U : Unicode}.

Lemma incr_topicCounters (topic : string) (m : gmap string Z) :
  topic ∈ topics -> topicCounters m -> topicCounters (incr topic m).
Proof.
  intros Ht Hm k v. unfold incr. rewrite lookup_insert. case_decide as E.
  - intros [= <-]. subst k. split; [done|].
    destruct (m !! topic) as [v0|] eqn:E0; simpl; [|lia].
    apply Hm in E0 as [_ ?]. lia.
  - apply Hm.
Qed.

Lemma scanVocabulary_topicCounters lineLower st voc :
  voc.1 ∈ topics -> topicCounters st.2 -> topicCounters (scanVocabulary lineLower st voc).2.
Proof.
  intros Ht. unfold scanVocabulary. generalize (voc.2). intros kws. revert st.
  induction kws as [|kw kws IH]; intros st H; [done|]. cbn [fold_left].
  apply IH. destruct st as [i c]. unfold scanKeyword.
  destruct (Contains lineLower kw); [|done]. cbn [snd]. by apply incr_topicCounters.
Qed.

Lemma scanVocabularies_topicCounters lineLower vocs st :
  vocs.*1 ⊆ topics ->
  topicCounters st.2 -> topicCounters (fold_left (scanVocabulary lineLower) vocs st).2.
Proof.
  revert st. induction vocs as [|voc vocs IH]; intros st Hsub H; [done|]. cbn [fold_left].
  apply IH.
  - intros t Ht. apply Hsub. rewrite fmap_cons. apply elem_of_cons. by right.
  - apply scanVocabulary_topicCounters; [|done]. apply Hsub. rewrite fmap_cons.
    apply elem_of_cons. by left.
Qed.

Lemma analyzeLine_topicCounters st line :
  topicCounters st.2 -> topicCounters (analyzeLine st line).2.
Proof.
  destruct st as [info counts]. cbn [snd]. intros H. unfold analyzeLine.
  destruct (HasPrefix line "+" && negb (HasPrefix line "+++")).
  - match goal with |- context [fold_left _ vocabularies (?i, counts)] =>
      pose proof (scanVocabularies_topicCounters (ToLower line) vocabularies (i, counts)
                    (reflexivity _) H) as H5;
      destruct (fold_left _ vocabularies (i, counts)) as [i5 c5] end.
    done.
  - by destruct (_ && _).
Qed.

Lemma contextCountsOf_topicCounters (diff : string) : topicCounters (contextCountsOf diff).
Proof.
  unfold contextCountsOf.
  assert (forall lines st, topicCounters st.2 ->
            topicCounters (fold_left analyzeLine lines st).2) as H.
  { induction lines as [|l lines IH]; intros st Hst; [done|]. cbn [fold_left].
    by apply IH, analyzeLine_topicCounters. }
  apply H. cbn [snd]. intros k v. by rewrite lookup_empty.
Qed.

Lemma parseDiffOutput_Context (ord : MapOrder) (diff : string) :
  Context (parseDiffOutput ord diff) = (maxEntry ord (contextCountsOf diff)).1.
Proof.
  unfold parseDiffOutput, contextCountsOf.
  destruct (fold_left analyzeLine _ _) as [info counts]. cbn [snd].
  by destruct (maxEntry ord counts).
Qed.

End TopicCounters.

(** C4, as the code has it.  The dominant context is empty when no keyword
    was hit; otherwise it is one of the five topics, its counter is positive
    and no counter is higher, so a topic whose counter is strictly the
    highest is the one chosen.  Among topics that tie for the highest count
    the loop order of the map decides: the loop visits the entries of the
    counter map in the order [rangeMap ord], and the topic chosen is the
    first in that order whose count no other entry beats.  That order is not
    fixed by the language. *)
Theorem parseDiffOutput_dominant_context {U : Unicode} (ord : MapOrder) (diff : string) :
  fair ord ->
  (contextCountsOf diff = ∅ -> Context (parseDiffOutput ord diff) = "")
  /\ (contextCountsOf diff <> ∅ ->
      exists n,
        contextCountsOf diff !! Context (parseDiffOutput ord diff) = Some n /\
        0 < n /\
        Context (parseDiffOutput ord diff) ∈ topics /\
        forall topic n', contextCountsOf diff !! topic = Some n' -> n' <= n)
  /\ (forall topic n,
        contextCountsOf diff !! topic = Some n ->
        (forall other n', other <> topic ->
           contextCountsOf diff !! other = Some n' -> n' < n) ->
        Context (parseDiffOutput ord diff) = topic)
  /\ (forall (before after : list (string * Z)) (topic : string) (n : Z),
        rangeMap ord (contextCountsOf diff) = before ++ (topic, n) :: after ->
        (forall e, e ∈ before -> e.2 < n) ->
        (forall e, e ∈ after -> e.2 <= n) ->
        Context (parseDiffOutput ord diff) = topic).
Proof.
  intros Hfair. rewrite parseDiffOutput_Context.
  pose proof (contextCountsOf_topicCounters diff) as Htc.
  assert (forall (before after : list (string * Z)) (topic : string) (n : Z),
            rangeMap ord (contextCountsOf diff) = before ++ (topic, n) :: after ->
            (forall e, e ∈ before -> e.2 < n) ->
            (forall e, e ∈ after -> e.2 <= n) ->
            (maxEntry ord (contextCountsOf diff)).1 = topic) as Hfirst.
  { intros before after topic n Hord Hb Ha. unfold maxEntry. rewrite Hord.
    rewrite (pickMax_first before after (topic, n) ("", 0)); [done | | done..].
    assert ((topic, n) ∈ map_to_list (contextCountsOf diff)) as Hin.
    { rewrite <- (Hfair (map_to_list (contextCountsOf diff))).
      unfold rangeMap in Hord. rewrite Hord, elem_of_app, elem_of_cons. auto. }
    apply elem_of_map_to_list in Hin. by apply Htc in Hin as [_ ?]. }
  split; [|split; [|split]]; [| | |exact Hfirst]; clear Hfirst.
  all: destruct (maxEntry_spec ord (contextCountsOf diff) Hfair) as [[He Hm] | [Hl Hmax]];
    [intros k v Hkv; by apply Htc in Hkv as [_ ?] | ..].
  - by rewrite Hm.
  - intros He. by rewrite He, lookup_empty in Hl.
  - by rewrite He.
  - intros _. exists (maxEntry ord (contextCountsOf diff)).2. destruct (Htc _ _ Hl). done.
  - intros topic n. by rewrite He, lookup_empty.
  - intros topic n Ht Hstrict.
    destruct (decide ((maxEntry ord (contextCountsOf diff)).1 = topic)) as [|Hne]; [done|].
    pose proof (Hstrict _ _ Hne Hl). pose proof (Hmax _ _ Ht). lia.
Qed.

Lemma fair_id : fair id.
Proof. intros l. reflexivity. Qed.

Lemma fair_reverse : fair reverse.
Proof. intros l. apply reverse_Permutation. Qed.

Lemma parseDiffOutput_dominant_context_witness :
  let counts := contextCountsOf (U := plainUnicode) tiedDiff in
  let context := Context (parseDiffOutput (U := plainUnicode) reverse tiedDiff) in
  (counts = ∅ -> context = "")
  /\ (counts <> ∅ ->
      exists n,
        counts !! context = Some n /\ 0 < n /\ context ∈ topics /\
        forall topic n', counts !! topic = Some n' -> n' <= n)
  /\ (forall topic n,
        counts !! topic = Some n ->
        (forall other n', other <> topic -> counts !! other = Some n' -> n' < n) ->
        context = topic)
  /\ (forall (before after : list (string * Z)) (topic : string) (n : Z),
        rangeMap reverse counts = before ++ (topic, n) :: after ->
        (forall e, e ∈ before -> e.2 < n) ->
        (forall e, e ∈ after -> e.2 <= n) ->
        context = topic).
Proof.
  apply (parseDiffOutput_dominant_context (U := plainUnicode) reverse tiedDiff), fair_reverse.
Defined.

(** C4 as stated fails: in [tiedDiff] the validation and the security
    vocabularies are hit once each; validation is declared first, and the
    context is security under one fair loop order, which meets security
    first, and validation under another, which meets validation first. *)
Lemma dominant_context_tie_follows_loop_order :
  let counts := contextCountsOf (U := plainUnicode) tiedDiff in
  counts !! "validation" = Some 1 /\
  counts !! "security" = Some 1 /\
  topics = ["fix"; "validation"; "api"; "security"; "performance"] /\
  fair id /\ rangeMap id counts = [("security", 1); ("validation", 1)] /\
  Context (parseDiffOutput (U := plainUnicode) id tiedDiff) = "security" /\
  fair reverse /\ rangeMap reverse counts = [("validation", 1); ("security", 1)] /\
  Context (parseDiffOutput (U := plainUnicode) reverse tiedDiff) = "validation".
Proof.
  repeat split; try (vm_compute; reflexivity); auto using fair_id, fair_reverse.
Qed.

(** Which keywords a line with a non-ASCII letter hits is a matter of the
    case tables: with tables that hold the Kelvin sign the line
    [kelvinLine] reads [+token] and is a hit for security; with tables that
    do not, it hits nothing.  The theorem above holds for both. *)
Remark kelvin_sign_is_a_matter_of_tables :
  isASCII kelvinLine = false /\
  ToLower (U := kelvinUnicode) kelvinLine = "+token" /\
  Context (parseDiffOutput (U := kelvinUnicode) id kelvinLine) = "security" /\
  Context (parseDiffOutput (U := plainUnicode) id kelvinLine) = "".
Proof. repeat split. Qed.

(** ** The aggregator: one combined suggestion, then the individual ones *)

Lemma typeCount_cons (t : string) (s : CommitSuggestion) (l : list CommitSuggestion) :
  typeCount t (s :: l) = (if bool_decide (SuggestionType s = t) then 1 else 0) + typeCount t l.
Proof.
  unfold typeCount. cbn [List.filter]. destruct (bool_decide _); cbn [length]; lia.
Qed.

Lemma typeCount_nonneg (t : string) (l : list CommitSuggestion) : 0 <= typeCount t l.
Proof. unfold typeCount. lia. Qed.

Lemma countType_fold (l : list CommitSuggestion) (m : gmap string Z) (t : string) :
  fold_left countType l m !! t =
  match m !! t with
  | Some v => Some (v + typeCount t l)
  | None => if bool_decide (typeCount t l = 0) then None else Some (typeCount t l)
  end.
Proof.
  revert m. induction l as [|s l IH]; intros m.
  - unfold typeCount. simpl. destruct (m !! t); [f_equal; lia | done].
  - cbn [fold_left]. rewrite IH, typeCount_cons. unfold countType, incr.
    pose proof (typeCount_nonneg t l).
    destruct (decide (SuggestionType s = t)) as [E|E].
    + rewrite (bool_decide_eq_true_2 (SuggestionType s = t)) by done.
      subst t. rewrite lookup_insert_eq.
      destruct (m !! SuggestionType s) as [v|]; simpl.
      * f_equal. lia.
      * rewrite bool_decide_eq_false_2 by lia. done.
    + rewrite (bool_decide_eq_false_2 (SuggestionType s = t)) by done.
      rewrite lookup_insert_ne by done.
      destruct (m !! t); [f_equal; lia|]. by rewrite Z.add_0_l.
Qed.

Lemma typeCountsOf_lookup (l : list CommitSuggestion) (t : string) (v : Z) :
  typeCountsOf l !! t = Some v <-> v = typeCount t l /\ 0 < v.
Proof.
  unfold typeCountsOf. rewrite countType_fold, lookup_empty.
  pose proof (typeCount_nonneg t l). case_bool_decide; split.
  - done.
  - intros [-> ?]. lia.
  - intros [= <-]. split; [done | lia].
  - by intros [-> _].
Qed.

(** The entry the loop ends on is the most frequent type. *)
Lemma mainType_majority (ord : MapOrder) (l : list CommitSuggestion) :
  fair ord ->
  forall t, typeCount t l <= typeCount (maxEntry ord (typeCountsOf l)).1 l.
Proof.
  intros Hfair t. pose proof (typeCount_nonneg t l).
  destruct (maxEntry_spec ord (typeCountsOf l) Hfair) as [[He Hm] | [Hl Hmax]].
  { intros k v Hkv. by apply typeCountsOf_lookup in Hkv as [_ ?]. }
  - destruct (decide (typeCount t l = 0)) as [->|Hne]; [apply typeCount_nonneg|].
    assert (typeCountsOf l !! t = Some (typeCount t l)) as Hc.
    { apply typeCountsOf_lookup. split; [done | lia]. }
    by rewrite He, lookup_empty in Hc.
  - apply typeCountsOf_lookup in Hl as [Hl _]. rewrite <- Hl.
    destruct (decide (typeCount t l = 0)) as [E|Hne].
    + rewrite E, Hl. apply typeCount_nonneg.
    + apply (Hmax t). apply typeCountsOf_lookup. split; [done | lia].
Qed.

Lemma append_nonempty_r (a b : string) : b <> "" -> a +:+ b <> "".
Proof. destruct a; [done|]. by rewrite append_cons. Qed.

Lemma formatConventionalCommit_nonempty (commitType scope description : string) :
  formatConventionalCommit commitType scope description <> "".
Proof.
  unfold formatConventionalCommit. destruct (bool_decide _);
    apply append_nonempty_r; by rewrite append_cons.
Qed.

Lemma combined_new (o : Orders) (individual : list CommitSuggestion)
    (changes : list GitChange) :
  individual <> [] ->
  SuggestionMessage (generateCombinedSuggestion o individual changes) <> "" /\
  SuggestionType (generateCombinedSuggestion o individual changes) =
    (maxEntry (typeOrder o) (typeCountsOf individual)).1.
Proof.
  intros Hne. unfold generateCombinedSuggestion.
  rewrite bool_decide_eq_false_2 by (by destruct individual).
  destruct (maxEntry (typeOrder o) _) as [mainType n].
  destruct (maxEntry (scopeOrder o) _) as [mainScope maxScopeCount].
  cbn [SuggestionMessage SuggestionType fst]. split; [|done].
  apply formatConventionalCommit_nonempty.
Qed.

Lemma combined_old (o : Orders) (individual : list CommitSuggestion) :
  individual <> [] ->
  SuggestionMessage (MainGo.generateCombinedSuggestion o individual) <> "" /\
  SuggestionType (MainGo.generateCombinedSuggestion o individual) =
    (maxEntry (typeOrder o) (typeCountsOf individual)).1.
Proof.
  intros Hne. unfold MainGo.generateCombinedSuggestion.
  rewrite bool_decide_eq_false_2 by (by destruct individual).
  destruct (maxEntry (typeOrder o) _) as [mainType n].
  destruct (maxEntry (scopeOrder o) _) as [mainScope maxScopeCount].
  cbn [SuggestionMessage SuggestionType fst]. split; [|done].
  apply formatConventionalCommit_nonempty.
Qed.

Lemma analyzeEach_length {U : Unicode} (o : Orders) (i : nat) (changes : list GitChange)
    (repoPath : string) (w : World) :
  length (analyzeEach o i changes repoPath w).1 = length changes.
Proof.
  revert i w. induction changes as [|c changes IH]; intros i w; [done|].
  cbn [analyzeEach]. unfold mbind, IO_bind, bind.
  destruct (getFileDiff _ _ _ w) as [d w1].
  specialize (IH (S i) w1). destruct (analyzeEach o (S i) changes repoPath w1) as [l w2].
  simpl in *. by rewrite IH.
Qed.

Lemma analyzeEach_old_length (analyse : GitChange -> IO FileAnalysis)
    (changes : list GitChange) (w : World) :
  length (MainGo.analyzeEach analyse changes w).1 = length changes.
Proof.
  revert w. induction changes as [|c changes IH]; intros w; [done|].
  cbn [MainGo.analyzeEach]. unfold mbind, IO_bind, bind.
  destruct (analyse c w) as [a w1].
  specialize (IH w1). destruct (MainGo.analyzeEach analyse changes w1) as [l w2].
  simpl in *. by rewrite IH.
Qed.

Lemma aggregated_intro (cap limit : nat) (combined : CommitSuggestion)
    (individual : list CommitSuggestion) :
  (cap + 1 <= limit <= 9)%nat ->
  SuggestionMessage combined <> "" ->
  aggregated cap limit combined individual
    (truncateTo limit
       (let suggestions : list CommitSuggestion := [] in
        let suggestions :=
          if bool_decide (SuggestionMessage combined <> "")
          then suggestions ++ [combined] else suggestions in
        if Z.of_nat (length individual) <=? Z.of_nat cap
        then suggestions ++ individual else suggestions)).
Proof.
  intros Hcap Hmsg. cbv zeta. rewrite bool_decide_eq_true_2 by done.
  cbn [app]. unfold aggregated.
  destruct (Z.leb_spec (Z.of_nat (length individual)) (Z.of_nat cap));
    (destruct (decide (length individual <= cap)%nat); [|lia]) || 
    (destruct (decide (length individual <= cap)%nat); [lia|]).
  - assert (truncateTo limit (combined :: individual) = combined :: individual) as ->.
    { unfold truncateTo. cbn [length].
      destruct (Z.ltb_spec (Z.of_nat limit) (Z.of_nat (S (length individual)))); [lia|done]. }
    repeat split; cbn [length]; lia.
  - assert (truncateTo limit [combined] = [combined]) as ->.
    { unfold truncateTo. cbn [length].
      destruct (Z.ltb_spec (Z.of_nat limit) (Z.of_nat 1)); [lia|done]. }
    repeat split; cbn [length]; lia.
Qed.

(** C5.  For a non-empty list of N changes, in [main_new.go] (cap 5, limit
    9) and in [main.go] (cap 3, limit 5, whatever the analysis of a file
    returns): there are N individual suggestions; the result is the combined
    suggestion followed by the individual ones when N is at most the cap,
    and the combined suggestion alone otherwise; the truncation to the
    limit leaves it as it is; its length is between 1 and 9; and the type of
    the combined suggestion is a most frequent type of the individual
    ones. *)
Theorem analyzeChangesForCommits_shape {U : Unicode} (o : Orders)
    (changes : list GitChange) (repoPath : string)
    (analyse : GitChange -> IO FileAnalysis) (w : World) :
  fairOrders o ->
  changes <> [] ->
  (let individual := (analyzeEach o 0 changes repoPath w).1 in
   let combined := generateCombinedSuggestion o individual changes in
   length individual = length changes /\
   aggregated 5 9 combined individual (analyzeChangesForCommits o changes repoPath w).1 /\
   forall t, typeCount t individual <= typeCount (SuggestionType combined) individual)
  /\
  (let individual := (MainGo.analyzeEach analyse changes w).1 in
   let combined := MainGo.generateCombinedSuggestion o individual in
   length individual = length changes /\
   aggregated 3 5 combined individual (MainGo.analyzeChangesForCommits analyse o changes w).1 /\
   forall t, typeCount t individual <= typeCount (SuggestionType combined) individual).
Proof.
  intros (_ & Hfair & _) Hne. split; cbv zeta.
  - pose proof (analyzeEach_length o 0 changes repoPath w) as Hlen.
    unfold analyzeChangesForCommits, mbind, IO_bind, bind.
    destruct (analyzeEach o 0 changes repoPath w) as [individual w1]. cbn [fst] in *.
    assert (individual <> []) as Hi by (intros ->; by destruct changes).
    destruct (combined_new o individual changes Hi) as [Hmsg Htype].
    split; [done|]. split.
    + apply (aggregated_intro 5 9); [lia | done].
    + rewrite Htype. by apply mainType_majority.
  - pose proof (analyzeEach_old_length analyse changes w) as Hlen.
    unfold MainGo.analyzeChangesForCommits, mbind, IO_bind, bind.
    destruct (MainGo.analyzeEach analyse changes w) as [individual w1]. cbn [fst] in *.
    assert (individual <> []) as Hi by (intros ->; by destruct changes).
    destruct (combined_old o individual Hi) as [Hmsg Htype].
    split; [done|]. split.
    + apply (aggregated_intro 3 5); [lia | done].
    + rewrite Htype. by apply mainType_majority.
Qed.

Lemma fair_plainOrders : fairOrders plainOrders.
Proof. repeat split; intros; intros l; reflexivity. Qed.

Lemma analyzeChangesForCommits_shape_witness :
  (let individual :=
     (analyzeEach (U := plainUnicode) plainOrders 0 [loginChange] "/repo" oneLineRepo).1 in
   let combined := generateCombinedSuggestion plainOrders individual [loginChange] in
   length individual = length [loginChange] /\
   aggregated 5 9 combined individual
     (analyzeChangesForCommits (U := plainUnicode) plainOrders [loginChange] "/repo"
        oneLineRepo).1 /\
   forall t, typeCount t individual <= typeCount (SuggestionType combined) individual)
  /\
  (let individual := (MainGo.analyzeEach fixedAnalysis [loginChange] oneLineRepo).1 in
   let combined := MainGo.generateCombinedSuggestion plainOrders individual in
   length individual = length [loginChange] /\
   aggregated 3 5 combined individual
     (MainGo.analyzeChangesForCommits fixedAnalysis plainOrders [loginChange] oneLineRepo).1 /\
   forall t, typeCount t individual <= typeCount (SuggestionType combined) individual).
Proof.
  apply (analyzeChangesForCommits_shape plainOrders [loginChange] "/repo" fixedAnalysis
           oneLineRepo fair_plainOrders).
  discriminate.
Defined.

Example aggregate_one_file :
  (analyzeChangesForCommits (U := plainUnicode) plainOrders [loginChange] "/repo" oneLineRepo).1 =
  [ mkCommitSuggestion "feat(auth): add new feature" "feat";
    mkCommitSuggestion "feat(auth): improve security in ValidateToken" "feat" ].
Proof. vm_compute. reflexivity. Qed.

Example aggregate_six_files :
  length (analyzeChangesForCommits (U := plainUnicode) plainOrders (replicate 6 loginChange) "/repo"
            oneLineRepo).1 = 1%nat /\
  length (MainGo.analyzeChangesForCommits fixedAnalysis plainOrders
            (replicate 4 loginChange) oneLineRepo).1 = 1%nat.
Proof. split; vm_compute; reflexivity. Qed.
(** ** Rows and runs of the state machine *)

Section Rows.

Context {toolkit : Toolkit}.

Lemma elemAt_Some {A : Type} (rows : list A) (i : Z) (x : A) :
  elemAt rows i = Some x <-> 0 <= i /\ rows !! Z.to_nat i = Some x.
Proof.
  unfold elemAt. destruct (Z.ltb_spec i 0) as [Hi | Hi].
  - split; [done | intros [? _]; lia].
  - split; [done | by intros [_ ?]].
Qed.

(** A handler reads the row under the cursor when its test passes and the
    row is there. *)
Lemma selected_Some {A : Type} (rows : list A) (t : Table) (x : A) :
  selected rows t = Some x <-> guarded rows t = true /\ elemAt rows (Cursor t) = Some x.
Proof.
  unfold selected. destruct (guarded rows t).
  - split; [by intros ? | by intros [_ ?]].
  - split; [done | by intros [? _]].
Qed.

Lemma selected_in_range {A : Type} (rows : list A) (t : Table) (x : A) :
  selected rows t = Some x ->
  0 <= Cursor t < Z.of_nat (length rows) /\ rows !! Z.to_nat (Cursor t) = Some x.
Proof.
  intros [Hg [H0 Hx]%elemAt_Some]%selected_Some. split; [|done].
  apply lookup_lt_Some in Hx. lia.
Qed.

Lemma reachable_run (wd : string) (now : Z) (msgs : list Msg) (m : model) :
  reachable wd m -> reachable wd (run now msgs m).
Proof.
  unfold run. revert m. induction msgs as [|msg msgs IH]; intros m Hm; [done|].
  cbn [fold_left]. apply IH. by constructor.
Qed.

End Rows.

(** ** Escape undoes one level *)

Section Escape.

Context {toolkit : Toolkit}.

Lemma one_true : one true = 1.
Proof. reflexivity. Qed.
Lemma one_false : one false = 0.
Proof. reflexivity. Qed.

Lemma anyInputFocused_count (m : model) :
  anyInputFocused m = false <-> inputsFocused m = 0.
Proof.
  unfold anyInputFocused, inputsFocused.
  destruct (Focused (commitInput m)), (Focused (branchInput m)),
    (Focused (rebaseInput m)); rewrite ?one_true, ?one_false; simpl; split; (done || lia).
Qed.

Lemma one_range (b : bool) : 0 <= one b <= 1.
Proof. destruct b; unfold one; lia. Qed.

(** Tell [lia] that each [one b] in sight is 0 or 1. *)
Ltac one_facts :=
  repeat match goal with
         | |- context [one ?b] =>
             lazymatch goal with
             | _ : 0 <= one b <= 1 |- _ => fail
             | _ => pose proof (one_range b)
             end
         | _ : context [one ?b] |- _ =>
             lazymatch goal with
             | _ : 0 <= one b <= 1 |- _ => fail
             | _ => pose proof (one_range b)
             end
         end.

Ltac escape_done := intros; repeat split; (done || (one_facts; lia)).

Lemma files_not_diff : bool_decide ("files" = "diff") = false.
Proof. reflexivity. Qed.

(** The cases of [handleEscape], by the flags it tests in turn. *)
Ltac escape_cases m :=
  unfold anyInputFocused, handleEscape, inputsFocused, subViewsOpen, diffOpen,
    comparisonOpen, toolOpen, tokenPending;
  destruct (Focused (commitInput m)) eqn:E1;
  [| destruct (Focused (branchInput m)) eqn:E2;
     [| destruct (Focused (rebaseInput m)) eqn:E3;
        [| destruct (bool_decide (viewMode m = "diff")) eqn:Ed;
           [| destruct (bool_decide (branchComparison m <> None)) eqn:Ec;
              [| destruct (bool_decide (tab m = "tools")) eqn:Et1,
                   (bool_decide (toolMode m <> "menu")) eqn:Et2,
                   (bool_decide (confirmAction m <> "")) eqn:Ek ]]]]];
  cbn;
  repeat match goal with
         | H : _ = true |- _ => rewrite H
         | H : _ = false |- _ => rewrite H
         end;
  rewrite ?files_not_diff, ?one_true, ?one_false; cbn; rewrite ?one_true, ?one_false.

Lemma handleEscape_input (now : Z) (m : model) :
  anyInputFocused m = true ->
  inputsFocused (handleEscape now m).1 = inputsFocused m - 1 /\
  subViewsOpen (handleEscape now m).1 = subViewsOpen m /\
  confirmAction (handleEscape now m).1 = confirmAction m.
Proof. escape_cases m; escape_done. Qed.

Lemma handleEscape_subview (now : Z) (m : model) :
  anyInputFocused m = false ->
  0 < subViewsOpen m ->
  inputsFocused (handleEscape now m).1 = 0 /\
  subViewsOpen (handleEscape now m).1 = subViewsOpen m - 1 /\
  confirmAction (handleEscape now m).1 = confirmAction m /\
  (diffOpen m = true -> diffOpen (handleEscape now m).1 = false) /\
  (diffOpen m = false -> comparisonOpen m = true ->
   comparisonOpen (handleEscape now m).1 = false).
Proof. escape_cases m; escape_done. Qed.

Lemma handleEscape_token (now : Z) (m : model) :
  anyInputFocused m = false ->
  subViewsOpen m = 0 ->
  tokenPending m = true ->
  confirmAction (handleEscape now m).1 = "" /\
  statusMsg (handleEscape now m).1 = "❌ Action cancelled" /\
  statusExpiry (handleEscape now m).1 = now + 2000 /\
  inputsFocused (handleEscape now m).1 = 0 /\
  subViewsOpen (handleEscape now m).1 = 0.
Proof. escape_cases m; escape_done. Qed.

Lemma handleEscape_idle (now : Z) (m : model) :
  anyInputFocused m = false ->
  subViewsOpen m = 0 ->
  tokenPending m = false ->
  (handleEscape now m).1 = m.
Proof. escape_cases m; escape_done. Qed.

Lemma handleEscape_no_command (now : Z) (m : model) : (handleEscape now m).2 = CmdNil.
Proof. unfold handleEscape. by repeat case_match. Qed.

Lemma escapes_snoc (times : list Z) (later : Z) (m : model) :
  escapes (times ++ [later]) m = (handleEscape later (escapes times m)).1.
Proof. unfold escapes. by rewrite fold_left_app. Qed.

(** No more presses than there are sub-views open close one sub-view each
    and keep the token. *)
Lemma escapes_close_subviews (times : list Z) (m : model) :
  anyInputFocused m = false ->
  Z.of_nat (length times) <= subViewsOpen m ->
  anyInputFocused (escapes times m) = false /\
  subViewsOpen (escapes times m) = subViewsOpen m - Z.of_nat (length times) /\
  confirmAction (escapes times m) = confirmAction m.
Proof.
  revert m. induction times as [|now times IH]; intros m Hin Hlen.
  - cbn in *. split; [done|]. split; [lia | done].
  - cbn [length] in Hlen.
    destruct (handleEscape_subview now m Hin ltac:(lia)) as (Hi1 & Hs1 & Hc1 & _).
    change (escapes (now :: times) m) with (escapes times (handleEscape now m).1).
    destruct (IH (handleEscape now m).1) as (? & Hs & Hc).
    + by apply anyInputFocused_count.
    + lia.
    + split; [done|]. split; [cbn [length]; lia | by rewrite Hc].
Qed.

(** C6, as the code has it.  In [main_new.go] the escape key goes to
    [handleEscape], which issues no command and undoes one level: with an
    input focused, one input is blurred and the sub-views and the token stay;
    else, with a sub-view open, one sub-view is closed (the diff view before
    the branch comparison before the sub-mode of the tools tab) and the token
    stays; else a pending token is cleared and the cancellation message is
    set; else nothing changes.  Up to three sub-views can be open at once.
    So with no input focused, the diff view open and a token pending, the
    first escape closes the diff view and keeps the token; every press keeps
    the token and closes one sub-view as long as one is open, and it is the
    press after the last of them that clears the token and sets the message:
    the second when the diff view is the only sub-view open.  In [main.go]
    the escape key never changes the token. *)
Theorem handleEscape_one_level_per_press (now : Z) (m : model) :
  handleKeyPress now "esc" m = handleEscape now m
  /\ (handleEscape now m).2 = CmdNil
  /\ (anyInputFocused m = true ->
      inputsFocused (handleEscape now m).1 = inputsFocused m - 1 /\
      subViewsOpen (handleEscape now m).1 = subViewsOpen m /\
      confirmAction (handleEscape now m).1 = confirmAction m)
  /\ (anyInputFocused m = false -> 0 < subViewsOpen m ->
      inputsFocused (handleEscape now m).1 = 0 /\
      subViewsOpen (handleEscape now m).1 = subViewsOpen m - 1 /\
      confirmAction (handleEscape now m).1 = confirmAction m /\
      (diffOpen m = true -> diffOpen (handleEscape now m).1 = false) /\
      (diffOpen m = false -> comparisonOpen m = true ->
       comparisonOpen (handleEscape now m).1 = false))
  /\ (anyInputFocused m = false -> subViewsOpen m = 0 -> tokenPending m = true ->
      confirmAction (handleEscape now m).1 = "" /\
      statusMsg (handleEscape now m).1 = "❌ Action cancelled" /\
      statusExpiry (handleEscape now m).1 = now + 2000 /\
      inputsFocused (handleEscape now m).1 = 0 /\
      subViewsOpen (handleEscape now m).1 = 0)
  /\ (anyInputFocused m = false -> subViewsOpen m = 0 -> tokenPending m = false ->
      (handleEscape now m).1 = m)
  /\ (anyInputFocused m = false -> diffOpen m = true ->
      viewMode (handleKeyPress now "esc" m).1 = "files" /\
      confirmAction (handleKeyPress now "esc" m).1 = confirmAction m)
  /\ (forall (times : list Z) (later : Z),
        anyInputFocused m = false -> tokenPending m = true ->
        Z.of_nat (length times) <= subViewsOpen m ->
        confirmAction (escapes times m) = confirmAction m /\
        subViewsOpen (escapes times m) = subViewsOpen m - Z.of_nat (length times) /\
        (Z.of_nat (length times) = subViewsOpen m ->
         confirmAction (escapes (times ++ [later]) m) = "" /\
         statusMsg (escapes (times ++ [later]) m) = "❌ Action cancelled"))
  /\ (forall legacy : MainGoKeys.model,
        MainGoKeys.confirmAction (MainGoKeys.handleEscape legacy) =
        MainGoKeys.confirmAction legacy).
Proof.
  assert (forall n x, handleKeyPress n "esc" x = handleEscape n x) as Hesc by done.
  split; [done|]. split; [apply handleEscape_no_command|].
  split; [apply handleEscape_input|]. split; [apply handleEscape_subview|].
  split; [apply handleEscape_token|]. split; [apply handleEscape_idle|].
  split; [|split].
  - intros Hin Hdiff. rewrite Hesc. revert Hin Hdiff.
    unfold anyInputFocused, handleEscape, diffOpen.
    destruct (Focused (commitInput m)); [done|].
    destruct (Focused (branchInput m)); [done|].
    destruct (Focused (rebaseInput m)); [done|]. by intros _ ->.
  - intros times later Hin Htok Hlen.
    destruct (escapes_close_subviews times m Hin Hlen) as (Hin' & Hsub' & Hc').
    split; [done|]. split; [done|]. intros Hall.
    rewrite escapes_snoc.
    assert (tokenPending (escapes times m) = true) as Htok'.
    { unfold tokenPending in *. by rewrite Hc'. }
    destruct (handleEscape_token later (escapes times m) Hin' ltac:(lia) Htok')
      as (? & ? & _).
    done.
  - intros legacy. unfold MainGoKeys.handleEscape. by repeat case_match.
Qed.

End Escape.

Lemma handleEscape_one_level_per_press_witness :
  let first := escapes [0] diffWithToken in
  let second := escapes ([0] ++ [500]) diffWithToken in
  viewMode first = "files" /\ confirmAction first = confirmAction diffWithToken /\
  confirmAction second = "" /\ statusMsg second = "❌ Action cancelled".
Proof.
  destruct (handleEscape_one_level_per_press 0 diffWithToken)
    as (_ & _ & _ & _ & _ & _ & Hd & H & _).
  destruct (H [0] 500) as (Hkept & _ & Hlast); [reflexivity | reflexivity | by vm_compute|].
  destruct Hlast as [? ?]; [reflexivity|].
  destruct Hd as [Hv _]; [reflexivity..|]. done.
Defined.

(** C6 as stated fails.  In [main_new.go] the state [diffOverComparison] is
    reachable: the diff view is open over a comparison that is still open,
    with a token pending; the first escape closes the diff view, the second
    closes the comparison and leaves the token, with no cancellation message;
    it takes a third to clear it.  In [main.go] the escape key leaves the
    diff view and never clears the token. *)
Lemma escape_twice_keeps_token :
  reachable "/repo" diffOverComparison /\
  anyInputFocused diffOverComparison = false /\
  viewMode diffOverComparison = "diff" /\
  confirmAction diffOverComparison = "delete-branch:feature" /\
  viewMode (escapes [0] diffOverComparison) = "files" /\
  confirmAction (escapes [0; 1] diffOverComparison) = "delete-branch:feature" /\
  statusMsg (escapes [0; 1] diffOverComparison) =
    "⚠️ Press 'y' to confirm delete 'feature', or ESC to cancel" /\
  confirmAction (escapes [0; 1; 2] diffOverComparison) = "" /\
  MainGoKeys.state (MainGoKeys.handleEscape legacyDiffWithToken) = "files" /\
  MainGoKeys.confirmAction
    (MainGoKeys.handleEscape (MainGoKeys.handleEscape legacyDiffWithToken)) =
    "delete-branch:feature".
Proof.
  split; [apply reachable_run; constructor|]. repeat split.
Qed.

(** In [main.go] the escape key leaves a text input or the diff view, one at
    a time as well, and never touches the confirmation: there [q] cancels. *)
Remark legacy_escape_keeps_token (m : MainGoKeys.model) :
  MainGoKeys.confirmAction (MainGoKeys.handleEscape m) = MainGoKeys.confirmAction m.
Proof. unfold MainGoKeys.handleEscape. by repeat case_match. Qed.

(** ** No commit without staged files *)

Lemma newEvents_record (w : World) (e : Event) : newEvents w (record e w) = [e].
Proof.
  unfold newEvents, record. cbn [events].
  induction (events w) as [|x l IH]; [done | apply IH].
Qed.

Lemma events_record (w : World) (e : Event) : events (record e w) = events w ++ [e].
Proof. reflexivity. Qed.

(** The runner only adds to the record. *)
Lemma attemptGitCommand_events (n : nat) (d : Z) (repoPath : string) (args : list string)
    (w : World) :
  exists more, events (attemptGitCommand n d repoPath args w).2 = events w ++ more.
Proof.
  revert d w. induction n as [|n IH]; intros d w.
  - exists []. by rewrite app_nil_r.
  - cbn [attemptGitCommand]. unfold mbind, IO_bind, bind, osStat, sleep, runGit.
    destruct (statAnswer w (statsSoFar w) _).
    + destruct (IH d (record (EvSleep d) (record (EvStat (Filepath.Join [repoPath; ".git"; "index.lock"]) true) w)))
        as [more Hm].
      eexists. rewrite Hm, !events_record, <- !app_assoc. reflexivity.
    + destruct (runAnswer _ _ _ _) as [output err].
      destruct (bool_decide (err <> None) && Contains output "index.lock").
      * match goal with |- context [attemptGitCommand n ?d' _ _ ?w'] =>
          destruct (IH d' w') as [more Hm] end.
        eexists. rewrite Hm, !events_record, <- !app_assoc. reflexivity.
      * eexists. cbn [snd ret]. rewrite !events_record, <- !app_assoc. reflexivity.
Qed.

Section CommitGate.

Context {toolkit : Toolkit}.

Lemma commit_tab_refused (now : Z) (m : model) :
  anyInputFocused m = false ->
  StagedFiles (gitState m) <= 0 ->
  handleKeyPress now "2" m =
  (setStatus "❌ No files staged. Stage files first in workspace." now 3000 m, CmdNil).
Proof.
  intros Hin Hst. unfold handleKeyPress. rewrite Hin. cbn.
  destruct (Z.ltb_spec 0 (StagedFiles (gitState m))); [lia | done].
Qed.

Lemma commit_tab_entered (now : Z) (m : model) :
  anyInputFocused m = false ->
  0 < StagedFiles (gitState m) ->
  handleKeyPress now "2" m = (set_selectedSuggestion 0 (set_tab "commit" m), CmdNil).
Proof.
  intros Hin Hst. unfold handleKeyPress. rewrite Hin. cbn.
  destruct (Z.ltb_spec 0 (StagedFiles (gitState m))); [done | lia].
Qed.

End CommitGate.

Lemma commitWithMessage_check_first (repoPath message : string) (w : World) :
  exists rest,
    newEvents w (commitWithMessage repoPath message w).2 =
    EvRun repoPath stagedCheck (runAnswer w (runsSoFar w) repoPath stagedCheck).1
      (runAnswer w (runsSoFar w) repoPath stagedCheck).2 :: rest /\
    ((runAnswer w (runsSoFar w) repoPath stagedCheck).2 = None ->
     TrimSpace (runAnswer w (runsSoFar w) repoPath stagedCheck).1 = "" ->
     rest = [] /\
     (commitWithMessage repoPath message w).1 =
       StatusMsg "❌ No staged changes to commit. Stage files first.") /\
    (forall e, (runAnswer w (runsSoFar w) repoPath stagedCheck).2 = Some e ->
     rest = [] /\
     (commitWithMessage repoPath message w).1 =
       StatusMsg ("❌ Failed to check staged changes: " +:+ e)).
Proof.
  unfold commitWithMessage, mbind, IO_bind, bind, runGit. fold stagedCheck.
  destruct (runAnswer w (runsSoFar w) repoPath stagedCheck) as [output err]. cbn [fst snd].
  set (w1 := record _ w).
  destruct err as [e|].
  - exists []. cbn [ret snd fst]. subst w1. rewrite (newEvents_record w).
    split; [done|]. split; [done|]. intros e' [= <-]. done.
  - destruct (decide (TrimSpace output = "")) as [E|NE].
    + exists []. rewrite E, bool_decide_eq_true_2 by done. cbn [ret snd fst]. subst w1.
      rewrite (newEvents_record w). repeat split; done.
    + rewrite bool_decide_eq_false_2.
      2:{ unfold len. destruct (TrimSpace output); [done|]. cbn [String.length]. lia. }
      unfold executeGitCommand.
      destruct (attemptGitCommand_events maxRetries 100 repoPath ["commit"; "-m"; message] w1)
        as [more Hm].
      destruct (attemptGitCommand maxRetries 100 repoPath _ w1) as [[out err] w2].
      cbn [snd fst] in *. exists more.
      assert (newEvents w w2 = EvRun repoPath stagedCheck output None :: more) as Hn.
      { unfold newEvents. rewrite Hm. subst w1. rewrite events_record, <- app_assoc.
        cbn [app]. induction (events w) as [|x l IH]; [done | apply IH]. }
      destruct err; cbn [snd ret]; (split; [done|]); split; done.
Qed.

(** C7.  With no input focused and a staged-file count of 0, the key [2]
    changes nothing but the status message and its expiry, and issues no
    command; with a positive count it opens the commit tab.
    [commitWithMessage] asks for the staged files before anything else; when
    that listing is blank it returns the error message and has run nothing
    else, and likewise when the listing fails; so [git commit] is only ever
    run after a listing that was not blank. *)
Theorem commit_needs_staged_files `{toolkit : Toolkit} (now : Z) (m : model)
    (repoPath message : string) (w : World) :
  (anyInputFocused m = false -> StagedFiles (gitState m) <= 0 ->
   tab (handleKeyPress now "2" m).1 = tab m /\
   handleKeyPress now "2" m =
   (setStatus "❌ No files staged. Stage files first in workspace." now 3000 m, CmdNil))
  /\ (anyInputFocused m = false -> 0 < StagedFiles (gitState m) ->
      tab (handleKeyPress now "2" m).1 = "commit")
  /\ (exists rest,
        newEvents w (commitWithMessage repoPath message w).2 =
        EvRun repoPath stagedCheck (runAnswer w (runsSoFar w) repoPath stagedCheck).1
          (runAnswer w (runsSoFar w) repoPath stagedCheck).2 :: rest)
  /\ ((runAnswer w (runsSoFar w) repoPath stagedCheck).2 = None ->
      TrimSpace (runAnswer w (runsSoFar w) repoPath stagedCheck).1 = "" ->
      (commitWithMessage repoPath message w).1 =
        StatusMsg "❌ No staged changes to commit. Stage files first." /\
      List.filter isCommit (newEvents w (commitWithMessage repoPath message w).2) = [])
  /\ (List.filter isCommit (newEvents w (commitWithMessage repoPath message w).2) <> [] ->
      (runAnswer w (runsSoFar w) repoPath stagedCheck).2 = None /\
      TrimSpace (runAnswer w (runsSoFar w) repoPath stagedCheck).1 <> "").
Proof.
  destruct (commitWithMessage_check_first repoPath message w) as (rest & Hev & Hblank & Hfail).
  split; [|split; [|split; [|split]]].
  - intros Hin Hst. by rewrite commit_tab_refused.
  - intros Hin Hst. by rewrite commit_tab_entered.
  - by exists rest.
  - intros Herr Hout. destruct (Hblank Herr Hout) as [-> Hmsg]. split; [done|].
    by rewrite Hev.
  - rewrite Hev. intros Hc.
    destruct ((runAnswer w (runsSoFar w) repoPath stagedCheck).2) as [e|] eqn:Ee.
    + destruct (Hfail e eq_refl) as [-> _]. done.
    + split; [done|]. intros Hout. destruct (Hblank eq_refl Hout) as [-> _]. done.
Qed.

Lemma commit_needs_staged_files_witness :
  tab (handleKeyPress 0 "2" (initialModel "/repo")).1 = tab (initialModel "/repo") /\
  statusMsg (handleKeyPress 0 "2" (initialModel "/repo")).1 =
    "❌ No files staged. Stage files first in workspace." /\
  (commitWithMessage "/repo" "feat: x" nothingStaged).1 =
    StatusMsg "❌ No staged changes to commit. Stage files first." /\
  List.filter isCommit
    (newEvents nothingStaged (commitWithMessage "/repo" "feat: x" nothingStaged).2) = [].
Proof.
  destruct (commit_needs_staged_files 0 (initialModel "/repo") "/repo" "feat: x" nothingStaged)
    as (H1 & _ & _ & H4 & _).
  destruct H1 as [Ht Hk]; [reflexivity | simpl; lia |].
  destruct H4 as [Hm Hc]; [reflexivity | reflexivity |].
  split; [exact Ht|]. split; [by rewrite Hk|]. split; [exact Hm | exact Hc].
Defined.
(** ** The worked example: a modified [src/auth/login.go] *)

Section LoginExample.

Context {U : Unicode}.














End LoginExample.



(** The example needs the whole function: a diff that adds it on one line
    only has fewer lines added than removed, a rule tried before the one for
    added functions, and its type is [fix]. *)
Remark login_example_on_one_line :
  LinesAdded (parseDiffOutput (U := plainUnicode) id loginDiffOneLine) = 1 /\
  LinesRemoved (parseDiffOutput (U := plainUnicode) id loginDiffOneLine) = 3 /\
  AnalysisMessage
    (analyzeFileChange (U := plainUnicode) (mkGitChange loginFile "M " "" "")
       (parseDiffOutput (U := plainUnicode) id loginDiffOneLine))
  = "fix(auth): improve security in ValidateToken".
Proof. repeat split; vm_compute; reflexivity. Qed.

(** ** All conflicts resolved? *)

Lemma finalReturn_true (conflicts : list ConflictFile) : finalReturn conflicts = true.
Proof. unfold finalReturn. by destruct conflicts. Qed.

Lemma anyUnresolved_forallb (conflicts : list ConflictFile) :
  anyUnresolved conflicts = negb (forallb IsResolved conflicts).
Proof.
  induction conflicts as [|c cs IH]; [done|]. cbn [anyUnresolved forallb].
  destruct (IsResolved c); [apply IH | done].
Qed.

Lemma readConflicts_unresolved (repoPath : string) (files : list string) (w : World) :
  Forall (fun c => IsResolved c = false) (readConflicts repoPath files w).1.
Proof.
  revert w. induction files as [|file files IH]; intros w; [constructor|].
  cbn [readConflicts]. destruct (bool_decide (file = "")); [apply IH|].
  unfold mbind, IO_bind, bind, readFile.
  destruct (fileContent w _) as [content|]; [|apply IH].
  match goal with |- context [readConflicts repoPath files ?w'] =>
    specialize (IH w'); destruct (readConflicts repoPath files w') as [others w2] end.
  destruct (0 <? _); cbn [ret fst] in *; [by constructor | done].
Qed.

Lemma forallb_unresolved (conflicts : list ConflictFile) :
  Forall (fun c => IsResolved c = false) conflicts ->
  forallb IsResolved conflicts = bool_decide (conflicts = []).
Proof. intros H. destruct H as [|c cs Hc _]; [done|]. cbn [forallb]. by rewrite Hc. Qed.

Section Conflicts.

Context {toolkit : Toolkit}.

(** C9, as the code has it.  The last expression of [allConflictsResolved]
    is true of every list, so the check is the loop before it: it is true
    exactly when every file's [IsResolved] flag is; the regions inside the
    files play no part.  [loadConflicts] builds every file with the flag
    unset, so on the list it delivers the check is true only when the list
    is empty. *)
Theorem allConflictsResolved_is_file_flags (m other : model) (repoPath : string)
    (w : World) :
  (forall conflicts, finalReturn conflicts = true)
  /\ allConflictsResolved m = forallb IsResolved (conflicts m)
  /\ (IsResolved <$> conflicts other = IsResolved <$> conflicts m ->
      allConflictsResolved other = allConflictsResolved m)
  /\ (forall loaded, (loadConflicts repoPath w).1 = ConflictsMsg loaded ->
      Forall (fun c => IsResolved c = false) loaded /\
      allConflictsResolved (Update 0 (ConflictsMsg loaded) m).1 = bool_decide (loaded = [])).
Proof.
  assert (forall x, allConflictsResolved x = forallb IsResolved (conflicts x)) as Hall.
  { intros x. unfold allConflictsResolved. rewrite anyUnresolved_forallb, finalReturn_true.
    by destruct (forallb _ _). }
  split; [apply finalReturn_true|]. split; [apply Hall|]. split.
  - intros Heq. rewrite !Hall.
    assert (forall l, forallb IsResolved l = forallb id (IsResolved <$> l)) as Hmap.
    { induction l as [|c l IH]; [done|]. cbn. by rewrite IH. }
    by rewrite !Hmap, Heq.
  - intros loaded Hload.
    assert (Forall (fun c => IsResolved c = false) loaded) as Hun.
    { revert Hload. unfold loadConflicts, mbind, IO_bind, bind, runGit.
      destruct (runAnswer _ _ _ _) as [output [e|]]; [done|].
      match goal with |- context [readConflicts repoPath ?fs ?w'] =>
        pose proof (readConflicts_unresolved repoPath fs w') as H;
        destruct (readConflicts repoPath fs w') as [cs w2] end.
      cbn [ret fst]. by intros [= <-]. }
    split; [done|]. rewrite Hall.
    assert (conflicts (Update 0 (ConflictsMsg loaded) m).1 = loaded) as ->.
    { cbn [Update]. by destruct (0 <? _). }
    by apply forallb_unresolved.
Qed.

End Conflicts.

(** On the one conflicted file of [mergingRepo]: the flag is unset and the
    check is false. *)
Lemma allConflictsResolved_is_file_flags_witness :
  Forall (fun c => IsResolved c = false)
    [mkConflictFile "a.txt" [mkConflict 0 ["ours"] ["theirs"]] false] /\
  allConflictsResolved
    (Update 0 (ConflictsMsg [mkConflictFile "a.txt" [mkConflict 0 ["ours"] ["theirs"]] false])
       (initialModel "/repo")).1 =
  bool_decide ([mkConflictFile "a.txt" [mkConflict 0 ["ours"] ["theirs"]] false] = []).
Proof.
  destruct (allConflictsResolved_is_file_flags (initialModel "/repo") (initialModel "/repo")
              "/repo" mergingRepo) as (_ & _ & _ & H).
  apply H. reflexivity.
Defined.

(** C9 as stated fails: the check is not always true.  On the list that
    [loadConflicts] delivers for a repository with one conflicted file it is
    false, and [c] is answered with the request to resolve first. *)
Lemma allConflictsResolved_false_after_load :
  (loadConflicts "/repo" mergingRepo).1 =
    ConflictsMsg [mkConflictFile "a.txt" [mkConflict 0 ["ours"] ["theirs"]] false] /\
  allConflictsResolved
    (Update 0 (loadConflicts "/repo" mergingRepo).1 (initialModel "/repo")).1 = false /\
  statusMsg
    (run 0 [(loadConflicts "/repo" mergingRepo).1; KeyMsg "c"] (initialModel "/repo"))
  = "❌ Resolve all conflicts before continuing".
Proof. repeat split. Qed.

(** ** Deleting a branch needs a confirmation *)

Lemma HasPrefix_TrimPrefix (s p : string) :
  HasPrefix s p = true -> s = p +:+ TrimPrefix s p.
Proof.
  intros H. unfold TrimPrefix. rewrite H. revert s H.
  induction p as [|a p IH]; intros s H; [done|].
  destruct s as [|b s]; [done|]. cbn [HasPrefix] in H.
  destruct (decide (a = b)) as [->|]; [|done].
  cbn [String.length drop]. rewrite append_cons. f_equal. by apply IH.
Qed.

Section BranchDelete.

Context {toolkit : Toolkit}.

Ltac no_delete :=
  let name := fresh "name" in
  let Hd := fresh "Hd" in
  intros name Hd; cbn in Hd;
  repeat match goal with
         | H : deletes _ (CmdBatch _) |- _ => inversion H; subst; clear H
         | H : _ ∈ _ :: _ |- _ => apply elem_of_cons in H as [-> | H]
         | H : _ ∈ [] |- _ => by apply elem_of_nil in H
         | H : deletes _ (widgetCmd ?t) |- _ => destruct t; by inversion H
         | H : deletes _ _ |- _ => by inversion H
         end.

Ltac token_kept := left; reflexivity.
Ltac token_other := right; left; cbn; unfold otherTokens; set_solver.

Ltac safe_leaf :=
  unfold panic; solve [split; [first [token_kept | token_other] | no_delete]].

Lemma safe_table (msg msg' : Msg) (t : Table) (put : Table -> model -> model)
    (m0 m : model) :
  (forall t', confirmAction (put t' m) = confirmAction m0) ->
  safeStep msg m0 (passToTable msg' t put m).
Proof.
  intros Hput. unfold passToTable. destruct (TableUpdate msg' t) as [t' cmd].
  split; [left; apply Hput | no_delete].
Qed.

Lemma safe_handleEscape (now : Z) (m : model) :
  safeStep (KeyMsg "esc") m (handleEscape now m).
Proof. unfold handleEscape. repeat case_match; safe_leaf. Qed.

Lemma safe_handleConflictKeys (now : Z) (key : string) (m : model) :
  safeStep (KeyMsg key) m (handleConflictKeys now key m).
Proof.
  unfold handleConflictKeys.
  repeat case_match; try safe_leaf; by apply safe_table.
Qed.

Lemma safe_handleWorkspaceKeys (now : Z) (key : string) (m : model) :
  safeStep (KeyMsg key) m (handleWorkspaceKeys now key m).
Proof.
  unfold handleWorkspaceKeys.
  repeat case_match; try safe_leaf; try apply safe_handleConflictKeys; by apply safe_table.
Qed.

Lemma safe_handleCommitKeys (key : string) (m : model) :
  safeStep (KeyMsg key) m (handleCommitKeys key m).
Proof. unfold handleCommitKeys, commitSelected. repeat case_match; safe_leaf. Qed.

Lemma safe_handleBranchesKeys (now : Z) (key : string) (m : model) :
  safeStep (KeyMsg key) m (handleBranchesKeys now key m).
Proof.
  unfold handleBranchesKeys.
  repeat case_match; try safe_leaf; try (by apply safe_table).
  - (* d on a branch that is not the current one *)
    split; [|no_delete]. right. right.
    match goal with H : bool_decide (key = "d") = true |- _ =>
      apply bool_decide_eq_true_1 in H; subst key end.
    split; [done|]. eexists. split; [by apply selected_Some|]. split; [done|]. reflexivity.
  - (* y with a deletion pending *)
    match goal with H : bool_decide (key = "y") = true |- _ =>
      apply bool_decide_eq_true_1 in H; subst key end.
    split; [token_other|]. intros name Hd. cbn in Hd. inversion Hd; subst.
    split; [done|]. split; [|done]. by apply HasPrefix_TrimPrefix.
Qed.

Lemma safe_handleToolsKeys (now : Z) (key : string) (m : model) :
  safeStep (KeyMsg key) m (handleToolsKeys now key m).
Proof.
  unfold handleToolsKeys, handleToolsMenuKeys, handleUndoKeys, handleRebaseKeys,
    handleHistoryKeys, handleRemoteKeys, markRebase, orElse.
  repeat case_match; simplify_eq; try safe_leaf; by apply safe_table.
Qed.

Lemma safe_handleKeyPress (now : Z) (key : string) (m : model) :
  safeStep (KeyMsg key) m (handleKeyPress now key m).
Proof.
  unfold handleKeyPress.
  case_bool_decide as Hesc; [subst key; apply safe_handleEscape|].
  unfold handleTabKeys.
  repeat case_match; try safe_leaf;
    auto using safe_handleWorkspaceKeys, safe_handleCommitKeys, safe_handleBranchesKeys,
      safe_handleToolsKeys.
Qed.

Lemma confirmAction_adjustTableSizes (m : model) :
  confirmAction (adjustTableSizes m) = confirmAction m.
Proof. unfold adjustTableSizes. by repeat case_match. Qed.

Lemma safe_updateComponent (msg : Msg) (m : model) :
  safeStep msg m (updateComponent msg m).
Proof.
  unfold updateComponent, passToTable.
  repeat case_match; simplify_eq; safe_leaf.
Qed.

Lemma safe_Update (now : Z) (msg : Msg) (m : model) : safeStep msg m (Update now msg m).
Proof.
  destruct msg; cbn [Update]; try apply safe_handleKeyPress; try safe_leaf.
  - split; [left; cbn [fst]; by rewrite confirmAction_adjustTableSizes | no_delete].
  - case_match; safe_leaf.
  - case_match; safe_leaf.
  - apply safe_updateComponent.
  - apply safe_updateComponent.
Qed.

Lemma deleteToken_not_other (name : string) : deleteToken name ∉ otherTokens.
Proof.
  unfold deleteToken, otherTokens. rewrite append_cons.
  rewrite !elem_of_cons, elem_of_nil. intros H.
  repeat destruct H as [H | H]; done.
Qed.

Lemma deleteToken_inj (a b : string) : deleteToken a = deleteToken b -> a = b.
Proof. unfold deleteToken. rewrite !append_cons. intros H. by simplify_eq. Qed.

Lemma token_set_by_d (now : Z) (msg : Msg) (m : model) (name : string) :
  confirmAction (Update now msg m).1 = deleteToken name ->
  confirmAction m <> deleteToken name ->
  msg = KeyMsg "d" /\
  exists branch, selected (branches m) (branchesTable m) = Some branch /\
    Name branch = name /\ IsCurrent branch = false.
Proof.
  intros Hnew Hold. destruct (safe_Update now msg m) as [[Hk | [Ho | Hd]] _].
  - congruence.
  - rewrite Hnew in Ho. by apply deleteToken_not_other in Ho.
  - destruct Hd as (-> & branch & Hsel & Hcur & Htok). split; [done|].
    exists branch. repeat split; [done | | done].
    apply deleteToken_inj. congruence.
Qed.

Lemma token_history (wd : string) (m : model) (name : string) :
  reachable wd m -> confirmAction m = deleteToken name ->
  exists m0 branch, reachable wd m0 /\
    selected (branches m0) (branchesTable m0) = Some branch /\
    Name branch = name /\ IsCurrent branch = false.
Proof.
  induction 1 as [|m now msg Hm IH]; intros Htok.
  - cbn in Htok. unfold deleteToken in Htok. by rewrite append_cons in Htok.
  - destruct (decide (confirmAction m = deleteToken name)) as [E | NE]; [by apply IH|].
    destruct (token_set_by_d now msg m name Htok NE) as (_ & branch & ? & ? & ?).
    by exists m, branch.
Qed.

Lemma delete_on_current (now : Z) (m : model) (branch : Branch) :
  tab m = "branches" -> anyInputFocused m = false -> branchComparison m = None ->
  selected (branches m) (branchesTable m) = Some branch -> IsCurrent branch = true ->
  Update now (KeyMsg "d") m = (setStatus "❌ Cannot delete current branch" now 3000 m, CmdNil).
Proof.
  intros Htab Hin Hcmp Hsel Hcur. cbn [Update]. unfold handleKeyPress.
  rewrite Hin. cbn. unfold handleTabKeys. rewrite Htab. cbn.
  unfold handleBranchesKeys.
  assert (Focused (branchInput m) = false) as ->.
  { unfold anyInputFocused in Hin. by repeat (apply orb_false_iff in Hin as [Hin ?]). }
  rewrite Hcmp. cbn. apply selected_Some in Hsel as [Hg Hsel]. by rewrite Hg, Hsel, Hcur.
Qed.

End BranchDelete.

(** C10.  A branch is deleted only on confirmation, and the confirmation is
    asked only for a branch that is not the current one:
    (1) in the branches tab, [d] on the current branch only sets the status
        message: no command, and the token stays as it was;
    (2) whenever a step makes the token [delete-branch:name], the step is
        the key [d] with a branch of that name selected that is not the
        current one;
    (3) in every reachable state that holds the token [delete-branch:name],
        a branch of that name was selected and not current in an earlier
        reachable state;
    (4) a step issues the deletion of [name] only when it is the key [y] and
        the token is [delete-branch:name], and it clears the token. *)
Theorem delete_branch_needs_confirmation `{toolkit : Toolkit} :
  (forall (now : Z) (m : model) (branch : Branch),
     tab m = "branches" -> anyInputFocused m = false -> branchComparison m = None ->
     selected (branches m) (branchesTable m) = Some branch -> IsCurrent branch = true ->
     Update now (KeyMsg "d") m =
     (setStatus "❌ Cannot delete current branch" now 3000 m, CmdNil) /\
     confirmAction (Update now (KeyMsg "d") m).1 = confirmAction m)
  /\ (forall (now : Z) (msg : Msg) (m : model) (name : string),
        confirmAction (Update now msg m).1 = deleteToken name ->
        confirmAction m <> deleteToken name ->
        msg = KeyMsg "d" /\
        exists branch, selected (branches m) (branchesTable m) = Some branch /\
          Name branch = name /\ IsCurrent branch = false)
  /\ (forall (wd : string) (m : model) (name : string),
        reachable wd m -> confirmAction m = deleteToken name ->
        exists m0 branch, reachable wd m0 /\
          selected (branches m0) (branchesTable m0) = Some branch /\
          Name branch = name /\ IsCurrent branch = false)
  /\ (forall (now : Z) (msg : Msg) (m : model) (name : string),
        deletes name (Update now msg m).2 ->
        msg = KeyMsg "y" /\ confirmAction m = deleteToken name /\
        confirmAction (Update now msg m).1 = "").
Proof.
  split; [|split; [|split]].
  - intros now m branch Htab Hin Hcmp Hsel Hcur.
    rewrite (delete_on_current now m branch) by done. done.
  - apply token_set_by_d.
  - apply token_history.
  - intros now msg m name Hd. by destruct (safe_Update now msg m) as [_ H]; apply H.
Qed.

Lemma delete_branch_needs_confirmation_witness :
  Update 0 (KeyMsg "d") onMain =
  (setStatus "❌ Cannot delete current branch" 0 3000 onMain, CmdNil) /\
  confirmAction (Update 0 (KeyMsg "d") onMain).1 = confirmAction onMain.
Proof.
  destruct (delete_branch_needs_confirmation (toolkit := plainToolkit)) as [H _].
  apply (H 0 onMain (mainBranch true)); reflexivity.
Defined.

(** C10, as stated, fails: after [d] on [feature], a switch to [feature] and
    the reload of the branches, the state holds the token of the branch now
    checked out; [y] issues its deletion; and [d] on it leaves a token that
    is not empty. *)
Lemma delete_token_outlives_switch :
  reachable "/repo" switchedToFeature /\
  selected (branches switchedToFeature) (branchesTable switchedToFeature) =
    Some (featureBranch true) /\
  confirmAction switchedToFeature = deleteToken "feature" /\
  (Update 0 (KeyMsg "y") switchedToFeature).2 = CmdDeleteBranch "/repo" "feature" /\
  Update 0 (KeyMsg "d") switchedToFeature =
    (setStatus "❌ Cannot delete current branch" 0 3000 switchedToFeature, CmdNil) /\
  confirmAction (Update 0 (KeyMsg "d") switchedToFeature).1 = "delete-branch:feature".
Proof.
  split; [apply reachable_run; constructor|].
  repeat split.
Qed.

(** [main.go] guards [d] the same way and confirms with [y] the same way. *)
Remark legacy_delete_guard (m : MainGoKeys.model) (branch : Branch) :
  MainGoKeys.state m = "branches" ->
  MainGoKeys.selectedBranch m = Some branch ->
  MainGoKeys.handleDelete m =
  Some (if IsCurrent branch then (m, Some "❌ Cannot delete current branch")
        else (MainGoKeys.mkModel (MainGoKeys.state m) (MainGoKeys.branches m)
                (MainGoKeys.branchesCursor m) (MainGoKeys.customInput m)
                (MainGoKeys.editInput m) (MainGoKeys.branchInput m)
                ("delete-branch:" +:+ Name branch),
              Some ("⚠️ Press 'y' to confirm delete branch '" +:+ Name branch +:+
                    "', or 'q' to cancel"))).
Proof.
  intros Hs Hb. unfold MainGoKeys.handleDelete, MainGoKeys.selectedBranch in *.
  rewrite Hs, bool_decide_eq_true_2 by done. cbn [andb].
  destruct (0 <? _); [|done]. cbn [andb] in Hb.
  destruct (MainGoKeys.branchesCursor m <? _); [|done].
  rewrite Hb. by destruct (IsCurrent branch).
Qed.

Lemma HasPrefix_byte (x c : ascii) (s : string) :
  HasPrefix (String x s) (String c "") = bool_decide (x = c).
Proof.
  cbn [HasPrefix]. destruct (decide (c = x)) as [<-|Hc].
  - destruct s; by rewrite bool_decide_eq_true_2.
  - by rewrite bool_decide_eq_false_2 by congruence.
Qed.

Lemma free_cons (c x : ascii) (s : string) :
  free c (String x s) <-> x <> c /\ free c s.
Proof.
  unfold free. cbn [Contains]. rewrite HasPrefix_byte.
  case_bool_decide as Hc; simpl.
  - split; [done|]. by intros [H _].
  - split; [by intros H | by intros [_ H]].
Qed.

Lemma Split_go_last (c : ascii) (acc l : string) :
  free c l -> Split_go (String c "") 0 acc l = [String.rev acc +:+ l].
Proof.
  revert acc. induction l as [|x l IH]; intros acc Hl.
  - simpl. by rewrite append_nil_r.
  - apply free_cons in Hl as [Hc Hl].
    cbn [Split_go]. rewrite HasPrefix_byte, bool_decide_eq_false_2 by done.
    rewrite IH by done. by rewrite rev_cons, append_assoc.
Qed.

Lemma Split_go_piece (c : ascii) (acc l rest : string) :
  free c l ->
  Split_go (String c "") 0 acc (l +:+ String c rest)
  = (String.rev acc +:+ l) :: Split_go (String c "") 0 "" rest.
Proof.
  revert acc. induction l as [|x l IH]; intros acc Hl.
  - rewrite append_nil_l, append_nil_r.
    cbn [Split_go]. by rewrite HasPrefix_byte, bool_decide_eq_true_2.
  - apply free_cons in Hl as [Hc Hl].
    rewrite append_cons.
    cbn [Split_go]. rewrite HasPrefix_byte, bool_decide_eq_false_2 by done.
    rewrite IH by done. by rewrite rev_cons, append_assoc.
Qed.

Lemma Split_last (c : ascii) (l : string) : free c l -> Split l (String c "") = [l].
Proof. intros H. unfold Split. by rewrite Split_go_last. Qed.

Lemma Split_piece (c : ascii) (l rest : string) :
  free c l -> Split (l +:+ String c rest) (String c "") = l :: Split rest (String c "").
Proof. intros H. unfold Split. by rewrite Split_go_piece. Qed.

Lemma Split_nonempty (s sep : string) : Split s sep <> [].
Proof.
  unfold Split. generalize 0%nat, EmptyString.
  induction s as [|x s IH]; intros skip acc; [done|].
  cbn [Split_go]. destruct skip; [|apply IH]. destruct (HasPrefix _ _); [done | apply IH].
Qed.

(** X1.  Whatever the path, the status and the diff, the classifier
    answers with one of the six types of the conventional commits. *)
Theorem determineAdvancedCommitType_range (file status : string) (diff : DiffInfo) :
  determineAdvancedCommitType file status diff ∈ conventionalTypes.
Proof.
  unfold determineAdvancedCommitType, conventionalTypes.
  repeat case_match; set_solver.
Qed.

(** X2.  The diff is read for modified files only.  A status that holds [A]
    or [D], or no [M], gives the same type for every diff; with an [A] the
    type is test, docs or feat; with a [D] and no [A], or with none of the
    three letters (an untracked [??], a rename), it is chore. *)
Theorem determineAdvancedCommitType_reads_diff_of_modified_only
    (file status : string) (diff other : DiffInfo) :
  (Contains status "A" = true \/ Contains status "D" = true \/
   Contains status "M" = false ->
   determineAdvancedCommitType file status diff =
   determineAdvancedCommitType file status other)
  /\ (Contains status "A" = true ->
      determineAdvancedCommitType file status diff ∈ ["test"; "docs"; "feat"])
  /\ (Contains status "A" = false ->
      Contains status "D" = true \/ Contains status "M" = false ->
      determineAdvancedCommitType file status diff = "chore").
Proof.
  unfold determineAdvancedCommitType. split; [|split].
  - intros [-> | [H | H]].
    + by repeat case_match.
    + rewrite H. by destruct (Contains status "A"); repeat case_match.
    + rewrite H. by destruct (Contains status "A"); repeat case_match.
  - intros ->. repeat case_match; set_solver.
  - intros -> [-> | H]; [done|]. rewrite H. by case_match.
Qed.

Lemma determineAdvancedCommitType_reads_diff_of_modified_only_witness :
  determineAdvancedCommitType "notes.txt" "??" emptyDiffInfo = "chore".
Proof.
  destruct (determineAdvancedCommitType_reads_diff_of_modified_only
              "notes.txt" "??" emptyDiffInfo emptyDiffInfo) as (_ & _ & H).
  apply H; [reflexivity | right; reflexivity].
Defined.

(** X3.  The scope of a path.  Below [src/] or [lib/] it is the next
    directory, and [core] for a file directly inside; a path whose first
    directory has no scope of its own has that directory as its scope; a
    path without a directory has one of the scopes test, docs, config or
    none. *)
Theorem determineScope_by_first_directory (top dir rest : string) :
  free slash top -> free slash dir ->
  (oneOf top ["src"; "lib"] = true ->
   determineScope (top +:+ "/" +:+ dir +:+ "/" +:+ rest) = dir /\
   determineScope (top +:+ "/" +:+ dir) = "core")
  /\ (oneOf top ["src"; "lib"; "tests"; "test"; "docs"; "documentation"; "config";
                 "configs"; "api"; "ui"; "frontend"; "client"; "backend"; "server";
                 "scripts"; "tools"] = false ->
      determineScope (top +:+ "/" +:+ rest) = top)
  /\ determineScope top ∈ ["test"; "docs"; "config"; ""].
Proof.
  intros Htop Hdir. split; [|split].
  - intros Hsrc. unfold determineScope. split.
    + change ("/" +:+ dir +:+ "/" +:+ rest) with (String slash (dir +:+ String slash rest)).
      change "/" with (String slash "").
      rewrite (Split_piece slash top) by done.
      rewrite (Split_piece slash dir) by done.
      pose proof (Split_nonempty rest (String slash "")) as Hne.
      destruct (Split rest (String slash "")) as [|p ps]; [done|].
      cbn [length first hd nth]. rewrite Hsrc.
      replace (1 <? Z.of_nat (S (S (S (length ps))))) with true by (symmetry; apply Z.ltb_lt; lia).
      by replace (2 <? Z.of_nat (S (S (S (length ps))))) with true
        by (symmetry; apply Z.ltb_lt; lia).
    + change ("/" +:+ dir) with (String slash dir).
      change "/" with (String slash "").
      rewrite (Split_piece slash top) by done. rewrite (Split_last slash dir) by done.
      cbn [length first hd nth]. by rewrite Hsrc.
  - intros Hplain. unfold determineScope.
    change ("/" +:+ rest) with (String slash rest). change "/" with (String slash "").
    rewrite (Split_piece slash top) by done.
    pose proof (Split_nonempty rest (String slash "")) as Hne.
    destruct (Split rest (String slash "")) as [|p ps]; [done|].
    cbn [length first hd].
    replace (1 <? Z.of_nat (S (S (length ps)))) with true by (symmetry; apply Z.ltb_lt; lia).
    unfold oneOf in *. cbn [existsb] in *.
    repeat (apply orb_false_iff in Hplain as [? Hplain]).
    repeat match goal with H : bool_decide _ = false |- _ => rewrite H; clear H end.
    done.
  - unfold determineScope. change "/" with (String slash "").
    rewrite (Split_last slash top) by done. cbn [length].
    change (1 <? Z.of_nat 1) with false. cbv iota.
    repeat case_match; set_solver.
Qed.

Lemma determineScope_by_first_directory_witness :
  determineScope ("lib" +:+ "/" +:+ "parser" +:+ "/" +:+ "lex/scan.go") = "parser" /\
  determineScope ("lib" +:+ "/" +:+ "parser") = "core".
Proof.
  destruct (determineScope_by_first_directory "lib" "parser" "lex/scan.go") as (H & _ & _);
    [reflexivity.. |].
  apply H. reflexivity.
Defined.

(** ** The changes and the counts of a status text *)

Lemma countStatusLine_bounds (acc : Z * Z) (line : string) :
  acc.1 <= (countStatusLine acc line).1 <= acc.1 + 1 /\
  acc.2 <= (countStatusLine acc line).2 <= acc.2 + 1.
Proof.
  destruct acc as [s u]. unfold countStatusLine.
  repeat case_match; cbn [fst snd]; lia.
Qed.

Lemma fold_counts_bounds (lines : list string) (acc : Z * Z) :
  acc.1 <= (fold_left countStatusLine lines acc).1 <= acc.1 + Z.of_nat (length lines) /\
  acc.2 <= (fold_left countStatusLine lines acc).2 <= acc.2 + Z.of_nat (length lines).
Proof.
  revert acc. induction lines as [|l lines IH]; intros acc; cbn [fold_left length]; [lia|].
  pose proof (countStatusLine_bounds acc l). specialize (IH (countStatusLine acc l)). lia.
Qed.

(** X4.  The snapshot is clean for the empty text and for no other: a text
    of blank lines is not clean although nothing is counted.  Neither count
    is negative nor above the number of lines. *)
Theorem parseGitStatusOutput_clean_and_bounds (statusText : string) :
  ((parseGitStatusOutput statusText).2 = true <-> statusText = "")
  /\ parseGitStatusOutput newline = (0, 0, false)
  /\ 0 <= stagedOf (parseGitStatusOutput statusText)
       <= Z.of_nat (length (Split statusText newline))
  /\ 0 <= unstagedOf (parseGitStatusOutput statusText)
       <= Z.of_nat (length (Split statusText newline)).
Proof.
  unfold parseGitStatusOutput, stagedOf, unstagedOf.
  pose proof (fold_counts_bounds (Split statusText newline) (0, 0)) as H. cbn [fst snd] in H.
  split; [|split; [reflexivity|]].
  - destruct (decide (statusText = "")); [done|].
    destruct (fold_left _ _ _). cbn [snd]. split; [done | congruence].
  - destruct (decide (statusText = "")) as [->|]; [cbn; lia|].
    destruct (fold_left _ _ _). cbn [fst snd] in *. lia.
Qed.

Lemma parseGitStatusOutput_clean_and_bounds_witness :
  (parseGitStatusOutput "").2 = true.
Proof.
  destruct (parseGitStatusOutput_clean_and_bounds "") as ([_ H] & _). by apply H.
Defined.

Lemma filter_snoc_length {A : Type} (f : A -> bool) (l : list A) (x : A) :
  Z.of_nat (length (List.filter f (l ++ [x]))) =
  Z.of_nat (length (List.filter f l)) + (if f x then 1 else 0).
Proof.
  rewrite List.filter_app, length_app. cbn [List.filter]. destruct (f x); cbn [length]; lia.
Qed.

Lemma statusLine_counts (changes : list GitChange) (acc : Z * Z) (line : string) :
  porcelainLine line ->
  acc.1 = Z.of_nat (length (List.filter stagedChange changes)) ->
  acc.2 = Z.of_nat (length (List.filter unstagedChange changes)) ->
  (countStatusLine acc line).1 =
    Z.of_nat (length (List.filter stagedChange (statusLine changes line))) /\
  (countStatusLine acc line).2 =
    Z.of_nat (length (List.filter unstagedChange (statusLine changes line))).
Proof.
  intros Hline Hs Hu. destruct acc as [s u]. cbn [fst snd] in *.
  unfold countStatusLine, statusLine.
  destruct (decide (TrimSpace line = "")) as [|Hnb]; [done|].
  destruct Hline as [|Hlen]; [done|].
  assert ((len line <? 3) = false) as -> by (apply Z.ltb_ge; lia).
  assert ((2 <=? len line) = true) as -> by (apply Z.leb_le; lia).
  destruct line as [|x [|y rest]]; [unfold len in Hlen; cbn in Hlen; lia.. |].
  rewrite !filter_snoc_length, <- Hs, <- Hu. unfold stagedChange, unstagedChange, sliceTo.
  change (Z.to_nat 2) with 2%nat. cbn [Status take fst snd].
  split; repeat case_match; lia.
Qed.

Lemma statusLine_length (changes : list GitChange) (line : string) :
  (length changes <= length (statusLine changes line) <= S (length changes))%nat.
Proof.
  unfold statusLine. repeat case_match; rewrite ?length_app; cbn [length]; lia.
Qed.

(** X5.  The list of changes and the two counters read the same text the
    same way: the list has at most one change per line, and on porcelain
    lines (blank, or at least three bytes long) the counters are the numbers
    of staged and of unstaged changes of the list. *)
Theorem parseGitStatus_agrees_with_counts (statusText : string) :
  (length (parseGitStatus statusText) <= length (Split statusText newline))%nat
  /\ (Forall porcelainLine (Split statusText newline) ->
      stagedOf (parseGitStatusOutput statusText) =
        Z.of_nat (length (List.filter stagedChange (parseGitStatus statusText))) /\
      unstagedOf (parseGitStatusOutput statusText) =
        Z.of_nat (length (List.filter unstagedChange (parseGitStatus statusText)))).
Proof.
  split.
  - unfold parseGitStatus.
    assert (forall lines changes,
              (length (fold_left statusLine lines changes) <= length changes + length lines)%nat)
      as H.
    { induction lines as [|l lines IH]; intros changes; cbn [fold_left length]; [lia|].
      pose proof (statusLine_length changes l). specialize (IH (statusLine changes l)). lia. }
    apply (H _ []).
  - intros Hall. unfold parseGitStatusOutput, parseGitStatus, stagedOf, unstagedOf.
    destruct (decide (statusText = "")) as [->|_]; [done|].
    assert (forall lines changes acc,
              Forall porcelainLine lines ->
              acc.1 = Z.of_nat (length (List.filter stagedChange changes)) ->
              acc.2 = Z.of_nat (length (List.filter unstagedChange changes)) ->
              (fold_left countStatusLine lines acc).1 =
                Z.of_nat (length (List.filter stagedChange (fold_left statusLine lines changes)))
              /\ (fold_left countStatusLine lines acc).2 =
                Z.of_nat (length (List.filter unstagedChange
                                    (fold_left statusLine lines changes)))) as H.
    { induction lines as [|l lines IH]; intros changes acc Hl Hs Hu; [done|].
      apply Forall_cons in Hl as [Hl Hls]. cbn [fold_left].
      destruct (statusLine_counts changes acc l Hl Hs Hu). by apply IH. }
    specialize (H (Split statusText newline) [] (0, 0) Hall eq_refl eq_refl).
    by destruct (fold_left countStatusLine _ _).
Qed.

Lemma parseGitStatus_agrees_with_counts_witness :
  stagedOf (parseGitStatusOutput statusExample) =
    Z.of_nat (length (List.filter stagedChange (parseGitStatus statusExample))) /\
  unstagedOf (parseGitStatusOutput statusExample) =
    Z.of_nat (length (List.filter unstagedChange (parseGitStatus statusExample))).
Proof.
  destruct (parseGitStatus_agrees_with_counts statusExample) as [_ H].
  apply H.
  assert (Split statusExample newline = ["M  a.go"; "?? b.go"; " D c.go"; ""]) as ->
    by (vm_compute; reflexivity).
  repeat apply List.Forall_cons; try apply List.Forall_nil;
    first [right; unfold len; cbn; lia | left; reflexivity].
Defined.

(** ** Reading conflict markers *)

Lemma countIf_cons {A : Type} (f : A -> bool) (x : A) (l : list A) :
  countIf f (x :: l) = (if f x then 1 else 0) + countIf f l.
Proof. unfold countIf. cbn [List.filter]. destruct (f x); cbn [length]; lia. Qed.

Lemma countIf_nonneg {A : Type} (f : A -> bool) (l : list A) : 0 <= countIf f l.
Proof. unfold countIf. lia. Qed.

Lemma opens_not_closes (line : string) : opens line = true -> closes line = false.
Proof. unfold opens, closes. destruct line as [|c line]; [done|]. cbn [HasPrefix].
  repeat case_match; congruence. Qed.

Lemma markerLoop_bounds (lines : list string) (st : MarkerState) (i : Z) :
  let st' := markerLoop st i lines in
  Z.of_nat (length (found st')) + (if inConflict st' then 1 else 0) <=
    Z.of_nat (length (found st)) + (if inConflict st then 1 else 0) + countIf opens lines
  /\ Z.of_nat (length (found st')) <= Z.of_nat (length (found st)) + countIf closes lines.
Proof.
  cbv zeta. revert st i. induction lines as [|line lines IH]; intros st i.
  - cbn [markerLoop]. unfold countIf. cbn. lia.
  - cbn [markerLoop]. rewrite !countIf_cons.
    specialize (IH (markerStep st i line) (i + 1)).
    pose proof (countIf_nonneg opens lines). pose proof (countIf_nonneg closes lines).
    assert (Z.of_nat (length (found (markerStep st i line))) +
              (if inConflict (markerStep st i line) then 1 else 0)
            <= Z.of_nat (length (found st)) + (if inConflict st then 1 else 0) +
               (if opens line then 1 else 0)
            /\ Z.of_nat (length (found (markerStep st i line)))
               <= Z.of_nat (length (found st)) + (if closes line then 1 else 0)) as Hstep.
    { unfold markerStep. fold (opens line) (divides line) (closes line).
      destruct (opens line) eqn:Ho.
      - rewrite (opens_not_closes line Ho). cbn [found inConflict]. destruct (inConflict st); lia.
      - destruct (divides line), (closes line), (inConflict st) eqn:Hc, (inOurs st);
          cbn [andb found inConflict]; rewrite ?length_app, ?Hc; cbn [length]; lia. }
    lia.
Qed.

(** X6.  [parseConflictMarkers] reports no more conflicts than the text has
    lines that open one, and no more than it has lines that close one: a
    text without markers has no conflict, and a conflict whose closing
    marker is missing is not reported. *)
Theorem parseConflictMarkers_bounded_by_markers (content : string) :
  Z.of_nat (length (parseConflictMarkers content)) <= countIf opens (Split content newline)
  /\ Z.of_nat (length (parseConflictMarkers content)) <= countIf closes (Split content newline).
Proof.
  unfold parseConflictMarkers.
  pose proof (markerLoop_bounds (Split content newline) (mkMarkerState [] false false 0 [] []) 0)
    as [H1 H2].
  cbn [found inConflict length] in *. destruct (inConflict _); lia.
Qed.

Lemma markerLoop_outside (lines : list string) (st : MarkerState) (i : Z) :
  inConflict st = false -> Forall (fun l => opens l = false) lines ->
  markerLoop st i lines = st.
Proof.
  revert st i. induction lines as [|line lines IH]; intros st i Hc Hall; [done|].
  apply Forall_cons in Hall as [Hl Hall]. cbn [markerLoop].
  assert (markerStep st i line = st) as ->.
  { unfold markerStep. fold (opens line). rewrite Hl, Hc, !andb_false_r. done. }
  by apply IH.
Qed.

Lemma markerLoop_ours (lines : list string) (st : MarkerState) (i : Z) :
  inConflict st = true -> inOurs st = true -> Forall plain lines ->
  markerLoop st i lines =
  mkMarkerState (found st) true true (lineStart st) (oursContent st ++ lines)
    (theirsContent st).
Proof.
  revert st i. induction lines as [|line lines IH]; intros st i Hc Ho Hall.
  - cbn [markerLoop]. rewrite app_nil_r. destruct st; cbn in *; by subst.
  - apply Forall_cons in Hall as [(H1 & H2 & H3) Hall]. cbn [markerLoop].
    assert (markerStep st i line =
            mkMarkerState (found st) true true (lineStart st) (oursContent st ++ [line])
              (theirsContent st)) as ->.
    { unfold markerStep. fold (opens line) (divides line) (closes line).
      by rewrite H1, H2, H3, Hc, Ho. }
    rewrite IH by done. cbn [found lineStart oursContent theirsContent].
    by rewrite <- app_assoc.
Qed.

Lemma markerLoop_theirs (lines : list string) (st : MarkerState) (i : Z) :
  inConflict st = true -> inOurs st = false -> Forall plain lines ->
  markerLoop st i lines =
  mkMarkerState (found st) true false (lineStart st) (oursContent st)
    (theirsContent st ++ lines).
Proof.
  revert st i. induction lines as [|line lines IH]; intros st i Hc Ho Hall.
  - cbn [markerLoop]. rewrite app_nil_r. destruct st; cbn in *; by subst.
  - apply Forall_cons in Hall as [(H1 & H2 & H3) Hall]. cbn [markerLoop].
    assert (markerStep st i line =
            mkMarkerState (found st) true false (lineStart st) (oursContent st)
              (theirsContent st ++ [line])) as ->.
    { unfold markerStep. fold (opens line) (divides line) (closes line).
      by rewrite H1, H2, H3, Hc, Ho. }
    rewrite IH by done. cbn [found lineStart oursContent theirsContent].
    by rewrite <- app_assoc.
Qed.

Lemma markerLoop_app (l1 l2 : list string) (st : MarkerState) (i : Z) :
  markerLoop st i (l1 ++ l2) =
  markerLoop (markerLoop st i l1) (i + Z.of_nat (length l1)) l2.
Proof.
  revert st i. induction l1 as [|x l1 IH]; intros st i.
  - cbn. by rewrite Z.add_0_r.
  - cbn [app markerLoop length]. rewrite IH. f_equal. lia.
Qed.

Lemma HasPrefix_app (p s : string) : HasPrefix (p +:+ s) p = true.
Proof.
  induction p as [|c p IH]; [by destruct s|].
  rewrite append_cons. cbn [HasPrefix]. by destruct (decide (c = c)).
Qed.

(** X7.  One conflict, written with its three markers between lines that
    open no conflict, is read back as it was written: the line it starts
    on, the lines of our side and the lines of their side. *)
Theorem parseConflictMarkers_reads_block (before after ours theirs : list string)
    (ourName theirName : string) :
  Forall newlineFree (before ++ conflictBlock ourName theirName ours theirs ++ after) ->
  Forall (fun l => opens l = false) before ->
  Forall (fun l => opens l = false) after ->
  Forall plain ours -> Forall plain theirs ->
  parseConflictMarkers
    (Join (before ++ conflictBlock ourName theirName ours theirs ++ after) newline)
  = [mkConflict (Z.of_nat (length before)) ours theirs].
Proof.
  intros Hnl Hb Ha Ho Ht. unfold parseConflictMarkers.
  rewrite Split_Join; [|by destruct before | done].
  unfold conflictBlock.
  rewrite markerLoop_app, (markerLoop_outside before) by done.
  rewrite <- !app_assoc. cbn [app markerLoop].
  assert (forall i, markerStep (mkMarkerState [] false false 0 [] []) i ("<<<<<<< " +:+ ourName)
          = mkMarkerState [] true true i [] []) as ->.
  { intros i. unfold markerStep.
    by rewrite (HasPrefix_app "<<<<<<< " ourName). }
  rewrite markerLoop_app, (markerLoop_ours ours) by done.
  cbn [markerLoop found lineStart oursContent theirsContent app].
  match goal with |- context [markerStep ?st ?i "======="] =>
    assert (markerStep st i "=======" =
            mkMarkerState [] true false (0 + Z.of_nat (length before)) ours []) as ->
      by reflexivity end.
  rewrite markerLoop_app, (markerLoop_theirs theirs) by done.
  cbn [markerLoop found lineStart oursContent theirsContent app].
  match goal with |- context [markerStep ?st ?i (">>>>>>> " +:+ theirName)] =>
    assert (markerStep st i (">>>>>>> " +:+ theirName) =
            mkMarkerState [mkConflict (0 + Z.of_nat (length before)) ours theirs]
              false false (0 + Z.of_nat (length before)) ours theirs) as Hclose end.
  { unfold markerStep. rewrite (HasPrefix_app ">>>>>>> " theirName).
    by rewrite !append_cons. }
  rewrite Hclose, (markerLoop_outside after) by done.
  cbn [found]. by rewrite Z.add_0_l.
Qed.

Lemma parseConflictMarkers_reads_block_witness :
  parseConflictMarkers
    (Join (["package a"] ++ conflictBlock "HEAD" "feature" ["x := 1"] ["x := 2"; "y := 3"]
             ++ ["// end"]) newline)
  = [mkConflict (Z.of_nat (length ["package a"])) ["x := 1"] ["x := 2"; "y := 3"]].
Proof.
  apply parseConflictMarkers_reads_block;
    repeat apply List.Forall_cons; try apply List.Forall_nil; try reflexivity;
    by repeat split.
Defined.

(** ** What the diff analyzer reads *)

Lemma contains_elem_of (xs : list string) (x : string) : contains xs x = true <-> x ∈ xs.
Proof.
  unfold contains. induction xs as [|y xs IH]; cbn [existsb].
  - split; [done | by intros ?%elem_of_nil].
  - rewrite orb_true_iff, IH, elem_of_cons, bool_decide_eq_true.
    split; (intros [E | E]; [left; by symmetry | by right]).
Qed.

Lemma contains_false (xs : list string) (x : string) : contains xs x = false <-> x ∉ xs.
Proof. rewrite <- contains_elem_of. by destruct (contains xs x). Qed.

Lemma appendNew_tidy (x : string) (xs : list string) :
  NoDup xs -> "" ∉ xs -> NoDup (appendNew x xs) /\ "" ∉ appendNew x xs.
Proof.
  intros Hnd Hne. unfold appendNew.
  case_bool_decide as Hx; cbn [andb]; [|done].
  destruct (contains xs x) eqn:Hc; cbn [negb]; [done|].
  apply contains_false in Hc. split.
  - apply NoDup_app. split; [done|]. split; [|apply NoDup_singleton].
    intros y Hy ->%list_elem_of_singleton. done.
  - rewrite elem_of_app, list_elem_of_singleton. intros [H | H]; [done | by subst].
Qed.

Lemma scanned_refl (i : DiffInfo) (words : list string) : scanned i i words.
Proof. exists (Keywords i). split; [by destruct i|]. split; [done|]. intros k ?. by left. Qed.

Lemma scanned_trans (a b c : DiffInfo) (w1 w2 words : list string) :
  (forall k, k ∈ w1 -> k ∈ words) -> (forall k, k ∈ w2 -> k ∈ words) ->
  scanned a b w1 -> scanned b c w2 -> scanned a c words.
Proof.
  intros H1 H2 (ks & -> & Hnd & Hin) (ks' & -> & Hnd' & Hin').
  exists ks'. split; [done|]. cbn [Keywords setKeywords] in *. split; [auto|].
  intros k [Hk | Hk]%Hin'; [apply Hin in Hk as [? | ?]; auto | auto].
Qed.

Lemma scanKeyword_scanned topic lineLower st kw :
  scanned st.1 (scanKeyword topic lineLower st kw).1 [kw].
Proof.
  destruct st as [i c]. unfold scanKeyword. cbn [fst].
  destruct (Contains lineLower kw); [|apply scanned_refl]. cbn [fst].
  destruct (contains (Keywords i) kw) eqn:Hc; cbn [negb]; [apply scanned_refl|].
  apply contains_false in Hc.
  exists (Keywords i ++ [kw]). split; [done|]. split.
  - intros Hnd. apply NoDup_app. split; [done|]. split; [|apply NoDup_singleton].
    intros y Hy ->%list_elem_of_singleton. done.
  - intros k. rewrite elem_of_app. naive_solver.
Qed.

Lemma scanVocabulary_scanned lineLower st voc :
  scanned st.1 (scanVocabulary lineLower st voc).1 voc.2.
Proof.
  unfold scanVocabulary. generalize (voc.1). intros topic.
  induction (voc.2) as [|kw kws IH] using rev_ind; [apply scanned_refl|].
  rewrite fold_left_app. cbn [fold_left].
  eapply scanned_trans; [| |apply IH|apply scanKeyword_scanned];
    intros k; rewrite elem_of_app; naive_solver.
Qed.

Lemma scanVocabularies_scanned lineLower vocs st :
  scanned st.1 (fold_left (scanVocabulary lineLower) vocs st).1 (concat vocs.*2).
Proof.
  induction vocs as [|voc vocs IH] using rev_ind; [apply scanned_refl|].
  rewrite fold_left_app. cbn [fold_left].
  eapply scanned_trans; [| |apply IH|apply scanVocabulary_scanned];
    intros k; rewrite fmap_app, concat_app; cbn [fmap list_fmap concat];
    rewrite elem_of_app, app_nil_r; naive_solver.
Qed.

Lemma word_of_vocabularies (k : string) :
  k ∈ concat vocabularies.*2 -> exists voc, voc ∈ vocabularies /\ k ∈ voc.2.
Proof.
  intros (ws & Hk & Hws)%list_elem_of_In%in_concat.
  apply list_elem_of_In, list_elem_of_fmap in Hk as (voc & -> & Hvoc).
  exists voc. split; [done|]. by apply list_elem_of_In.
Qed.

Lemma analyzeLine_other {U : Unicode} (st : DiffInfo * gmap string Z) (line : string) :
  addedLine line = false ->
  analyzeLine st line =
  if removedLine line then (setLinesRemoved (LinesRemoved st.1 + 1) st.1, st.2) else st.
Proof.
  intros H. destruct st as [i c]. unfold analyzeLine.
  fold (addedLine line) (removedLine line). by rewrite H.
Qed.

Lemma analyzeLine_added {U : Unicode} (st : DiffInfo * gmap string Z) (line : string) :
  addedLine line = true ->
  LinesAdded (analyzeLine st line).1 = LinesAdded st.1 + 1 /\
  LinesRemoved (analyzeLine st line).1 = LinesRemoved st.1 /\
  (tidy st.1 -> tidy (analyzeLine st line).1).
Proof.
  intros H. destruct st as [info counts]. cbn [fst]. unfold analyzeLine.
  fold (addedLine line). rewrite H.
  set (i0 := setLinesAdded _ _).
  set (i1 := setFunctions _ _). set (i2 := setVariables _ _).
  set (i3 := if isImportLine line then _ else _).
  set (i4 := if bool_decide _ then _ else i3).
  assert (LinesAdded i4 = LinesAdded info + 1 /\ LinesRemoved i4 = LinesRemoved info /\
          (tidy info -> tidy i4)) as (Ha & Hr & Ht).
  { subst i4 i3 i2 i1 i0. split; [|split].
    - by destruct (bool_decide _), (isImportLine line).
    - by destruct (bool_decide _), (isImportLine line).
    - intros (F & V & I & K & Fe & Ve & Ie & Kv).
      destruct (appendNew_tidy (extractFunctionName line) _ F Fe).
      destruct (appendNew_tidy (extractVariableName line) _ V Ve).
      destruct (appendNew_tidy (extractImportName line) _ I Ie).
      by destruct (bool_decide _), (isImportLine line). }
  clearbody i4.
  pose proof (scanVocabularies_scanned (ToLower line) vocabularies (i4, counts))
    as (ks & Hks & Hnd & Hin).
  destruct (fold_left _ vocabularies _) as [i5 counts']. cbn [fst] in Hks. subst i5.
  cbn [fst]. split; [|split].
  - by repeat case_match.
  - by repeat case_match.
  - intros Ht0. destruct (Ht Ht0) as (F & V & I & K & Fe & Ve & Ie & Kv).
    assert (tidy (setKeywords ks i4)) as Ht5.
    { repeat split; try done; [by apply Hnd|]. cbn [Keywords setKeywords].
      intros k [Hk | Hk]%Hin; [by apply Kv | by apply word_of_vocabularies]. }
    by repeat case_match.
Qed.

Lemma analyzeLine_tidy {U : Unicode} (st : DiffInfo * gmap string Z) (line : string) :
  tidy st.1 -> tidy (analyzeLine st line).1.
Proof.
  destruct (addedLine line) eqn:Ha.
  - by apply analyzeLine_added.
  - rewrite analyzeLine_other by done. by destruct (removedLine line).
Qed.

Lemma analyzeLines_counts {U : Unicode} (lines : list string) (st : DiffInfo * gmap string Z) :
  LinesAdded (fold_left analyzeLine lines st).1 = LinesAdded st.1 + countIf addedLine lines /\
  LinesRemoved (fold_left analyzeLine lines st).1
    = LinesRemoved st.1 + countIf removedLine lines /\
  (tidy st.1 -> tidy (fold_left analyzeLine lines st).1).
Proof.
  revert st. induction lines as [|l lines IH]; intros st.
  - cbn. unfold countIf. cbn. split; [lia|]. split; [lia | done].
  - cbn [fold_left]. destruct (IH (analyzeLine st l)) as (Ha & Hr & Ht).
    rewrite Ha, Hr, !countIf_cons.
    assert (LinesAdded (analyzeLine st l).1 =
              LinesAdded st.1 + (if addedLine l then 1 else 0) /\
            LinesRemoved (analyzeLine st l).1 =
              LinesRemoved st.1 + (if removedLine l then 1 else 0)) as [-> ->].
    { destruct (addedLine l) eqn:Hadd.
      - destruct (analyzeLine_added st l Hadd) as (-> & -> & _).
        assert (removedLine l = false) as ->; [|lia].
        unfold addedLine, removedLine in *. destruct l as [|c l]; [done|].
        cbn [HasPrefix] in *. repeat case_match; try done; congruence.
      - rewrite analyzeLine_other by done.
        destruct (removedLine l); cbn [fst LinesAdded LinesRemoved setLinesRemoved]; lia. }
    split; [lia|]. split; [lia|]. intros H. by apply Ht, analyzeLine_tidy.
Qed.

Lemma analyzeLines_no_added {U : Unicode} (lines : list string) (st : DiffInfo * gmap string Z) :
  Forall (fun l => addedLine l = false) lines ->
  fold_left analyzeLine lines st =
  (setLinesRemoved (LinesRemoved st.1 + countIf removedLine lines) st.1, st.2).
Proof.
  revert st. induction lines as [|l lines IH]; intros st Hall.
  - cbn. unfold countIf. cbn. rewrite Z.add_0_r. by destruct st as [[] ?].
  - apply Forall_cons in Hall as [Hl Hall]. cbn [fold_left].
    rewrite IH, analyzeLine_other, countIf_cons by done.
    destruct (removedLine l); cbn [fst snd LinesRemoved setLinesRemoved].
    + destruct st as [[] ?]. unfold setLinesRemoved. cbn. do 2 f_equal. lia.
    + by rewrite Z.add_0_l.
Qed.

(** X8.  The diff analyzer counts as added the lines that start with [+]
    and not with [+++], and as removed those that start with [-] and not
    with [---]; it reads nothing else of a removed or unchanged line, so a
    diff without an added line gives the removed count and nothing more. *)
Theorem parseDiffOutput_reads_added_lines {U : Unicode} (ord : MapOrder) (diff : string) :
  LinesAdded (parseDiffOutput ord diff) = countIf addedLine (Split diff newline)
  /\ LinesRemoved (parseDiffOutput ord diff) = countIf removedLine (Split diff newline)
  /\ (fair ord -> countIf addedLine (Split diff newline) = 0 ->
      parseDiffOutput ord diff =
      setLinesRemoved (countIf removedLine (Split diff newline)) emptyDiffInfo).
Proof.
  unfold parseDiffOutput.
  pose proof (analyzeLines_counts (Split diff newline) (emptyDiffInfo, ∅)) as (Ha & Hr & _).
  split; [|split].
  - destruct (fold_left _ _ _) as [info counts]. destruct (maxEntry _ _). apply Ha.
  - destruct (fold_left _ _ _) as [info counts]. destruct (maxEntry _ _). apply Hr.
  - intros Hfair Hnone.
    assert (Forall (fun l => addedLine l = false) (Split diff newline)) as Hall.
    { revert Hnone. generalize (Split diff newline). intros lines.
      induction lines as [|l lines IH]; [done|]. rewrite countIf_cons.
      assert (0 <= countIf addedLine lines) by (unfold countIf; lia).
      destruct (addedLine l) eqn:Hl; [lia|]. intros ?. apply Forall_cons. split; [done|].
      apply IH. lia. }
    rewrite analyzeLines_no_added by done. cbn [fst snd].
    assert (maxEntry ord ∅ = ("", 0)) as ->.
    { unfold maxEntry, rangeMap. rewrite map_to_list_empty.
      pose proof (Hfair []) as Hp. apply Permutation_nil_r in Hp. by rewrite Hp. }
    reflexivity.
Qed.

Lemma parseDiffOutput_reads_added_lines_witness :
  parseDiffOutput (U := plainUnicode) id
    ("--- a/x.go" +:+ newline +:+ "-old" +:+ newline +:+ " kept") =
  setLinesRemoved
    (countIf removedLine (Split ("--- a/x.go" +:+ newline +:+ "-old" +:+ newline +:+ " kept")
                            newline)) emptyDiffInfo.
Proof.
  destruct (parseDiffOutput_reads_added_lines (U := plainUnicode) id
              ("--- a/x.go" +:+ newline +:+ "-old" +:+ newline +:+ " kept")) as (_ & _ & H).
  apply H; [intros l; reflexivity | reflexivity].
Defined.

(** X9.  In the result of the diff analyzer no function, variable, import
    or keyword is listed twice, no function, variable or import has the
    empty name, and every keyword is a word of one of the five
    vocabularies. *)
Theorem parseDiffOutput_lists_once {U : Unicode} (ord : MapOrder) (diff : string) :
  tidy (parseDiffOutput ord diff).
Proof.
  unfold parseDiffOutput.
  pose proof (analyzeLines_counts (Split diff newline) (emptyDiffInfo, ∅)) as (_ & _ & Ht).
  destruct (fold_left _ _ _) as [info counts]. destruct (maxEntry _ _).
  cbn [fst] in Ht. apply Ht. unfold tidy. cbn.
  repeat split; try apply NoDup_nil_2; try (by intros ?%elem_of_nil).
  by intros k ?%elem_of_nil.
Qed.

(** ** Numbers and their decimal texts *)

Lemma digit_byte (d : nat) : (d < 10)%nat -> Z.of_N (byte (digit d)) = 48 + Z.of_nat d.
Proof.
  intros H. do 10 (destruct d as [|d]; [reflexivity|]). lia.
Qed.

Lemma digitsValue_digit (acc : Z) (d : nat) (rest : string) :
  (d < 10)%nat ->
  digitsValue acc (String (digit d) rest) = digitsValue (acc * 10 + Z.of_nat d) rest.
Proof.
  intros H. cbn [digitsValue]. rewrite (digit_byte d H).
  assert ((48 <=? 48 + Z.of_nat d) && (48 + Z.of_nat d <=? 57) = true) as ->.
  { apply andb_true_iff. split; apply Z.leb_le; lia. }
  f_equal. lia.
Qed.

Lemma itoa_go_digits (fuel n : nat) (acc : string) :
  (n < fuel)%nat ->
  exists k : Z, 0 < k /\
    forall a, digitsValue a (itoa_go fuel n acc) = digitsValue (a * k + Z.of_nat n) acc.
Proof.
  revert n acc. induction fuel as [|fuel IH]; intros n acc Hn; [lia|].
  cbn [itoa_go].
  pose proof (Nat.mod_upper_bound n 10 ltac:(lia)) as Hmod.
  pose proof (Nat.div_mod_eq n 10) as Hdiv.
  destruct (n / 10 =? 0)%nat eqn:Hq.
  - apply Nat.eqb_eq in Hq. exists 10. split; [lia|]. intros a.
    rewrite digitsValue_digit by done. f_equal. lia.
  - apply Nat.eqb_neq in Hq.
    destruct (IH (n / 10)%nat (String (digit (n mod 10)) acc)) as (k & Hk & Heq).
    { apply Nat.lt_le_trans with n; [|lia]. apply Nat.div_lt; lia. }
    exists (k * 10). split; [lia|]. intros a.
    rewrite Heq, digitsValue_digit by done. f_equal.
    assert (Z.of_nat n = 10 * Z.of_nat (n / 10) + Z.of_nat (n mod 10)) as -> by lia.
    ring.
Qed.

Lemma itoa_go_first (fuel n : nat) (acc : string) :
  exists (d : nat) (rest : string), (d < 10)%nat /\ itoa_go (S fuel) n acc = String (digit d) rest.
Proof.
  revert n acc. induction fuel as [|fuel IH]; intros n acc.
  - cbn [itoa_go]. exists (n mod 10)%nat, acc.
    split; [apply Nat.mod_upper_bound; lia|]. by destruct (_ =? _)%nat.
  - cbn [itoa_go]. cbn [itoa_go] in IH.
    destruct (n / 10 =? 0)%nat.
    + exists (n mod 10)%nat, acc. split; [apply Nat.mod_upper_bound; lia | done].
    + apply IH.
Qed.

Lemma Atoi_unsigned (d : nat) (rest : string) (v : Z) :
  (d < 10)%nat -> digitsValue 0 (String (digit d) rest) = Some v -> 0 <= v < 2 ^ 63 ->
  Atoi (String (digit d) rest) = Some v.
Proof.
  intros Hd Hv Hr.
  assert (Atoi (String (digit d) rest) =
          if bool_decide (String (digit d) rest = "") then None
          else match digitsValue 0 (String (digit d) rest) with
               | Some v => let n := 1 * v in
                           if (- 2 ^ 63 <=? n) && (n <? 2 ^ 63) then Some n else None
               | None => None
               end) as ->.
  { do 10 (destruct d as [|d]; [reflexivity|]). lia. }
  rewrite bool_decide_eq_false_2 by done. rewrite Hv. cbv zeta.
  assert ((- 2 ^ 63 <=? 1 * v) && (1 * v <? 2 ^ 63) = true) as ->.
  { apply andb_true_iff. split; [apply Z.leb_le | apply Z.ltb_lt]; lia. }
  f_equal. lia.
Qed.

(** The decimal text that [strconv.Itoa] writes for a 64-bit number is
    read back by [strconv.Atoi] as that number. *)
Lemma Atoi_Itoa (n : Z) : - 2 ^ 63 <= n < 2 ^ 63 -> Atoi (Itoa n) = Some n.
Proof.
  intros Hn. unfold Itoa. destruct (Z.ltb_spec n 0) as [Hneg | Hpos].
  - set (m := Z.to_nat (- n)).
    destruct (itoa_go_first m m "") as (d & rest & Hd & Hfirst).
    destruct (itoa_go_digits (S m) m "" ltac:(lia)) as (k & _ & Hval).
    specialize (Hval 0). rewrite Hfirst in *.
    change (digitsValue (0 * k + Z.of_nat m) "") with (Some (0 * k + Z.of_nat m)) in Hval.
    rewrite Z.mul_0_l, Z.add_0_l in Hval.
    change (Atoi (String "-" (String (digit d) rest))) with
      (if bool_decide (String (digit d) rest = "") then None
       else match digitsValue 0 (String (digit d) rest) with
            | Some v => let n := -1 * v in
                        if (- 2 ^ 63 <=? n) && (n <? 2 ^ 63) then Some n else None
            | None => None
            end).
    rewrite bool_decide_eq_false_2 by done. rewrite Hval. cbv zeta.
    assert (-1 * Z.of_nat m = n) as -> by (subst m; lia).
    assert ((- 2 ^ 63 <=? n) && (n <? 2 ^ 63) = true) as ->; [|done].
    apply andb_true_iff. split; [apply Z.leb_le | apply Z.ltb_lt]; lia.
  - set (m := Z.to_nat n).
    destruct (itoa_go_first m m "") as (d & rest & Hd & Hfirst).
    destruct (itoa_go_digits (S m) m "" ltac:(lia)) as (k & _ & Hval).
    specialize (Hval 0). rewrite Hfirst in *.
    change (digitsValue (0 * k + Z.of_nat m) "") with (Some (0 * k + Z.of_nat m)) in Hval.
    rewrite Z.mul_0_l, Z.add_0_l in Hval.
    rewrite (Atoi_unsigned d rest (Z.of_nat m)); [f_equal; subst m | done.. | subst m]; lia.
Qed.

Example Atoi_Itoa_example : Atoi (Itoa (-2024)) = Some (-2024).
Proof. apply Atoi_Itoa. lia. Qed.

(** ** What the command runner runs and how long it waits *)

Lemma newEvents_app (w w' : World) (more : list Event) :
  events w' = events w ++ more -> newEvents w w' = more.
Proof.
  unfold newEvents. intros ->. induction (events w) as [|x l IH]; [done | apply IH].
Qed.

Lemma runsOf_app (a b : list Event) : runsOf (a ++ b) = runsOf a ++ runsOf b.
Proof. apply omap_app. Qed.

Lemma sleepsOf_app (a b : list Event) : sleepsOf (a ++ b) = sleepsOf a ++ sleepsOf b.
Proof. apply omap_app. Qed.

Lemma runsOf_cons (e : Event) (l : list Event) :
  runsOf (e :: l) =
  match e with EvRun _ argv _ _ => argv :: runsOf l | _ => runsOf l end.
Proof. by destruct e. Qed.

Lemma sleepsOf_cons (e : Event) (l : list Event) :
  sleepsOf (e :: l) = match e with EvSleep ms => ms :: sleepsOf l | _ => sleepsOf l end.
Proof. by destruct e. Qed.

Lemma total_app (a b : list Z) : total (a ++ b) = total a + total b.
Proof. unfold total. induction a as [|x a IH]; cbn [app foldr]; [done | lia]. Qed.

(** Every call, whatever it meets. *)
Lemma attempt_trace (n : nat) (d : Z) (repoPath : string) (args : list string) (w : World) :
  0 <= d ->
  exists more,
    events (attemptGitCommand n d repoPath args w).2 = events w ++ more /\
    Forall (fun argv => argv = args) (runsOf more) /\
    (length (runsOf more) <= n)%nat /\
    (length (sleepsOf more) <= n)%nat /\
    0 <= total (sleepsOf more) <= d * (2 ^ Z.of_nat n - 1) /\
    ((attemptGitCommand n d repoPath args w).1.2 = None -> runsOf more <> []).
Proof.
  revert d w. induction n as [|n IH]; intros d w Hd.
  - exists []. cbn. rewrite app_nil_r. repeat split; try done; lia.
  - assert (2 ^ Z.of_nat (S n) = 2 * 2 ^ Z.of_nat n) as Hpow
      by (rewrite Nat2Z.inj_succ, Z.pow_succ_r; lia).
    assert (0 < 2 ^ Z.of_nat n) as Hpos by (apply Z.pow_pos_nonneg; lia).
    destruct (lockedAt w repoPath 0) eqn:Hl.
    + rewrite attempt_locked by done.
      match goal with |- context [attemptGitCommand n d _ _ ?w'] =>
        destruct (IH d w' Hd) as (more & Hev & Hruns & Hlen & Hslen & Hsum & Hok) end.
      exists ([EvStat (lockFile repoPath) true; EvSleep d] ++ more).
      rewrite Hev, !events_record, <- !app_assoc. cbn [app].
      rewrite !runsOf_cons, !sleepsOf_cons. cbn [length total foldr]. fold (total (sleepsOf more)).
      rewrite Hpow.
      repeat split; try done; try lia; nia.
    + destruct (lockFailure (invocation w repoPath args 0)) eqn:Hf.
      * rewrite attempt_lock_failure by done.
        match goal with |- context [attemptGitCommand n (d * 2) _ _ ?w'] =>
          destruct (IH (d * 2) w' ltac:(lia)) as (more & Hev & Hruns & Hlen & Hslen & Hsum & Hok)
        end.
        exists ([EvStat (lockFile repoPath) false;
                 EvRun repoPath args (invocation w repoPath args 0).1
                   (invocation w repoPath args 0).2; EvSleep d] ++ more).
        rewrite Hev, !events_record, <- !app_assoc. cbn [app].
        rewrite !runsOf_cons, !sleepsOf_cons. cbn [length total foldr].
        fold (total (sleepsOf more)). rewrite Hpow.
        repeat split; try done; try lia; try nia.
        by apply Forall_cons.
      * rewrite attempt_returns by done.
        exists [EvStat (lockFile repoPath) false;
                EvRun repoPath args (invocation w repoPath args 0).1
                  (invocation w repoPath args 0).2].
        cbn [fst snd]. rewrite !events_record, <- !app_assoc. cbn [app].
        rewrite !runsOf_cons, !sleepsOf_cons.
        change (runsOf []) with (@nil (list string)). change (sleepsOf []) with (@nil Z).
        cbn [length total foldr]. rewrite Hpow.
        repeat split; try done; try lia; try nia.
        by apply Forall_cons.
Qed.

Lemma locked_schedule (n : nat) (d : Z) (repoPath : string) (args : list string) (w : World) :
  (forall k, (k < n)%nat -> lockedAt w repoPath k = true) ->
  exists more,
    events (attemptGitCommand n d repoPath args w).2 = events w ++ more /\
    runsOf more = [] /\ sleepsOf more = replicate n d.
Proof.
  revert w. induction n as [|n IH]; intros w H.
  - exists []. cbn. by rewrite app_nil_r.
  - rewrite attempt_locked by (apply H; lia).
    match goal with |- context [attemptGitCommand n d _ _ ?w'] =>
      destruct (IH w') as (more & Hev & Hruns & Hsleeps) end.
    { intros k Hk. rewrite lockedAt_record_other, lockedAt_record by done. apply H. lia. }
    exists ([EvStat (lockFile repoPath) true; EvSleep d] ++ more).
    rewrite Hev, !events_record, <- !app_assoc. cbn [app].
    by rewrite !runsOf_cons, !sleepsOf_cons, Hruns, Hsleeps.
Qed.

Lemma failing_schedule (n : nat) (d : Z) (repoPath : string) (args : list string)
    (w : World) :
  (forall k, (k < n)%nat -> lockedAt w repoPath k = false) ->
  (forall j, (j < n)%nat -> lockFailure (invocation w repoPath args j) = true) ->
  exists more,
    events (attemptGitCommand n d repoPath args w).2 = events w ++ more /\
    runsOf more = replicate n args /\ sleepsOf more = doubling d n.
Proof.
  revert d w. induction n as [|n IH]; intros d w Hfree Hfail.
  - exists []. cbn. by rewrite app_nil_r.
  - rewrite attempt_lock_failure by (apply Hfree || apply Hfail; lia).
    match goal with |- context [attemptGitCommand n (d * 2) _ _ ?w'] =>
      destruct (IH (d * 2) w') as (more & Hev & Hruns & Hsleeps) end.
    { intros k Hk.
      rewrite lockedAt_record_other, lockedAt_record_other, lockedAt_record by done.
      apply Hfree. lia. }
    { intros j Hj.
      rewrite invocation_record_other, invocation_record, invocation_record_other by done.
      apply Hfail. lia. }
    exists ([EvStat (lockFile repoPath) false;
             EvRun repoPath args (invocation w repoPath args 0).1
               (invocation w repoPath args 0).2; EvSleep d] ++ more).
    rewrite Hev, !events_record, <- !app_assoc. cbn [app].
    by rewrite !runsOf_cons, !sleepsOf_cons, Hruns, Hsleeps.
Qed.

(** X11.  What one call of the command runner costs.  Whatever it meets, it
    runs [git] at most three times, each time with the arguments it was
    given, sleeps at most three times and at most 700 ms in all, and has run
    [git] when it reports no error.  While the lock file stays it runs
    nothing and waits 100 ms three times; while [git] fails on the lock the
    delay doubles: 100, 200 and 400 ms. *)
Theorem executeGitCommand_runs_and_waits (repoPath : string) (args : list string)
    (w : World) :
  let after := newEvents w (executeGitCommand repoPath args w).2 in
  (Forall (fun argv => argv = args) (runsOf after) /\
   (length (runsOf after) <= 3)%nat /\ (length (sleepsOf after) <= 3)%nat /\
   0 <= total (sleepsOf after) <= 700 /\
   ((executeGitCommand repoPath args w).1.2 = None -> runsOf after <> []))
  /\ ((forall k, (k < 3)%nat -> lockedAt w repoPath k = true) ->
      runsOf after = [] /\ sleepsOf after = [100; 100; 100])
  /\ ((forall k, (k < 3)%nat -> lockedAt w repoPath k = false) ->
      (forall j, (j < 3)%nat -> lockFailure (invocation w repoPath args j) = true) ->
      runsOf after = [args; args; args] /\ sleepsOf after = [100; 200; 400]).
Proof.
  cbv zeta. unfold executeGitCommand, maxRetries. split; [|split].
  - destruct (attempt_trace 3 100 repoPath args w ltac:(lia))
      as (more & Hev & Hruns & Hlen & Hslen & Hsum & Hok).
    rewrite (newEvents_app _ _ more Hev). repeat split; try done; lia.
  - intros H. destruct (locked_schedule 3 100 repoPath args w H) as (more & Hev & ? & ?).
    by rewrite (newEvents_app _ _ more Hev).
  - intros Hfree Hfail.
    destruct (failing_schedule 3 100 repoPath args w Hfree Hfail) as (more & Hev & ? & ?).
    by rewrite (newEvents_app _ _ more Hev).
Qed.

Lemma executeGitCommand_runs_and_waits_witness :
  runsOf (newEvents alwaysLocked (executeGitCommand "/repo" ["status"] alwaysLocked).2) = [] /\
  sleepsOf (newEvents alwaysLocked (executeGitCommand "/repo" ["status"] alwaysLocked).2)
    = [100; 100; 100].
Proof.
  destruct (executeGitCommand_runs_and_waits "/repo" ["status"] alwaysLocked) as (_ & H & _).
  apply H. intros k _. reflexivity.
Defined.

(** ** Staging, resetting, pushing, showing a diff *)

Lemma Forall_eq_replicate {A : Type} (x : A) (l : list A) :
  Forall (fun y => y = x) l -> l = replicate (length l) x.
Proof. induction 1 as [|y l -> _ IH]; [done|]. cbn. by rewrite <- IH. Qed.

Lemma executeGitCommand_trace (repoPath : string) (args : list string) (w : World) :
  exists (k : nat) (more : list Event),
    events (executeGitCommand repoPath args w).2 = events w ++ more /\
    runsOf more = replicate k args /\ (k <= 3)%nat /\
    ((executeGitCommand repoPath args w).1.2 = None -> (0 < k)%nat).
Proof.
  unfold executeGitCommand, maxRetries.
  destruct (attempt_trace 3 100 repoPath args w ltac:(lia))
    as (more & Hev & Hruns & Hlen & _ & _ & Hok).
  exists (length (runsOf more)), more. split; [done|]. split; [by apply Forall_eq_replicate|].
  split; [done|]. intros H. specialize (Hok H). destruct (runsOf more); [done | cbn; lia].
Qed.

Lemma len_zero (s : string) : len s = 0 <-> s = "".
Proof. unfold len. destruct s; cbn [String.length]; split; (done || lia). Qed.

(** X12.  [toggleStaging] first lists the staged files, and then runs one
    kind of command only: [git reset HEAD file] when a line of the listing
    is the file (blanks around it apart), [git add file] when none is; when
    the listing fails it runs nothing more, and the batch that reloads the
    changes is only returned after the command has run. *)
Theorem toggleStaging_adds_or_resets (repoPath filePath : string) (w : World) :
  let listing := invocation w repoPath stagedCheck 0 in
  let listed :=
    existsb (fun f => bool_decide (TrimSpace f = filePath))
      (Split (TrimSpace listing.1) newline) in
  exists k : nat,
    (k <= 3)%nat /\
    runsOf (newEvents w (toggleStaging repoPath filePath w).2) =
      stagedCheck :: replicate k (if listed then ["reset"; "HEAD"; filePath]
                                  else ["add"; filePath]) /\
    (listing.2 <> None -> k = 0%nat) /\
    (forall cmds, (toggleStaging repoPath filePath w).1 = BatchMsg cmds ->
       (0 < k)%nat /\
       cmds = [CmdLoadGitChanges repoPath; CmdLoadGitStatus repoPath;
               CmdWidget ("✅ " +:+ (if listed then "Unstaged" else "Staged") +:+ ": " +:+
                          filePath)]).
Proof.
  cbv zeta. unfold invocation. rewrite Nat.add_0_r.
  unfold toggleStaging, mbind, IO_bind, bind, runGit. fold stagedCheck.
  destruct (runAnswer w (runsSoFar w) repoPath stagedCheck) as [output err]. cbn [fst snd].
  set (w1 := record _ w).
  destruct err as [e|].
  - exists 0%nat. cbn [ret fst snd]. subst w1. rewrite (newEvents_record w).
    repeat split; try done; lia.
  - set (listed := existsb _ _).
    match goal with |- context [executeGitCommand repoPath ?args w1] =>
      destruct (executeGitCommand_trace repoPath args w1) as (k & more & Hev & Hruns & Hk & Hok);
      destruct (executeGitCommand repoPath args w1) as [[out err] w2] end.
    cbn [fst snd] in *. exists k.
    assert (runsOf (newEvents w w2) =
            stagedCheck :: replicate k (if listed then ["reset"; "HEAD"; filePath]
                                        else ["add"; filePath])) as Hafter.
    { rewrite (newEvents_app w w2 (EvRun repoPath stagedCheck output None :: more)).
      - rewrite runsOf_cons, Hruns. by destruct listed.
      - rewrite Hev. subst w1. by rewrite events_record, <- app_assoc. }
    destruct err as [e|]; cbn [ret fst snd].
    + repeat split; done.
    + repeat split; try done; try (by apply Hok).
      all: destruct listed; congruence.
Qed.

Lemma toggleStaging_adds_or_resets_witness :
  exists k : nat,
    (k <= 3)%nat /\
    runsOf (newEvents nothingStaged (toggleStaging "/repo" "a.go" nothingStaged).2) =
      stagedCheck :: replicate k ["add"; "a.go"].
Proof.
  destruct (toggleStaging_adds_or_resets "/repo" "a.go" nothingStaged) as (k & Hk & Hruns & _).
  exists k. split; [done|]. exact Hruns.
Defined.

(** X13.  [gitReset] runs [git reset HEAD] only after a status that it could
    read and in which, once the white space around the whole text is cut,
    it counts a staged entry; otherwise the status is all it runs.  When
    the reset succeeds the message names that count. *)
Theorem gitReset_needs_staged_entries (repoPath : string) (w : World) :
  let listing := invocation w repoPath statusCheck 0 in
  let staged := stagedOf (parseGitStatusOutput (TrimSpace listing.1)) in
  let after := runsOf (newEvents w (gitReset repoPath w).2) in
  (listing.2 <> None \/ staged = 0 -> after = [statusCheck])
  /\ (listing.2 = None -> staged = 0 ->
      (gitReset repoPath w).1 = StatusMsg "ℹ️ No staged changes to reset")
  /\ (exists k : nat, (k <= 3)%nat /\ after = statusCheck :: replicate k ["reset"; "HEAD"])
  /\ (forall text, (gitReset repoPath w).1 = StatusMsg text -> HasPrefix text "✅" = true ->
      text = "✅ Reset " +:+ Itoa staged +:+ " staged file(s)" /\ staged <> 0 /\
      ["reset"; "HEAD"] ∈ after).
Proof.
  cbv zeta. unfold invocation, stagedOf. rewrite Nat.add_0_r.
  unfold gitReset, mbind, IO_bind, bind, runGit. fold statusCheck.
  destruct (runAnswer w (runsSoFar w) repoPath statusCheck) as [output err]. cbn [fst snd].
  set (w1 := record _ w). set (staged := (parseGitStatusOutput (TrimSpace output)).1.1).
  destruct err as [e|].
  - cbn [ret fst snd]. subst w1. rewrite (newEvents_record w).
    split; [done|]. split; [done|]. split; [exists 0%nat; split; [lia | done]|].
    intros text [= <-] Hp. rewrite ?append_cons in Hp. cbn in Hp. discriminate.
  - case_bool_decide as Hs.
    + cbn [ret fst snd]. subst w1. rewrite (newEvents_record w).
      split; [done|]. split; [done|]. split; [exists 0%nat; split; [lia | done]|].
      intros text [= <-] Hp. rewrite ?append_cons in Hp. cbn in Hp. discriminate.
    + destruct (executeGitCommand_trace repoPath ["reset"; "HEAD"] w1)
        as (k & more & Hev & Hruns & Hk & Hok).
      destruct (executeGitCommand repoPath ["reset"; "HEAD"] w1) as [[out err] w2].
      cbn [fst snd] in *.
      assert (runsOf (newEvents w w2) = statusCheck :: replicate k ["reset"; "HEAD"]) as Hafter.
      { rewrite (newEvents_app w w2 (EvRun repoPath statusCheck output None :: more)).
        - by rewrite runsOf_cons, Hruns.
        - rewrite Hev. subst w1. by rewrite events_record, <- app_assoc. }
      destruct err as [e|]; cbn [ret fst snd]; rewrite Hafter.
      * split; [by intros [|]|]. split; [done|]. split; [by exists k|].
        intros text [= <-] Hp. rewrite ?append_cons in Hp. cbn in Hp. discriminate.
      * split; [by intros [|]|]. split; [done|]. split; [by exists k|].
        intros text [= <-] _. split; [done|]. split; [done|].
        destruct k as [|k]; [specialize (Hok eq_refl); lia|].
        cbn [replicate]. apply elem_of_cons. right. apply elem_of_cons. by left.
Qed.

Lemma gitReset_needs_staged_entries_witness :
  runsOf (newEvents nothingStaged (gitReset "/repo" nothingStaged).2) = [statusCheck].
Proof.
  destruct (gitReset_needs_staged_entries "/repo" nothingStaged) as (H & _).
  apply H. right. reflexivity.
Defined.

(** The white space is cut around the whole status, so the blank that
    starts the first line is lost: a file that is modified and not staged,
    alone in the status, is counted as staged and the reset is run. *)
Remark gitReset_first_line_loses_its_blank :
  parseGitStatusOutput (" M a.go" +:+ newline) = (0, 1, false) /\
  (gitReset "/repo" oneUnstaged).1 = StatusMsg "✅ Reset 1 staged file(s)" /\
  runsOf (newEvents oneUnstaged (gitReset "/repo" oneUnstaged).2)
    = [statusCheck; ["reset"; "HEAD"]].
Proof. repeat split. Qed.

(** X14.  [gitPush] runs [git push] only after a branch status that it could
    read and that holds the word [ahead]; without the word it says that
    there is nothing to push and has run the status only; and a push that
    is reported was run after the status and the log, once. *)
Theorem gitPush_needs_commits_ahead (repoPath : string) (w : World) :
  let branch := invocation w repoPath branchCheck 0 in
  let after := runsOf (newEvents w (gitPush repoPath w).2) in
  (["push"] ∈ after -> branch.2 = None /\ Contains branch.1 "ahead" = true)
  /\ (branch.2 = None -> Contains branch.1 "ahead" = false ->
      (gitPush repoPath w).1 = StatusMsg "ℹ️ No commits to push" /\ after = [branchCheck])
  /\ (forall output commit, (gitPush repoPath w).1 = PushOutputMsg output commit ->
      after = [branchCheck; ["log"; "-1"; "--oneline"]; ["push"]]).
Proof.
  cbv zeta. unfold invocation. rewrite Nat.add_0_r.
  unfold gitPush, mbind, IO_bind, bind, runGit. fold branchCheck.
  destruct (runAnswer w (runsSoFar w) repoPath branchCheck) as [output err]. cbn [fst snd].
  set (w1 := record _ w).
  destruct err as [e|].
  - cbn [ret fst snd]. subst w1. rewrite (newEvents_record w).
    split; [|done]. intros H. apply elem_of_cons in H as [H | H]; [done|].
    by apply elem_of_nil in H.
  - destruct (Contains output "ahead") eqn:Ha; cbn [negb].
    + destruct (runAnswer w1 (runsSoFar w1) repoPath ["log"; "-1"; "--oneline"])
        as [logOutput logErr].
      set (w2 := record _ w1). cbn [fst].
      destruct (runAnswer w2 (runsSoFar w2) repoPath ["push"]) as [pushOutput pushErr].
      set (w3 := record _ w2).
      assert (runsOf (newEvents w w3) =
              [branchCheck; ["log"; "-1"; "--oneline"]; ["push"]]) as Hafter.
      { erewrite newEvents_app;
          [|subst w3 w2 w1; rewrite !events_record, <- !app_assoc; reflexivity].
        reflexivity. }
      destruct pushErr as [e|]; cbn [ret fst snd]; rewrite Hafter; done.
    + cbn [ret fst snd]. subst w1. rewrite (newEvents_record w).
      split; [|done]. intros H. apply elem_of_cons in H as [H | H]; [done|].
      by apply elem_of_nil in H.
Qed.

Lemma gitPush_needs_commits_ahead_witness :
  (gitPush "/repo" upToDate).1 = StatusMsg "ℹ️ No commits to push" /\
  runsOf (newEvents upToDate (gitPush "/repo" upToDate).2) = [branchCheck].
Proof.
  destruct (gitPush_needs_commits_ahead "/repo" upToDate) as (_ & H & _).
  apply H; reflexivity.
Defined.

(** X15.  [viewDiff] shows the staged diff of the file when there is one,
    and asks for the unstaged diff only when the staged one failed or is
    empty; the diff it returns is never empty. *)
Theorem viewDiff_prefers_staged_diff (repoPath filePath : string) (w : World) :
  let staged := invocation w repoPath ["diff"; "--cached"; filePath] 0 in
  let after := runsOf (newEvents w (viewDiff repoPath filePath w).2) in
  (staged.2 = None -> staged.1 <> "" ->
   (viewDiff repoPath filePath w).1 = DiffMsg staged.1 /\
   after = [["diff"; "--cached"; filePath]])
  /\ (staged.2 <> None \/ staged.1 = "" ->
      after = [["diff"; "--cached"; filePath]; ["diff"; filePath]])
  /\ (forall diff, (viewDiff repoPath filePath w).1 = DiffMsg diff -> diff <> "").
Proof.
  cbv zeta. unfold invocation. rewrite Nat.add_0_r.
  unfold viewDiff, mbind, IO_bind, bind, runGit.
  destruct (runAnswer w (runsSoFar w) repoPath ["diff"; "--cached"; filePath])
    as [output err]. cbn [fst snd].
  set (w1 := record _ w).
  destruct err as [e|]; [|destruct (decide (output = "")) as [-> | Hne]].
  - rewrite bool_decide_eq_true_2 by done. cbn [orb].
    destruct (runAnswer w1 (runsSoFar w1) repoPath ["diff"; filePath]) as [output2 err2].
    set (w2 := record _ w1).
    assert (runsOf (newEvents w w2) = [["diff"; "--cached"; filePath]; ["diff"; filePath]])
      as Hafter.
    { erewrite newEvents_app;
        [|subst w2 w1; rewrite !events_record, <- !app_assoc; reflexivity].
      reflexivity. }
    destruct err2 as [e2|]; [|case_bool_decide as Hz]; cbn [ret fst snd]; rewrite Hafter;
      (split; [done|]); (split; [done|]); intros diff [= <-].
    by rewrite len_zero in Hz.
  - rewrite (bool_decide_eq_true_2 (len "" = 0)) by done. rewrite orb_true_r.
    destruct (runAnswer w1 (runsSoFar w1) repoPath ["diff"; filePath]) as [output2 err2].
    set (w2 := record _ w1).
    assert (runsOf (newEvents w w2) = [["diff"; "--cached"; filePath]; ["diff"; filePath]])
      as Hafter.
    { erewrite newEvents_app;
        [|subst w2 w1; rewrite !events_record, <- !app_assoc; reflexivity].
      reflexivity. }
    destruct err2 as [e2|]; [|case_bool_decide as Hz]; cbn [ret fst snd]; rewrite Hafter;
      (split; [done|]); (split; [done|]); intros diff [= <-].
    by rewrite len_zero in Hz.
  - match goal with |- context [@bool_decide (None <> None) ?d] =>
      assert (@bool_decide _ d = false) as ->
        by (apply bool_decide_eq_false_2; by intros ?) end.
    rewrite !(bool_decide_eq_false_2 (len output = 0)) by (by rewrite len_zero).
    cbn [orb ret fst snd].
    rewrite !(bool_decide_eq_false_2 (len output = 0)) by (by rewrite len_zero).
    cbn [ret fst snd]. subst w1. rewrite (newEvents_record w).
    split; [done|]. split; [by intros [|]|]. by intros diff [= <-].
Qed.

Lemma viewDiff_prefers_staged_diff_witness :
  (viewDiff "/repo" "a.go" stagedDiff).1 = DiffMsg "+x" /\
  runsOf (newEvents stagedDiff (viewDiff "/repo" "a.go" stagedDiff).2)
    = [["diff"; "--cached"; "a.go"]].
Proof.
  destruct (viewDiff_prefers_staged_diff "/repo" "a.go" stagedDiff) as (H & _).
  apply H; [reflexivity | discriminate].
Defined.

(** ** The log *)

Lemma free_app (c : ascii) (a b : string) : free c (a +:+ b) <-> free c a /\ free c b.
Proof.
  induction a as [|x a IH].
  - rewrite append_nil_l. split; [by intros ? | by intros [_ ?]].
  - rewrite append_cons, !free_cons, IH. tauto.
Qed.

Lemma historyLine_logLine (commits : list Commit) (c : Commit) :
  loggable c -> historyLine commits (logLine c) = commits ++ [c].
Proof.
  intros ([Hh _] & [Hm _] & [Ha _] & [Hd _]). unfold historyLine, logLine.
  change "|" with (String bar "").
  change (String bar "" +:+ Message c +:+ String bar "" +:+ Author c +:+ String bar "" +:+ Date c)
    with (String bar (Message c +:+ String bar (Author c +:+ String bar (Date c)))).
  rewrite (Split_piece bar (Hash c)), (Split_piece bar (Message c)),
    (Split_piece bar (Author c)), (Split_last bar (Date c)) by done.
  cbn [length nth]. change (4 <=? Z.of_nat 4) with true. cbv iota. by destruct c.
Qed.

Lemma logLine_newlineFree (c : Commit) : loggable c -> newlineFree (logLine c).
Proof.
  intros ([_ Hh] & [_ Hm] & [_ Ha] & [_ Hd]). unfold logLine.
  change (newlineFree ?s) with (free "010"%char s) in *.
  rewrite !free_app. by repeat split.
Qed.

(** X16.  The log that [git] prints with one line [hash|subject|author|date]
    per commit is read back as those commits, when no field holds a bar or
    a newline; and [loadRecentCommits] reads every output as [loadHistory]
    does: the empty lines it passes over are lines that [loadHistory]
    drops for having fewer than four fields. *)
Theorem log_lines_read_back (commits : list Commit) (output : string) :
  (Forall loggable commits ->
   fold_left historyLine (Split (Join (logLine <$> commits) newline) newline) [] = commits)
  /\ fold_left recentLine (Split output newline) [] =
     fold_left historyLine (Split output newline) [].
Proof.
  split.
  - intros Hall. destruct commits as [|c commits]; [done|].
    rewrite Split_Join; [|done|].
    + assert (forall cs acc, Forall loggable cs ->
                fold_left historyLine (logLine <$> cs) acc = acc ++ cs) as H.
      { induction cs as [|x cs IH]; intros acc Hcs; [by rewrite app_nil_r|].
        apply Forall_cons in Hcs as [Hx Hcs]. cbn [fmap list_fmap fold_left].
        rewrite historyLine_logLine, IH, <- app_assoc by done. done. }
      by rewrite H.
    + apply Forall_fmap. eapply Forall_impl; [done|]. intros x. apply logLine_newlineFree.
  - generalize (Split output newline) (@nil Commit). intros lines.
    induction lines as [|l lines IH]; intros acc; [done|]. cbn [fold_left].
    rewrite IH. f_equal. unfold recentLine. case_bool_decide as Hl; [|done]. by subst l.
Qed.

Lemma log_lines_read_back_witness :
  fold_left historyLine
    (Split (Join (logLine <$> [mkCommit "a1b2c3d" "fix: lock retry" "Ada" "2 days ago";
                               mkCommit "e4f5a6b" "docs: readme" "Bob" "3 days ago"])
              newline) newline) []
  = [mkCommit "a1b2c3d" "fix: lock retry" "Ada" "2 days ago";
     mkCommit "e4f5a6b" "docs: readme" "Bob" "3 days ago"].
Proof.
  destruct (log_lines_read_back
              [mkCommit "a1b2c3d" "fix: lock retry" "Ada" "2 days ago";
               mkCommit "e4f5a6b" "docs: readme" "Bob" "3 days ago"] "") as [H _].
  apply H. repeat apply List.Forall_cons; try apply List.Forall_nil; by repeat split.
Defined.

(** ** Where the commands of a step come from *)

Section ProvenanceProofs.

Context {toolkit : Toolkit}.

Ltac head_of x := lazymatch x with ?f _ => head_of f | _ => x end.

Ltac invert_issued :=
  repeat match goal with
         | H : issued _ (widgetCmd ?t) |- _ => destruct t; cbn [widgetCmd] in H
         | H : issued _ (CmdBatch _) |- _ => inversion H; subst; clear H
         | H : _ ∈ _ :: _ |- _ => apply elem_of_cons in H as [-> | H]
         | H : _ ∈ [] |- _ => by apply elem_of_nil in H
         | H : issued _ ?x |- _ =>
             let h := head_of x in is_constructor h; inversion H; subst; clear H
         end.

Ltac props :=
  repeat match goal with
         | H : bool_decide _ = true |- _ => apply bool_decide_eq_true_1 in H
         | H : bool_decide _ = false |- _ => apply bool_decide_eq_false_1 in H
         | H : _ && _ = true |- _ => apply andb_true_iff in H as [? ?]
         | H : negb _ = true |- _ => apply negb_true_iff in H
         | H : (_ <? _) = true |- _ => apply Z.ltb_lt in H
         | H : (_ <=? _) = true |- _ => apply Z.leb_le in H
         | H : (_ <? _) = false |- _ => apply Z.ltb_ge in H
         | H : (_ <=? _) = false |- _ => apply Z.leb_gt in H
         end; subst.

(** The row a handler has read is the selected one. *)
Ltac rows :=
  repeat match goal with
         | Hg : guarded ?rows ?t = true, He : elemAt ?rows (Cursor ?t) = Some ?x |- _ =>
             pose proof (proj2 (selected_Some rows t x) (conj Hg He)); clear He
         end.

Ltac leaf :=
  let c := fresh "c" in
  let Hi := fresh "Hi" in
  unfold panic; intros c Hi; cbn [snd fst] in Hi; invert_issued;
  first [exact I
        | props; rows; cbn [allowed]; unfold confirmed;
          solve [repeat split; try done; try lia; eauto 6
                | repeat split; try done; try lia; set_solver ] ].

Lemma allowed_table (msg msg' : Msg) (t : Table) (put : Table -> model -> model)
    (m0 m : model) :
  allAllowed msg m0 (passToTable msg' t put m).
Proof.
  unfold passToTable. destruct (TableUpdate msg' t) as [t' cmd]. leaf.
Qed.

Lemma allowed_handleEscape (now : Z) (m : model) :
  allAllowed (KeyMsg "esc") m (handleEscape now m).
Proof. unfold allAllowed. rewrite handleEscape_no_command. leaf. Qed.

Lemma allowed_handleConflictKeys (now : Z) (key : string) (m : model) :
  tab m = "workspace" -> viewMode m = "conflicts" ->
  allAllowed (KeyMsg key) m (handleConflictKeys now key m).
Proof.
  intros Htab Hview. unfold handleConflictKeys.
  repeat case_match; try apply allowed_table; try leaf.
  all: intros c Hi; cbn [snd] in Hi; invert_issued; props; cbn [allowed].
  all: repeat split; try done; try lia; try set_solver.
  all: intros Hnil; by rewrite Hnil in *.
Qed.

Lemma allowed_handleWorkspaceKeys (now : Z) (key : string) (m : model) :
  tab m = "workspace" ->
  allAllowed (KeyMsg key) m (handleWorkspaceKeys now key m).
Proof.
  intros Htab. unfold handleWorkspaceKeys.
  case_bool_decide as Hview; [by apply allowed_handleConflictKeys|].
  repeat case_match; try apply allowed_table; leaf.
Qed.

Lemma allowed_handleCommitKeys (key : string) (m : model) :
  tab m = "commit" ->
  allAllowed (KeyMsg key) m (handleCommitKeys key m).
Proof.
  intros Htab. unfold handleCommitKeys, commitSelected.
  repeat case_match; try leaf.
  all: intros c Hi; cbn [snd] in Hi; invert_issued; try exact I; props; cbn [allowed].
  all: repeat (split; [done|]).
  all: first [ left; by repeat split
             | right; repeat split; try done; eauto ].
Qed.

Lemma allowed_handleBranchesKeys (now : Z) (key : string) (m : model) :
  tab m = "branches" ->
  allAllowed (KeyMsg key) m (handleBranchesKeys now key m).
Proof.
  intros Htab. unfold handleBranchesKeys.
  repeat case_match; try apply allowed_table; leaf.
Qed.

Lemma allowed_handleToolsKeys (now : Z) (key : string) (m : model) :
  tab m = "tools" ->
  allAllowed (KeyMsg key) m (handleToolsKeys now key m).
Proof.
  intros Htab.
  unfold handleToolsKeys, handleToolsMenuKeys, handleUndoKeys, handleRebaseKeys,
    handleHistoryKeys, handleRemoteKeys, markRebase, orElse.
  repeat case_match; simplify_eq; try apply allowed_table; leaf.
Qed.

Lemma allowed_handleKeyPress (now : Z) (key : string) (m : model) :
  allAllowed (KeyMsg key) m (handleKeyPress now key m).
Proof.
  unfold handleKeyPress.
  case_bool_decide as Hesc; [subst key; apply allowed_handleEscape|].
  case_match.
  { intros c Hi. cbn [snd] in Hi. invert_issued. cbn [allowed].
    match goal with H : _ || _ = true |- _ => apply orb_true_iff in H as [H | H] end; props.
    - by left.
    - right. by split. }
  unfold handleTabKeys.
  repeat case_match; props;
    first [ by auto using allowed_handleWorkspaceKeys, allowed_handleCommitKeys,
              allowed_handleBranchesKeys, allowed_handleToolsKeys
          | leaf ].
Qed.

Lemma allowed_updateComponent (msg : Msg) (m : model) :
  allAllowed msg m (updateComponent msg m).
Proof.
  unfold updateComponent, passToTable.
  repeat case_match; simplify_eq; leaf.
Qed.

Lemma allowed_Update (now : Z) (msg : Msg) (m : model) :
  allAllowed msg m (Update now msg m).
Proof.
  destruct msg; cbn [Update]; try apply allowed_handleKeyPress;
    try apply allowed_updateComponent; try leaf.
  all: case_match; leaf.
Qed.

End ProvenanceProofs.

(** X17.  The commands that undo commits or run the rebase are issued by
    the key [y] alone, in the view of the tools tab that asked for the
    confirmation and while the token of that very action is pending; the
    resets undo one commit; and the step that issues the command clears the
    token. *)
Theorem destructive_commands_need_confirmation `{toolkit : Toolkit}
    (now : Z) (msg : Msg) (m : model) :
  (forall repo count, issued (CmdSoftReset repo count) (Update now msg m).2 ->
     confirmed msg m "soft-reset" "undo" /\ count = 1 /\
     confirmAction (Update now msg m).1 = "")
  /\ (forall repo count, issued (CmdMixedReset repo count) (Update now msg m).2 ->
     confirmed msg m "mixed-reset" "undo" /\ count = 1 /\
     confirmAction (Update now msg m).1 = "")
  /\ (forall repo count, issued (CmdHardReset repo count) (Update now msg m).2 ->
     confirmed msg m "hard-reset" "undo" /\ count = 1 /\
     confirmAction (Update now msg m).1 = "")
  /\ (issued CmdExecuteRebase (Update now msg m).2 ->
     confirmed msg m "execute-rebase" "rebase" /\ confirmAction (Update now msg m).1 = "").
Proof.
  repeat split; intros; match goal with H : issued _ _ |- _ =>
    apply allowed_Update in H; cbn [allowed] in H end; unfold confirmed in *; tauto.
Qed.

Lemma destructive_commands_need_confirmation_witness :
  confirmed (KeyMsg "y") softResetPending "soft-reset" "undo" /\ 1 = 1 /\
  confirmAction (Update 0 (KeyMsg "y") softResetPending).1 = "".
Proof.
  destruct (destructive_commands_need_confirmation 0 (KeyMsg "y") softResetPending)
    as (H & _).
  apply (H "/repo" 1). apply issued_here.
Defined.

(** X18.  A commit is issued from the commit tab only: by [enter] on a
    message typed into the focused input, which is not empty and is then
    cleared and the input left; or by [enter] or the space bar on the
    suggestion that is selected, which exists. *)
Theorem commits_come_from_the_commit_tab `{toolkit : Toolkit}
    (now : Z) (msg : Msg) (m : model) (repo message : string) :
  issued (CmdCommitWithMessage repo message) (Update now msg m).2 ->
  tab m = "commit" /\ repo = repoPath m /\
  ((msg = KeyMsg "enter" /\ Focused (commitInput m) = true /\
    message = Value (commitInput m) /\ message <> "" /\
    commitInput (Update now msg m).1 = mkTextInput false "") \/
   ((msg = KeyMsg "enter" \/ msg = KeyMsg " ") /\ Focused (commitInput m) = false /\
    0 < selectedSuggestion m /\
    exists suggestion,
      suggestions m !! Z.to_nat (selectedSuggestion m - 1) = Some suggestion /\
      message = SuggestionMessage suggestion)).
Proof. intros H. by apply allowed_Update in H. Qed.

Lemma commits_come_from_the_commit_tab_witness :
  tab typedMessage = "commit" /\ "/repo" = repoPath typedMessage /\
  ((KeyMsg "enter" = KeyMsg "enter" /\ Focused (commitInput typedMessage) = true /\
    "fix: typo" = Value (commitInput typedMessage) /\ "fix: typo" <> "" /\
    commitInput (Update 0 (KeyMsg "enter") typedMessage).1 = mkTextInput false "") \/
   ((KeyMsg "enter" = KeyMsg "enter" \/ KeyMsg "enter" = KeyMsg " ") /\
    Focused (commitInput typedMessage) = false /\
    0 < selectedSuggestion typedMessage /\
    exists suggestion,
      suggestions typedMessage !! Z.to_nat (selectedSuggestion typedMessage - 1)
        = Some suggestion /\
      "fix: typo" = SuggestionMessage suggestion)).
Proof.
  apply (commits_come_from_the_commit_tab 0 (KeyMsg "enter") typedMessage "/repo" "fix: typo").
  eapply issued_batch; [|apply issued_here]. apply elem_of_cons. by left.
Defined.

(** X19.  The program quits on [ctrl+c], and on [q] when no text input is
    focused, and on nothing else. *)
Theorem quit_only_on_request `{toolkit : Toolkit} (now : Z) (msg : Msg) (m : model) :
  issued CmdQuit (Update now msg m).2 <->
  msg = KeyMsg "ctrl+c" \/ (msg = KeyMsg "q" /\ anyInputFocused m = false).
Proof.
  split.
  - intros H. by apply allowed_Update in H.
  - intros [-> | [-> Hf]]; cbn [Update]; unfold handleKeyPress.
    + cbn. apply issued_here.
    + rewrite Hf. cbn. apply issued_here.
Qed.

Lemma quit_only_on_request_witness :
  issued CmdQuit (Update 0 (KeyMsg "q") (initialModel "/repo")).2.
Proof.
  apply (quit_only_on_request 0 (KeyMsg "q") (initialModel "/repo")). right. by split.
Defined.

(** X20.  The rows that commands act on are the rows under the cursor, and
    the cursor is tested against the end of the rows only.  Staging and the
    diff are asked for the change under the cursor of the files table, and a
    branch is switched to when it is the branch under the cursor and not the
    current one: the cursor is then an index into the rows.  A conflict is
    resolved as ours, theirs or both at the cursor of the conflicts table,
    which is below the number of conflicted files and may be negative: when
    it is not, the closure edits the file under the cursor; when it is, the
    closure panics.  With a negative cursor the step itself panics where it
    reads a row of a list that is not empty (the space key in the files
    view), and issues the resolution at the negative index in the conflicts
    view. *)
Theorem commands_act_on_the_selected_row `{toolkit : Toolkit}
    (now : Z) (msg : Msg) (m : model) (repo : string) :
  (forall file,
     issued (CmdToggleStaging repo file) (Update now msg m).2 \/
     issued (CmdViewDiff repo file) (Update now msg m).2 ->
     tab m = "workspace" /\
     0 <= Cursor (filesTable m) < Z.of_nat (length (changes m)) /\
     exists change,
       changes m !! Z.to_nat (Cursor (filesTable m)) = Some change /\ File change = file)
  /\ (forall name, issued (CmdSwitchBranch repo name) (Update now msg m).2 ->
      msg = KeyMsg "enter" /\ tab m = "branches" /\
      0 <= Cursor (branchesTable m) < Z.of_nat (length (branches m)) /\
      exists branch,
        branches m !! Z.to_nat (Cursor (branchesTable m)) = Some branch /\
        Name branch = name /\ IsCurrent branch = false)
  /\ (forall files index resolution,
      issued (CmdResolveConflict repo files index resolution) (Update now msg m).2 ->
      files = conflicts m /\ index = Cursor (conflictsTable m) /\
      index < Z.of_nat (length (conflicts m)) /\
      resolution ∈ ["ours"; "theirs"; "both"] /\
      (0 <= index ->
       exists conflict, conflicts m !! Z.to_nat index = Some conflict /\
         resolveTarget files index = TargetFile conflict) /\
      (index < 0 -> resolveTarget files index = TargetPanic))
  /\ (tab m = "workspace" -> viewMode m <> "conflicts" -> anyInputFocused m = false ->
      Cursor (filesTable m) < 0 -> changes m <> [] ->
      (Update now (KeyMsg " ") m).2 = CmdPanic)
  /\ (tab m = "workspace" -> viewMode m = "conflicts" -> anyInputFocused m = false ->
      Cursor (conflictsTable m) < 0 -> conflicts m <> [] ->
      (Update now (KeyMsg "o") m).2 =
      CmdResolveConflict (repoPath m) (conflicts m) (Cursor (conflictsTable m)) "ours").
Proof.
  split; [|split; [|split; [|split]]].
  - intros file [H | H]; apply allowed_Update in H; cbn [allowed] in H;
      destruct H as (? & change & [? ?]%selected_in_range & ?); (split; [done|]);
      (split; [done|]); exists change; auto.
  - intros name H. apply allowed_Update in H. cbn [allowed] in H.
    destruct H as (? & ? & branch & [? ?]%selected_in_range & ? & ?).
    repeat (split; [done|]). exists branch. auto.
  - intros files index resolution H. apply allowed_Update in H. cbn [allowed] in H.
    destruct H as (_ & _ & -> & -> & Hlt & ?). repeat (split; [done|]).
    unfold resolveTarget.
    destruct (Z.leb_spec (Z.of_nat (length (conflicts m))) (Cursor (conflictsTable m)));
      [lia|].
    unfold elemAt. split.
    + intros Hpos. destruct (Z.ltb_spec (Cursor (conflictsTable m)) 0); [lia|].
      destruct (lookup_lt_is_Some_2 (conflicts m) (Z.to_nat (Cursor (conflictsTable m))))
        as [conflict Hc]; [lia|].
      exists conflict. by rewrite Hc.
    + intros Hneg. by destruct (Z.ltb_spec (Cursor (conflictsTable m)) 0); [|lia].
  - intros Htab Hview Hin Hneg Hne. cbn [Update]. unfold handleKeyPress.
    rewrite Hin. cbn. unfold handleTabKeys. rewrite Htab. cbn.
    unfold handleWorkspaceKeys.
    rewrite (bool_decide_eq_false_2 (viewMode m = "conflicts")) by done. cbn.
    unfold guarded, elemAt.
    destruct (Z.ltb_spec 0 (Z.of_nat (length (changes m))));
      [|destruct (changes m); [done | cbn [length] in *; lia]].
    destruct (Z.ltb_spec (Cursor (filesTable m)) (Z.of_nat (length (changes m)))); [|lia].
    by destruct (Z.ltb_spec (Cursor (filesTable m)) 0); [|lia].
  - intros Htab Hview Hin Hneg Hne. cbn [Update]. unfold handleKeyPress.
    rewrite Hin. cbn. unfold handleTabKeys. rewrite Htab. cbn.
    unfold handleWorkspaceKeys.
    rewrite (bool_decide_eq_true_2 (viewMode m = "conflicts")) by done.
    unfold handleConflictKeys.
    rewrite (bool_decide_eq_false_2 (length (conflicts m) = 0%nat))
      by (by destruct (conflicts m)).
    by destruct (Z.leb_spec (Z.of_nat (length (conflicts m))) (Cursor (conflictsTable m)));
      [lia|].
Qed.

Lemma commands_act_on_the_selected_row_witness :
  tab twoChanges = "workspace" /\
  0 <= Cursor (filesTable twoChanges) < Z.of_nat (length (changes twoChanges)) /\
  exists change,
    changes twoChanges !! Z.to_nat (Cursor (filesTable twoChanges)) = Some change /\
    File change = "a.go".
Proof.
  destruct (commands_act_on_the_selected_row 0 (KeyMsg " ") twoChanges "/repo") as (H & _).
  apply (H "a.go"). left. apply issued_here.
Defined.

(** The undo table starts with its four rows: two presses of [down] put the
    cursor on the hard reset. *)
Example hard_reset_after_two_downs :
  (Update 0 (KeyMsg "y")
     (run 0 [KeyMsg "4"; KeyMsg "enter"; KeyMsg "down"; KeyMsg "down"; KeyMsg "enter"]
        (initialModel "/repo"))).2 = CmdHardReset "/repo" 1.
Proof. reflexivity. Qed.

(** A cursor below 0 is within reach: [down] on the files table while it
    has no rows leaves the cursor of [plainToolkit] at -1, the changes that
    arrive do not move it, and the space key panics. *)
Remark space_after_down_panics :
  reachable "/repo" downBeforeChanges /\
  Cursor (filesTable downBeforeChanges) = -1 /\
  length (changes downBeforeChanges) = 2%nat /\
  (Update 0 (KeyMsg " ") downBeforeChanges).2 = CmdPanic.
Proof. split; [apply reachable_run; constructor|]. repeat split. Qed.

Lemma allConflictsResolved_flags `{toolkit : Toolkit} (m : model) :
  allConflictsResolved m = forallb IsResolved (conflicts m).
Proof.
  unfold allConflictsResolved. rewrite anyUnresolved_forallb, finalReturn_true.
  by destruct (forallb _ _).
Qed.

(** X21.  The merge is continued by [c] in the conflicts view only, with
    conflicted files listed and every one of them flagged as resolved.  The
    list that [loadConflicts] delivers has no such flag set, so while it is
    the list in the model no key continues the merge. *)
Theorem merge_continues_when_all_flagged `{toolkit : Toolkit}
    (now : Z) (msg : Msg) (m : model) (repo : string) :
  (issued (CmdContinueMerge repo) (Update now msg m).2 ->
   msg = KeyMsg "c" /\ tab m = "workspace" /\ viewMode m = "conflicts" /\
   conflicts m <> [] /\ Forall (fun file => IsResolved file = true) (conflicts m))
  /\ (forall (repoPath : string) (w : World),
      (loadConflicts repoPath w).1 = ConflictsMsg (conflicts m) ->
      ~ issued (CmdContinueMerge repo) (Update now msg m).2).
Proof.
  assert (issued (CmdContinueMerge repo) (Update now msg m).2 ->
          msg = KeyMsg "c" /\ tab m = "workspace" /\ viewMode m = "conflicts" /\
          conflicts m <> [] /\ forallb IsResolved (conflicts m) = true) as Hc.
  { intros H. apply allowed_Update in H. cbn [allowed] in H.
    by rewrite allConflictsResolved_flags in H. }
  split.
  - intros H. destruct (Hc H) as (? & ? & ? & ? & Hall). repeat split; try done.
    apply Forall_forall. intros file Hin.
    rewrite forallb_forall in Hall. by apply Hall, list_elem_of_In.
  - intros repoPath w Hload H. destruct (Hc H) as (_ & _ & _ & Hne & Hall).
    assert (Forall (fun c => IsResolved c = false) (conflicts m)) as Hun.
    { revert Hload. unfold loadConflicts, mbind, IO_bind, bind, runGit.
      destruct (runAnswer _ _ _ _) as [output [e|]]; [done|].
      match goal with |- context [readConflicts repoPath ?fs ?w'] =>
        pose proof (readConflicts_unresolved repoPath fs w') as Hr;
        destruct (readConflicts repoPath fs w') as [cs w2] end.
      cbn [ret fst]. by intros [= <-]. }
    rewrite (forallb_unresolved _ Hun) in Hall. by apply bool_decide_eq_true in Hall.
Qed.

Lemma merge_continues_when_all_flagged_witness :
  KeyMsg "c" = KeyMsg "c" /\ tab flaggedResolved = "workspace" /\
  viewMode flaggedResolved = "conflicts" /\ conflicts flaggedResolved <> [] /\
  Forall (fun file => IsResolved file = true) (conflicts flaggedResolved).
Proof.
  destruct (merge_continues_when_all_flagged 0 (KeyMsg "c") flaggedResolved "/repo") as (H & _).
  apply H. apply issued_here.
Defined.

(** ** Tabs, modes and tokens along a run *)

Ltac member :=
  unfold tabs, toolModes, viewModes, actionTokens;
  solve [repeat first [apply list_elem_of_here | apply list_elem_of_further]].

Section ShapeProofs.

Context {toolkit : Toolkit}.

Ltac props :=
  repeat match goal with
         | H : bool_decide _ = true |- _ => apply bool_decide_eq_true_1 in H
         | H : bool_decide _ = false |- _ => apply bool_decide_eq_false_1 in H
         | H : _ && _ = true |- _ => apply andb_true_iff in H as [? ?]
         | H : negb _ = true |- _ => apply negb_true_iff in H
         | H : (_ <? _) = true |- _ => apply Z.ltb_lt in H
         | H : (_ <=? _) = true |- _ => apply Z.leb_le in H
         | H : (_ <? _) = false |- _ => apply Z.ltb_ge in H
         | H : (_ <=? _) = false |- _ => apply Z.leb_gt in H
         end; subst.

Ltac shape_leaf :=
  match goal with
  | H : wellFormed _ _ |- _ =>
      destruct H as (? & ? & ? & ? & ? & ?); props; unfold wellFormed;
      repeat split; cbn;
      first [ assumption | lia | member | by left | right; left; member
            | right; right; by apply HasPrefix_app ]
  end.

Lemma shape_table (wd : string) (msg : Msg) (t : Table) (put : Table -> model -> model)
    (m : model) :
  (forall t', wellFormed wd (put t' m)) -> wellFormed wd (passToTable msg t put m).1.
Proof.
  intros H. unfold passToTable. destruct (TableUpdate msg t). apply H.
Qed.

Lemma shape_adjustTableSizes (wd : string) (m : model) :
  wellFormed wd m -> wellFormed wd (adjustTableSizes m).
Proof. intros H. unfold adjustTableSizes. repeat case_match; shape_leaf. Qed.

Lemma shape_handleEscape (wd : string) (now : Z) (m : model) :
  wellFormed wd m -> wellFormed wd (handleEscape now m).1.
Proof. intros H. unfold handleEscape. repeat case_match; shape_leaf. Qed.

Lemma shape_handleWorkspaceKeys (wd : string) (now : Z) (key : string) (m : model) :
  wellFormed wd m -> wellFormed wd (handleWorkspaceKeys now key m).1.
Proof.
  intros H. unfold handleWorkspaceKeys, handleConflictKeys.
  repeat case_match; try (apply shape_table; intros t'); shape_leaf.
Qed.

Lemma shape_handleCommitKeys (wd : string) (key : string) (m : model) :
  wellFormed wd m -> wellFormed wd (handleCommitKeys key m).1.
Proof.
  intros H. unfold handleCommitKeys, commitSelected. repeat case_match; shape_leaf.
Qed.

Lemma shape_handleBranchesKeys (wd : string) (now : Z) (key : string) (m : model) :
  wellFormed wd m -> wellFormed wd (handleBranchesKeys now key m).1.
Proof.
  intros H. unfold handleBranchesKeys.
  repeat case_match; try (apply shape_table; intros t'); shape_leaf.
Qed.

Lemma shape_handleToolsKeys (wd : string) (now : Z) (key : string) (m : model) :
  wellFormed wd m -> wellFormed wd (handleToolsKeys now key m).1.
Proof.
  intros H.
  unfold handleToolsKeys, handleToolsMenuKeys, handleUndoKeys, handleRebaseKeys,
    handleHistoryKeys, handleRemoteKeys, markRebase, orElse.
  repeat case_match; simplify_eq; try (apply shape_table; intros t'); shape_leaf.
Qed.

Lemma shape_handleKeyPress (wd : string) (now : Z) (key : string) (m : model) :
  wellFormed wd m -> wellFormed wd (handleKeyPress now key m).1.
Proof.
  intros H. unfold handleKeyPress, handleTabKeys.
  repeat case_match;
    first [ by auto using shape_handleEscape, shape_handleWorkspaceKeys,
              shape_handleCommitKeys, shape_handleBranchesKeys, shape_handleToolsKeys
          | shape_leaf ].
Qed.

Lemma shape_Update (wd : string) (now : Z) (msg : Msg) (m : model) :
  wellFormed wd m -> wellFormed wd (Update now msg m).1.
Proof.
  intros H. destruct msg; cbn [Update fst].
  1: { apply shape_adjustTableSizes. shape_leaf. }
  1: by apply shape_handleKeyPress.
  all: try (unfold updateComponent, passToTable; repeat case_match; simplify_eq; shape_leaf).
  all: try shape_leaf.
  all: repeat case_match; shape_leaf.
Qed.

(** *** The tab *)

Ltac same_tab := left; reflexivity.

Lemma tab_table (msg msg' : Msg) (t : Table) (put : Table -> model -> model) (m0 m : model) :
  (forall t', tab (put t' m) = tab m0) -> tabStep msg m0 (passToTable msg' t put m).1.
Proof.
  intros H. unfold passToTable. destruct (TableUpdate msg' t). left. apply H.
Qed.

Lemma tab_handleEscape (now : Z) (m : model) :
  tabStep (KeyMsg "esc") m (handleEscape now m).1.
Proof. unfold handleEscape. repeat case_match; same_tab. Qed.

Lemma tab_handleWorkspaceKeys (now : Z) (key : string) (m : model) :
  tabStep (KeyMsg key) m (handleWorkspaceKeys now key m).1.
Proof.
  unfold handleWorkspaceKeys, handleConflictKeys.
  repeat case_match; first [same_tab | by apply tab_table].
Qed.

Lemma tab_handleCommitKeys (key : string) (m : model) :
  tabStep (KeyMsg key) m (handleCommitKeys key m).1.
Proof. unfold handleCommitKeys, commitSelected. repeat case_match; same_tab. Qed.

Lemma tab_handleBranchesKeys (now : Z) (key : string) (m : model) :
  tabStep (KeyMsg key) m (handleBranchesKeys now key m).1.
Proof.
  unfold handleBranchesKeys. repeat case_match; first [same_tab | by apply tab_table].
Qed.

Lemma tab_handleToolsKeys (now : Z) (key : string) (m : model) :
  tabStep (KeyMsg key) m (handleToolsKeys now key m).1.
Proof.
  unfold handleToolsKeys, handleToolsMenuKeys, handleUndoKeys, handleRebaseKeys,
    handleHistoryKeys, handleRemoteKeys, markRebase, orElse.
  repeat case_match; simplify_eq; first [same_tab | by apply tab_table].
Qed.

Lemma tab_handleKeyPress (now : Z) (key : string) (m : model) :
  tabStep (KeyMsg key) m (handleKeyPress now key m).1.
Proof.
  unfold handleKeyPress, handleTabKeys.
  repeat case_match; props;
    first [ by auto using tab_handleEscape, tab_handleWorkspaceKeys, tab_handleCommitKeys,
              tab_handleBranchesKeys, tab_handleToolsKeys
          | same_tab
          | props; right; split; [done|]; cbn;
            first [ left; by repeat split
                  | right; left; by repeat split
                  | right; right; left; by repeat split
                  | right; right; right; by repeat split ] ].
Qed.

Lemma tab_Update (now : Z) (msg : Msg) (m : model) : tabStep msg m (Update now msg m).1.
Proof.
  destruct msg; cbn [Update fst]; try apply tab_handleKeyPress.
  1: { left. unfold adjustTableSizes. by repeat case_match. }
  all: try (unfold updateComponent, passToTable; repeat case_match; simplify_eq; same_tab).
  all: try same_tab.
  all: repeat case_match; same_tab.
Qed.

(** *** The token *)

Ltac same_token := left; reflexivity.

Ltac token_leaf :=
  first [ same_token
        | props; cbn;
          first [ right; left; split; [by (left + right) | reflexivity]
                | right; right; left; split; [done|]; split; [assumption | member]
                | right; right; right; split; [done|]; split;
                  [assumption | by apply HasPrefix_app] ] ].

Lemma token_table (msg msg' : Msg) (t : Table) (put : Table -> model -> model)
    (m0 m : model) :
  (forall t', confirmAction (put t' m) = confirmAction m0) ->
  tokenMove msg m0 (passToTable msg' t put m).1.
Proof.
  intros H. unfold passToTable. destruct (TableUpdate msg' t). left. apply H.
Qed.

Lemma token_handleEscape (now : Z) (m : model) :
  tokenMove (KeyMsg "esc") m (handleEscape now m).1.
Proof. unfold handleEscape. repeat case_match; token_leaf. Qed.

Lemma token_handleWorkspaceKeys (now : Z) (key : string) (m : model) :
  tokenMove (KeyMsg key) m (handleWorkspaceKeys now key m).1.
Proof.
  unfold handleWorkspaceKeys, handleConflictKeys.
  repeat case_match; first [same_token | by apply token_table].
Qed.

Lemma token_handleCommitKeys (key : string) (m : model) :
  tokenMove (KeyMsg key) m (handleCommitKeys key m).1.
Proof. unfold handleCommitKeys, commitSelected. repeat case_match; same_token. Qed.

Lemma token_handleBranchesKeys (now : Z) (key : string) (m : model) :
  tab m = "branches" ->
  tokenMove (KeyMsg key) m (handleBranchesKeys now key m).1.
Proof.
  intros Htab. unfold handleBranchesKeys.
  repeat case_match; first [by apply token_table | token_leaf].
Qed.

Lemma token_handleToolsKeys (now : Z) (key : string) (m : model) :
  tab m = "tools" ->
  tokenMove (KeyMsg key) m (handleToolsKeys now key m).1.
Proof.
  intros Htab.
  unfold handleToolsKeys, handleToolsMenuKeys, handleUndoKeys, handleRebaseKeys,
    handleHistoryKeys, handleRemoteKeys, markRebase, orElse.
  repeat case_match; simplify_eq; first [by apply token_table | token_leaf].
Qed.

Lemma token_handleKeyPress (now : Z) (key : string) (m : model) :
  tokenMove (KeyMsg key) m (handleKeyPress now key m).1.
Proof.
  unfold handleKeyPress, handleTabKeys.
  repeat case_match; props;
    first [ by auto using token_handleEscape, token_handleWorkspaceKeys,
              token_handleCommitKeys, token_handleBranchesKeys, token_handleToolsKeys
          | same_token ].
Qed.

Lemma token_Update (now : Z) (msg : Msg) (m : model) : tokenMove msg m (Update now msg m).1.
Proof.
  destruct msg; cbn [Update fst]; try apply token_handleKeyPress.
  1: { left. unfold adjustTableSizes. by repeat case_match. }
  all: try (unfold updateComponent, passToTable; repeat case_match; simplify_eq; same_token).
  all: try same_token.
  all: repeat case_match; same_token.
Qed.

End ShapeProofs.

Lemma tokenShape_cases (token : string) :
  tokenShape token ->
  token = "" \/ token ∈ actionTokens \/ exists name, token = deleteToken name.
Proof.
  intros [H | [H | H]]; [by left | right; by left | right; right].
  exists (TrimPrefix token "delete-branch:"). by apply HasPrefix_TrimPrefix.
Qed.

(** X22.  In every state that the program reaches from its start in the
    directory [wd], the tab is one of the four tabs, the sub-mode of the
    tools tab one of its five, the view of the workspace one of its three,
    the selected suggestion is at least -1, the token is empty, the name of
    one of the four actions or the deletion of a branch, and the repository
    is still [wd]. *)
Theorem reachable_states_are_well_formed `{toolkit : Toolkit} (wd : string) (m : model) :
  reachable wd m ->
  wellFormed wd m /\
  (confirmAction m = "" \/ confirmAction m ∈ actionTokens \/
   exists name, confirmAction m = deleteToken name).
Proof.
  intros H. assert (wellFormed wd m) as Hwf.
  { induction H as [|m now msg _ IH]; [|by apply shape_Update].
    unfold wellFormed. cbn. repeat split; try lia; try member. by left. }
  split; [done|]. apply tokenShape_cases. by destruct Hwf as (_ & _ & _ & _ & ? & _).
Qed.

Lemma reachable_states_are_well_formed_witness :
  wellFormed "/repo" softResetPending /\
  (confirmAction softResetPending = "" \/ confirmAction softResetPending ∈ actionTokens \/
   exists name, confirmAction softResetPending = deleteToken name).
Proof.
  apply reachable_states_are_well_formed. apply reachable_run. constructor.
Defined.

(** X23.  A pending confirmation goes away on [esc] or on [y] and on no other
    message; and a token appears or is replaced only on [enter] in the tools
    tab, where it names one of the four actions, or on [d] in the branches
    tab, where it is the deletion of a branch. *)
Theorem token_changes_on_four_keys `{toolkit : Toolkit} (now : Z) (msg : Msg) (m : model) :
  confirmAction (Update now msg m).1 <> confirmAction m ->
  ((msg = KeyMsg "esc" \/ msg = KeyMsg "y") /\ confirmAction (Update now msg m).1 = "") \/
  (msg = KeyMsg "enter" /\ tab m = "tools" /\
   confirmAction (Update now msg m).1 ∈ actionTokens) \/
  (msg = KeyMsg "d" /\ tab m = "branches" /\
   exists name, confirmAction (Update now msg m).1 = deleteToken name).
Proof.
  intros Hne. destruct (token_Update now msg m) as [H | [H | [H | (? & ? & H)]]];
    [done | by left | right; by left | right; right].
  repeat split; try done.
  exists (TrimPrefix (confirmAction (Update now msg m).1) "delete-branch:").
  by apply HasPrefix_TrimPrefix.
Qed.

Lemma token_changes_on_four_keys_witness :
  ((KeyMsg "y" = KeyMsg "esc" \/ KeyMsg "y" = KeyMsg "y") /\
   confirmAction (Update 0 (KeyMsg "y") softResetPending).1 = "") \/
  (KeyMsg "y" = KeyMsg "enter" /\ tab softResetPending = "tools" /\
   confirmAction (Update 0 (KeyMsg "y") softResetPending).1 ∈ actionTokens) \/
  (KeyMsg "y" = KeyMsg "d" /\ tab softResetPending = "branches" /\
   exists name, confirmAction (Update 0 (KeyMsg "y") softResetPending).1 = deleteToken name).
Proof.
  apply (token_changes_on_four_keys 0 (KeyMsg "y") softResetPending).
  intros H. vm_compute in H. discriminate H.
Defined.

(** X24.  The tab changes on the keys [1] to [4] alone, and only while no
    text input is focused; [2] needs staged files.  Entering a tab resets
    it: [1] shows the files, [2] selects no suggestion, [3] closes the
    comparison and [4] shows the menu of the tools. *)
Theorem tab_changes_on_number_keys `{toolkit : Toolkit} (now : Z) (msg : Msg) (m : model) :
  tab (Update now msg m).1 <> tab m ->
  anyInputFocused m = false /\
  ((msg = KeyMsg "1" /\ tab (Update now msg m).1 = "workspace" /\
    viewMode (Update now msg m).1 = "files") \/
   (msg = KeyMsg "2" /\ 0 < StagedFiles (gitState m) /\
    tab (Update now msg m).1 = "commit" /\ selectedSuggestion (Update now msg m).1 = 0) \/
   (msg = KeyMsg "3" /\ tab (Update now msg m).1 = "branches" /\
    branchComparison (Update now msg m).1 = None) \/
   (msg = KeyMsg "4" /\ tab (Update now msg m).1 = "tools" /\
    toolMode (Update now msg m).1 = "menu")).
Proof. intros Hne. by destruct (tab_Update now msg m) as [H | H]. Qed.

Lemma tab_changes_on_number_keys_witness :
  anyInputFocused (initialModel "/repo") = false /\
  ((KeyMsg "4" = KeyMsg "1" /\ tab (Update 0 (KeyMsg "4") (initialModel "/repo")).1 = "workspace"
    /\ viewMode (Update 0 (KeyMsg "4") (initialModel "/repo")).1 = "files") \/
   (KeyMsg "4" = KeyMsg "2" /\ 0 < StagedFiles (gitState (initialModel "/repo")) /\
    tab (Update 0 (KeyMsg "4") (initialModel "/repo")).1 = "commit" /\
    selectedSuggestion (Update 0 (KeyMsg "4") (initialModel "/repo")).1 = 0) \/
   (KeyMsg "4" = KeyMsg "3" /\ tab (Update 0 (KeyMsg "4") (initialModel "/repo")).1 = "branches"
    /\ branchComparison (Update 0 (KeyMsg "4") (initialModel "/repo")).1 = None) \/
   (KeyMsg "4" = KeyMsg "4" /\ tab (Update 0 (KeyMsg "4") (initialModel "/repo")).1 = "tools" /\
    toolMode (Update 0 (KeyMsg "4") (initialModel "/repo")).1 = "menu")).
Proof.
  apply (tab_changes_on_number_keys 0 (KeyMsg "4") (initialModel "/repo")).
  intros H. vm_compute in H. discriminate H.
Defined.

(** ** Typed text and the targets of commands *)

Lemma Itoa_nonempty (n : Z) : Itoa n <> "".
Proof.
  unfold Itoa. destruct (n <? 0); [done|].
  destruct (itoa_go_first (Z.to_nat n) (Z.to_nat n) "") as (d & rest & _ & ->). done.
Qed.

(** X10.  The rebase view loads between 1 and 50 commits: the count is the
    number that [strconv.Atoi] reads from the input when [enter] is
    pressed.  With the decimal text of a 64-bit number [n] in the focused
    input, [enter] loads [n] commits and clears the input when [n] is
    between 1 and 50, and says that the count is invalid otherwise. *)
Theorem rebase_count_between_1_and_50 `{toolkit : Toolkit} (now : Z) (msg : Msg)
    (m : model) :
  (forall repo count, issued (CmdLoadRebaseCommits repo count) (Update now msg m).2 ->
     msg = KeyMsg "enter" /\ Atoi (Value (rebaseInput m)) = Some count /\ 1 <= count <= 50)
  /\ (forall n, - 2 ^ 63 <= n < 2 ^ 63 ->
      tab m = "tools" -> toolMode m = "rebase" -> Focused (rebaseInput m) = true ->
      Value (rebaseInput m) = Itoa n ->
      Update now (KeyMsg "enter") m =
      if (1 <=? n) && (n <=? 50)
      then (set_rebaseInput (mkTextInput false "") m, CmdLoadRebaseCommits (repoPath m) n)
      else (setStatus "❌ Invalid count (must be 1-50)" now 3000 m, CmdNil)).
Proof.
  split.
  - intros repo count H. apply allowed_Update in H. cbn [allowed] in H. tauto.
  - intros n Hn Htab Hmode Hfoc Hval. cbn [Update]. unfold handleKeyPress.
    assert (anyInputFocused m = true) as ->.
    { unfold anyInputFocused. rewrite Hfoc. by rewrite !orb_true_r. }
    cbn. unfold handleTabKeys. rewrite Htab. cbn.
    unfold handleToolsKeys. rewrite Hmode. cbn.
    unfold handleRebaseKeys. rewrite Hfoc, Hval.
    rewrite (bool_decide_eq_true_2 (Itoa n <> "")) by apply Itoa_nonempty.
    cbn [andb bool_decide decide_rel]. rewrite Atoi_Itoa by done.
    replace (0 <? n) with (1 <=? n) by (destruct (Z.leb_spec 1 n), (Z.ltb_spec 0 n); lia).
    by destruct ((1 <=? n) && (n <=? 50)).
Qed.

Lemma rebase_count_between_1_and_50_witness :
  Update 0 (KeyMsg "enter") (typedCount 5) =
  if (1 <=? 5) && (5 <=? 50)
  then (set_rebaseInput (mkTextInput false "") (typedCount 5),
        CmdLoadRebaseCommits (repoPath (typedCount 5)) 5)
  else (setStatus "❌ Invalid count (must be 1-50)" 0 3000 (typedCount 5), CmdNil).
Proof.
  destruct (rebase_count_between_1_and_50 0 (KeyMsg "enter") (typedCount 5)) as [_ H].
  apply (H 5); [lia | reflexivity..].
Defined.

(** X25.  When the list of changes arrives it replaces the one in the model,
    and the step asks either for the conflicts or for the commit
    suggestions: for the conflicts when the status of some change holds a
    [U] or an [A], so also when a new file is staged, and for the
    suggestions otherwise. *)
Theorem changes_ask_for_conflicts_or_suggestions `{toolkit : Toolkit}
    (now : Z) (incoming : list GitChange) (m : model) :
  changes (Update now (GitChangesMsg incoming) m).1 = incoming
  /\ (Exists conflictStatus incoming ->
      (Update now (GitChangesMsg incoming) m).2 = CmdLoadConflicts (repoPath m))
  /\ (~ Exists conflictStatus incoming ->
      (Update now (GitChangesMsg incoming) m).2 =
      CmdGenerateCommitSuggestions incoming (repoPath m)).
Proof.
  assert (hasConflicts (updateFilesTable (set_changes incoming m)) = true <->
          Exists conflictStatus incoming) as Hc.
  { unfold hasConflicts. cbn. rewrite existsb_exists, Exists_exists. unfold conflictStatus.
    split; intros (c & Hin & H); exists c.
    - split; [by apply list_elem_of_In|].
      apply orb_true_iff in H as [H | H]; [by left|]. right.
      by apply andb_true_iff in H as [H _].
    - split; [by apply list_elem_of_In|]. destruct H as [-> | ->]; [done|].
      by rewrite orb_true_r. }
  cbn [Update]. destruct (hasConflicts _) eqn:E.
  - split; [done|]. split; [done|]. intros Hn. destruct Hn. by apply Hc.
  - split; [done|]. split; [|done]. intros He. apply Hc in He. congruence.
Qed.

Lemma changes_ask_for_conflicts_or_suggestions_witness :
  (Update 0 (GitChangesMsg [mkGitChange "new.go" "A " "" ""]) (initialModel "/repo")).2 =
  CmdLoadConflicts (repoPath (initialModel "/repo")).
Proof.
  destruct (changes_ask_for_conflicts_or_suggestions 0 [mkGitChange "new.go" "A " "" ""]
              (initialModel "/repo")) as (_ & H & _).
  apply H. apply Exists_cons. left. right. reflexivity.
Defined.

Lemma compareTarget_spec (target : string) (branches : list Branch) :
  compareTarget target branches =
  if decide ("main" ∈ Name <$> branches) then "main"
  else if decide ("master" ∈ Name <$> branches) then "master" else target.
Proof.
  revert target. induction branches as [|b bs IH]; intros target.
  - cbn [compareTarget fmap list_fmap].
    by rewrite !decide_False by (intros H; by apply elem_of_nil in H).
  - cbn [compareTarget fmap list_fmap].
    case_bool_decide as Hmain.
    { rewrite decide_True; [done|]. rewrite Hmain. apply list_elem_of_here. }
    case_bool_decide as Hmaster; rewrite IH; clear IH;
      repeat case_decide; try done; exfalso;
      repeat match goal with
             | H : _ ∈ _ :: _ |- _ => apply elem_of_cons in H as [H | H]
             | H : ~ _ ∈ _ :: _ |- _ => apply not_elem_of_cons in H as [? ?]
             end; first [congruence | contradiction | tauto].
Qed.

(** X26.  The comparison that [c] asks for in the branches tab is with
    [main] or with [master]: with [master] when a branch of that name is
    listed and none is named [main], with [main] in every other case, also
    when no branch has either name. *)
Theorem comparison_is_with_main_or_master `{toolkit : Toolkit}
    (now : Z) (msg : Msg) (m : model) (repo target : string) :
  issued (CmdLoadBranchComparison repo target) (Update now msg m).2 ->
  msg = KeyMsg "c" /\ tab m = "branches" /\
  (target = "main" \/ target = "master") /\
  (target = "master" <->
   "master" ∈ Name <$> branches m /\ "main" ∉ Name <$> branches m).
Proof.
  intros H. apply allowed_Update in H. cbn [allowed] in H. destruct H as (-> & Htab & ->).
  rewrite compareTarget_spec. split; [done|]. split; [done|].
  destruct (decide ("main" ∈ Name <$> branches m)) as [Hmain | Hmain].
  - split; [by left|]. split; [done|]. by intros [_ ?].
  - destruct (decide ("master" ∈ Name <$> branches m)) as [Hmaster | Hmaster].
    + split; [by right|]. by split.
    + split; [by left|]. split; [done|]. by intros [? _].
Qed.

Lemma comparison_is_with_main_or_master_witness :
  KeyMsg "c" = KeyMsg "c" /\ tab masterOnly = "branches" /\
  ("master" = "main" \/ "master" = "master") /\
  ("master" = "master" <->
   "master" ∈ Name <$> branches masterOnly /\ "main" ∉ Name <$> branches masterOnly).
Proof.
  apply (comparison_is_with_main_or_master 0 (KeyMsg "c") masterOnly "/repo" "master").
  apply issued_here.
Defined.

(** X27.  A branch is created by [enter] in the branches tab only, from the
    name typed into the focused input, which is not empty; the step clears
    the input and leaves it. *)
Theorem branches_are_created_from_typed_names `{toolkit : Toolkit}
    (now : Z) (msg : Msg) (m : model) (repo name : string) :
  issued (CmdCreateBranch repo name) (Update now msg m).2 ->
  msg = KeyMsg "enter" /\ tab m = "branches" /\ Focused (branchInput m) = true /\
  name = Value (branchInput m) /\ name <> "" /\
  branchInput (Update now msg m).1 = mkTextInput false "".
Proof. intros H. by apply allowed_Update in H. Qed.

Lemma branches_are_created_from_typed_names_witness :
  KeyMsg "enter" = KeyMsg "enter" /\ tab typedBranch = "branches" /\
  Focused (branchInput typedBranch) = true /\
  "feature/login" = Value (branchInput typedBranch) /\ "feature/login" <> "" /\
  branchInput (Update 0 (KeyMsg "enter") typedBranch).1 = mkTextInput false "".
Proof.
  apply (branches_are_created_from_typed_names 0 (KeyMsg "enter") typedBranch "/repo"
           "feature/login").
  apply issued_here.
Defined.

(** ** The suggestion for one file *)

Lemma generateSmartCommitMessage_nonempty {U : Unicode} (file status : string) (diff : DiffInfo)
    (commitType : string) :
  generateSmartCommitMessage file status diff commitType <> "".
Proof.
  unfold generateSmartCommitMessage, orElse.
  match goal with |- (if ?descriptive then _ else _) <> _ =>
    destruct descriptive eqn:Hd end.
  - destruct (Comments diff) as [|firstComment comments]; [done|].
    cbn [first hd]. intros ->. by cbn in Hd.
  - clear Hd.
    repeat case_match; simplify_eq; rewrite ?append_cons, ?append_nil_l; try discriminate.
    all: by destruct (Functions diff).
Qed.

(** X28.  The suggestion for one file is a conventional commit header: its
    type is one of the six, its scope is the scope of the path, and its
    message is the type, the scope in parentheses when there is one, a
    colon and a description that is not empty. *)
Theorem analyzeFileChange_writes_a_header {U : Unicode} (change : GitChange)
    (diff : DiffInfo) :
  let analysis := analyzeFileChange change diff in
  AnalysisType analysis ∈ conventionalTypes /\
  AnalysisScope analysis = determineScope (File change) /\
  exists description, description <> "" /\
    AnalysisMessage analysis =
    if decide (AnalysisScope analysis = "")
    then AnalysisType analysis +:+ ": " +:+ description
    else AnalysisType analysis +:+ "(" +:+ AnalysisScope analysis +:+ "): " +:+ description.
Proof.
  cbv zeta. unfold analyzeFileChange. cbn [AnalysisType AnalysisScope AnalysisMessage].
  split.
  { unfold determineAdvancedCommitType, conventionalTypes.
    repeat case_match;
      solve [repeat first [apply list_elem_of_here | apply list_elem_of_further]]. }
  split; [done|].
  eexists. split; [apply generateSmartCommitMessage_nonempty|].
  unfold formatConventionalCommit.
  destruct (decide (determineScope (File change) = "")) as [-> | Hne].
  - by rewrite bool_decide_eq_false_2 by (by intros ?).
  - by rewrite bool_decide_eq_true_2.
Qed.

(** ** The list of conflicted files *)

Lemma readConflicts_lists (repoPath : string) (files : list string) (w0 w : World) :
  fileContent w = fileContent w0 ->
  let loaded := (readConflicts repoPath files w).1 in
  Forall (listedConflict repoPath w0) loaded /\
  Path <$> loaded `sublist_of` files /\
  (forall file content, file ∈ files -> file <> "" ->
     fileContent w0 (Filepath.Join [repoPath; file]) = Some content ->
     parseConflictMarkers content <> [] -> file ∈ Path <$> loaded).
Proof.
  cbv zeta. revert w. induction files as [|file files IH]; intros w Hw.
  - cbn. split; [constructor|]. split; [constructor|]. by intros ? ? ?%elem_of_nil.
  - cbn [readConflicts]. case_bool_decide as Hfile.
    + destruct (IH w Hw) as (Hall & Hsub & Hcomplete). split; [done|].
      split; [by apply sublist_cons|].
      intros f c [-> | Hin]%elem_of_cons Hne Hc Hp; [done | eauto].
    + unfold mbind, IO_bind, bind, readFile. rewrite Hw.
      set (w1 := record _ w).
      assert (fileContent w1 = fileContent w0) as Hw1 by done.
      destruct (IH w1 Hw1) as (Hall & Hsub & Hcomplete).
      destruct (fileContent w0 (Filepath.Join [repoPath; file])) as [content|] eqn:Hcontent.
      * destruct (readConflicts repoPath files w1) as [others w2]. cbn [fst] in *.
        destruct (0 <? Z.of_nat (length (parseConflictMarkers content))) eqn:Hlen;
          cbn [ret fst].
        -- apply Z.ltb_lt in Hlen. split.
           { apply Forall_cons. split; [|done]. split; [done|]. split; [done|].
             split; [cbn [Conflicts]; intros E; rewrite E in Hlen; cbn in Hlen; lia|].
             exists content. by split. }
           split; [cbn; by apply sublist_skip|].
           intros f c [-> | Hin]%elem_of_cons Hne Hc Hp.
           ++ cbn. apply list_elem_of_here.
           ++ cbn. apply list_elem_of_further. eauto.
        -- apply Z.ltb_ge in Hlen. split; [done|]. split; [by apply sublist_cons|].
           intros f c [-> | Hin]%elem_of_cons Hne Hc Hp; [|eauto].
           rewrite Hcontent in Hc. injection Hc as <-.
           destruct (parseConflictMarkers content); [done | cbn in Hlen; lia].
      * split; [done|]. split; [by apply sublist_cons|].
        intros f c [-> | Hin]%elem_of_cons Hne Hc Hp; [congruence | eauto].
Qed.

(** X29.  [loadConflicts] lists, in the order in which [git] names them, the
    conflicted files that it can read and whose content shows a conflict
    between markers, and no other file: every listed file has its flag
    unset and the conflicts that [parseConflictMarkers] reads in its
    content, and every named file that can be read and shows a conflict is
    listed. *)
Theorem loadConflicts_lists_files_with_markers (repoPath : string) (w : World)
    (loaded : list ConflictFile) :
  (loadConflicts repoPath w).1 = ConflictsMsg loaded ->
  let names := Split (TrimSpace (invocation w repoPath conflictCheck 0).1) newline in
  Forall (listedConflict repoPath w) loaded /\
  Path <$> loaded `sublist_of` names /\
  (forall file content, file ∈ names -> file <> "" ->
     fileContent w (Filepath.Join [repoPath; file]) = Some content ->
     parseConflictMarkers content <> [] -> file ∈ Path <$> loaded).
Proof.
  cbv zeta. unfold invocation. rewrite Nat.add_0_r.
  unfold loadConflicts, mbind, IO_bind, bind, runGit. fold conflictCheck.
  destruct (runAnswer w (runsSoFar w) repoPath conflictCheck) as [output [e|]]; [done|].
  set (w1 := record _ w). cbn [fst].
  pose proof (readConflicts_lists repoPath (Split (TrimSpace output) newline) w w1 eq_refl)
    as H. cbv zeta in H.
  destruct (readConflicts repoPath _ w1) as [files w2]. cbn [ret fst] in *.
  by intros [= <-].
Qed.

Lemma loadConflicts_lists_files_with_markers_witness :
  Forall (listedConflict "/repo" mergingRepo)
    [mkConflictFile "a.txt" [mkConflict 0 ["ours"] ["theirs"]] false] /\
  Path <$> [mkConflictFile "a.txt" [mkConflict 0 ["ours"] ["theirs"]] false]
    `sublist_of` Split (TrimSpace (invocation mergingRepo "/repo" conflictCheck 0).1) newline /\
  (forall file content,
     file ∈ Split (TrimSpace (invocation mergingRepo "/repo" conflictCheck 0).1) newline ->
     file <> "" ->
     fileContent mergingRepo (Filepath.Join ["/repo"; file]) = Some content ->
     parseConflictMarkers content <> [] ->
     file ∈ Path <$> [mkConflictFile "a.txt" [mkConflict 0 ["ours"] ["theirs"]] false]).
Proof.
  apply (loadConflicts_lists_files_with_markers "/repo" mergingRepo). reflexivity.
Defined.

(** ** The aggregator reads and does not write *)

Lemma getFileDiff_runs {U : Unicode} (ord : MapOrder) (file repoPath : string) (w : World) :
  exists more, events (getFileDiff ord file repoPath w).2 = events w ++ more /\
    Forall (fun e => isRun e = true) more /\
    (runsOf more = [["diff"; "--cached"; file]] \/
     runsOf more = [["diff"; "--cached"; file]; ["diff"; file]]).
Proof.
  unfold getFileDiff, mbind, IO_bind, bind, runGit.
  destruct (runAnswer w (runsSoFar w) repoPath ["diff"; "--cached"; file]) as [output err].
  set (w1 := record _ w). case_bool_decide.
  - destruct (runAnswer w1 (runsSoFar w1) repoPath ["diff"; file]) as [output2 err2].
    cbn [ret fst snd]. eexists [_; _]. subst w1. rewrite !events_record, <- app_assoc.
    split; [reflexivity|]. split; [by repeat constructor | by right].
  - cbn [ret fst snd]. eexists [_]. subst w1. rewrite !events_record.
    split; [reflexivity|]. split; [by repeat constructor | by left].
Qed.

Lemma analyzeEach_runs {U : Unicode} (o : Orders) (i : nat) (changes : list GitChange)
    (repoPath : string) (w : World) :
  exists more, events (analyzeEach o i changes repoPath w).2 = events w ++ more /\
    Forall (fun e => isRun e = true) more /\
    Forall (fun argv => exists change, change ∈ changes /\ diffOf (File change) argv)
      (runsOf more) /\
    (length changes <= length (runsOf more) <= 2 * length changes)%nat.
Proof.
  revert i w. induction changes as [|change changes IH]; intros i w.
  - exists []. cbn. rewrite app_nil_r. repeat split; try done; constructor.
  - cbn [analyzeEach]. unfold mbind, IO_bind, bind.
    destruct (getFileDiff_runs (contextOrder o i) (File change) repoPath w)
      as (more1 & Hev1 & Hrun1 & Hargs1).
    destruct (getFileDiff (contextOrder o i) (File change) repoPath w) as [diffInfo w1].
    destruct (IH (S i) w1) as (more2 & Hev2 & Hrun2 & Hargs2 & Hlen2).
    destruct (analyzeEach o (S i) changes repoPath w1) as [others w2].
    cbn [ret fst snd] in *. exists (more1 ++ more2).
    rewrite Hev2, Hev1, <- app_assoc, runsOf_app, length_app.
    split; [done|]. split; [by apply Forall_app|]. split.
    + apply Forall_app. split.
      * destruct Hargs1 as [-> | ->]; repeat apply List.Forall_cons; try apply List.Forall_nil;
          exists change; (split; [apply list_elem_of_here|]); by (left + right).
      * eapply Forall_impl; [exact Hargs2|]. intros argv (c & Hc & Hd).
        exists c. split; [by apply list_elem_of_further | done].
    + destruct Hargs1 as [-> | ->]; cbn [length]; lia.
Qed.

(** X30.  Making the suggestions for N changed files only reads: all that
    [analyzeChangesForCommits] does to the world is to run [git diff], with
    or without [--cached], on files of the list, at least N and at most 2N
    times; it never waits and runs nothing that writes. *)
Theorem analyzeChangesForCommits_only_reads_diffs {U : Unicode} (o : Orders)
    (changes : list GitChange) (repoPath : string) (w : World) :
  let after := newEvents w (analyzeChangesForCommits o changes repoPath w).2 in
  Forall (fun e => isRun e = true) after /\
  Forall (fun argv => exists change, change ∈ changes /\ diffOf (File change) argv)
    (runsOf after) /\
  (length changes <= length (runsOf after) <= 2 * length changes)%nat.
Proof.
  cbv zeta. unfold analyzeChangesForCommits, mbind, IO_bind, bind.
  destruct (analyzeEach_runs o 0 changes repoPath w) as (more & Hev & Hrun & Hargs & Hlen).
  destruct (analyzeEach o 0 changes repoPath w) as [individual w1].
  cbn [ret fst snd] in *. by rewrite (newEvents_app w w1 more Hev).
Qed.
